(** * Speaker calibration session of TASCAR (libtascar/src/calibsession.cc)

    A shallow embedding of [calibsession_t] and of the free functions of
    calibsession.cc, with the properties of the calibration engine proved
    about it.

    Conventions of the embedding:
    - [float] and [double] values are real numbers ([R]); the arithmetic of
      the source is read over the reals.  The explicit narrowing casts
      [(float)x] of [inc_caliblevel] and [inc_diffusegain] are kept as a
      rounding operator.
    - [uint32_t] values are integers ([Z]) with the wrap-around written out.
    - A function that can throw [TASCAR::ErrMsg] or index a vector out of
      range returns an [outcome].
    - Code that is not part of calibsession.cc (band analysis, level meter,
      equalizer fit, XML serialisation, plugin loading) enters as a
      parameter of the section that uses it, or as an uninterpreted
      constructor. *)

From Stdlib Require Import Reals Lra Lia ZArith.
From stdpp Require Import base option list gmap strings.

(** ** Outcomes of fallible code *)

Inductive outcome (A : Type) : Type :=
| Ok (a : A)              (* normal return *)
| Throw (msg : string)    (* a TASCAR::ErrMsg exception leaves the function *)
| Undefined.              (* undefined behaviour: vector indexed out of range *)
Arguments Ok {A} a.
Arguments Throw {A} msg.
Arguments Undefined {A}.

#[global] Instance outcome_ret : MRet outcome := fun A a => Ok a.
#[global] Instance outcome_bind : MBind outcome := fun A B f m =>
  match m with
  | Ok a => f a
  | Throw msg => Throw msg
  | Undefined => Undefined
  end.

Definition is_Ok {A} (m : outcome A) : Prop := exists a, m = Ok a.

(** [v[k]] on a [std::vector]: undefined out of range. *)
Definition vec_at {A} (v : list A) (k : nat) : outcome A :=
  match v !! k with
  | Some x => Ok x
  | None => Undefined
  end.

(** [v[k] = f(v[k])] on a [std::vector]. *)
Definition vec_modify {A} (k : nat) (f : A -> A) (v : list A) : outcome (list A) :=
  match v !! k with
  | Some x => Ok (<[k := f x]> v)
  | None => Undefined
  end.

(** [for(uint32_t k = 0; k < n; ++k) body(k)] over a state [S]. *)
Definition for_index {S} (n : nat) (body : nat -> S -> outcome S) (s : S) : outcome S :=
  fold_left (fun acc k => acc ≫= body k) (seq 0 n) (Ok s).

(** ** Strings: [string_token] and the [calibfor] grammar *)

Module Token.

(** [s.erase(0, n)]: drops the first [n] characters (all of them when the
    string is shorter). *)
Fixpoint erase_front (n : nat) (s : string) : string :=
  match n, s with
  | O, _ => s
  | S n', String _ s' => erase_front n' s'
  | S _, EmptyString => EmptyString
  end.

(** The [while] loop of [string_token]: [s.find(delimiter)] is
    [String.index 0 delimiter s]; [fuel] bounds the number of iterations and
    [None] means that the bound was reached. *)
Fixpoint string_token_loop (fuel : nat) (s delimiter : string) (rv : list string)
  : option (list string) :=
  match String.index 0 delimiter s with
  | None => Some (rv ++ [s])
  | Some pos =>
      match fuel with
      | O => None
      | S fuel' =>
          string_token_loop fuel'
            (erase_front (pos + String.length delimiter) s) delimiter
            (rv ++ [String.substring 0 pos s])
      end
  end.

Definition string_token (s delimiter : string) : option (list string) :=
  string_token_loop (String.length s) s delimiter [].

End Token.

(** ** Numbers *)

(** [pow(10.0, x)] and [powf(10.0f, x)]. *)
Definition pow10 (x : R) : R := Rpower 10 x.

(** [log10(x)] and [log10f(x)]. *)
Definition log10 (x : R) : R := (ln x / ln 10)%R.

(** [std::min] and [std::max] on floating-point values. *)
Definition fmin2 (a b : R) : R := Rmin a b.
Definition fmax2 (a b : R) : R := Rmax a b.

(** Conversion to [uint32_t]. *)
Definition u32 (z : Z) : Z := (z mod 2 ^ 32)%Z.

(** [(float)n] for a vector size [n]. *)
Definition float_of_size (n : nat) : R := INR n.

(** ** Data model *)

Definition pos_t : Type := (R * R * R)%type.

(** [TASCAR::multiband_pareq_t] lives outside calibsession.cc.  Its state is
    kept as the history of the [optim_response] calls made on a
    default-constructed filter, which is the most general reading of the
    method: every implementation is a function of this history. *)
Inductive multiband_pareq_t : Type :=
| pareq_default
| pareq_optim (prev : multiband_pareq_t) (numflt : Z) (vF vG : list R) (fs : R).

(** [eq.optim_response(numflt, vF, vG, fs)]. *)
Definition optim_response (e : multiband_pareq_t) (numflt : Z) (vF vG : list R) (fs : R)
  : multiband_pareq_t := pareq_optim e numflt vF vG fs.

(** One speaker of a speaker array ([spk_descriptor_t]). *)
Record spk_descriptor_t : Type := mk_spk {
  unitvector : pos_t;
  gain : R;
  spk_eq : multiband_pareq_t;
  eqfreq : list R;
  eqgain : list R;
  eqstages : Z
}.

Definition set_gain (g : R) (s : spk_descriptor_t) : spk_descriptor_t :=
  mk_spk (unitvector s) g (spk_eq s) (eqfreq s) (eqgain s) (eqstages s).
Definition set_eqstages (n : Z) (s : spk_descriptor_t) : spk_descriptor_t :=
  mk_spk (unitvector s) (gain s) (spk_eq s) (eqfreq s) (eqgain s) n.
Definition set_eq (e : multiband_pareq_t) (vF vG : list R) (n : Z) (s : spk_descriptor_t)
  : spk_descriptor_t :=
  mk_spk (unitvector s) (gain s) e vF vG n.

(** [spk_array_t]: the broadband speakers, and the nested array [subs]. *)
Record spk_array_t : Type := mk_array {
  spk : list spk_descriptor_t;
  subs : list spk_descriptor_t
}.

(** A source object of the calibration scene. *)
Record src_object_t : Type := mk_src {
  src_mute : bool;
  dlocation : pos_t
}.

(** A receiver object together with its speaker-based plugin
    ([rec_nsp] and [spk_nsp->spkpos], [rec_spec] and [spk_spec->spkpos]). *)
Record receiver_t : Type := mk_rec {
  rec_mute : bool;
  caliblevel : R;
  diffusegain : R;
  spkpos : spk_array_t
}.

Definition set_spkpos (a : spk_array_t) (r : receiver_t) : receiver_t :=
  mk_rec (rec_mute r) (caliblevel r) (diffusegain r) a.
Definition set_rec_mute (b : bool) (r : receiver_t) : receiver_t :=
  mk_rec b (caliblevel r) (diffusegain r) (spkpos r).
Definition set_caliblevel (x : R) (r : receiver_t) : receiver_t :=
  mk_rec (rec_mute r) x (diffusegain r) (spkpos r).
Definition set_diffusegain (x : R) (r : receiver_t) : receiver_t :=
  mk_rec (rec_mute r) (caliblevel r) x (spkpos r).

(** [scenes.back()]: the two sources, the two speaker-based receivers and
    the diffuse sound field of the calibration scene. *)
Record scene_t : Type := mk_scene {
  src_bb : src_object_t;      (* source_objects[0] *)
  src_sub : src_object_t;     (* source_objects[1] *)
  diff_mute : bool;           (* diff_snd_field_objects.back() *)
  rec_nsp : receiver_t;       (* receivermod_objects[0] *)
  rec_spec : receiver_t       (* receivermod_objects[1] *)
}.

Record spk_eq_param_t : Type := mk_par {
  issub : bool;
  fmin : R;
  fmax : R;
  duration : R;
  prewait : R;
  reflevel : R;
  bandsperoctave : R;
  bandoverlap : R;
  max_eqstages : Z
}.

(** The four calibration-validity flags. *)
Record flags_t : Type := mk_flags {
  gainmodified : bool;
  levelsrecorded : bool;
  calibrated : bool;
  calibrated_diff : bool
}.

(** Results of the last measurement. *)
Record meas_t : Type := mk_meas {
  levels : list R;
  sublevels : list R;
  levelsfrg : list R;
  sublevelsfrg : list R;
  lmin : R;
  lmax : R;
  lmean : R;
  fcomp_bb : Z;
  fcomp_sub : Z;
  vF : list R;
  vFsub : list R;
  vGains : list (list R);
  vGainsSub : list (list R)
}.

(** [jackrec2wave_t]: the sample rate and the number of captures made. *)
Record jackrec2wave_t : Type := mk_jackrec {
  srate : R;
  ncaptures : nat
}.

Record calibsession_t : Type := mk_session {
  flags : flags_t;
  startlevel : R;
  startdiffgain : R;
  delta : R;
  delta_diff : R;
  spkname : string;
  spk_file : list spk_descriptor_t;
  par_speaker : spk_eq_param_t;
  par_sub : spk_eq_param_t;
  refport_ : list string;
  calibfor : string;
  jackrec : jackrec2wave_t;
  meas : meas_t;
  scene : scene_t
}.

Definition set_flags (f : flags_t) (s : calibsession_t) : calibsession_t :=
  mk_session f (startlevel s) (startdiffgain s) (delta s) (delta_diff s) (spkname s)
    (spk_file s) (par_speaker s) (par_sub s) (refport_ s) (calibfor s) (jackrec s)
    (meas s) (scene s).
Definition set_delta (d : R) (s : calibsession_t) : calibsession_t :=
  mk_session (flags s) (startlevel s) (startdiffgain s) d (delta_diff s) (spkname s)
    (spk_file s) (par_speaker s) (par_sub s) (refport_ s) (calibfor s) (jackrec s)
    (meas s) (scene s).
Definition set_delta_diff (d : R) (s : calibsession_t) : calibsession_t :=
  mk_session (flags s) (startlevel s) (startdiffgain s) (delta s) d (spkname s)
    (spk_file s) (par_speaker s) (par_sub s) (refport_ s) (calibfor s) (jackrec s)
    (meas s) (scene s).
Definition set_jackrec (j : jackrec2wave_t) (s : calibsession_t) : calibsession_t :=
  mk_session (flags s) (startlevel s) (startdiffgain s) (delta s) (delta_diff s) (spkname s)
    (spk_file s) (par_speaker s) (par_sub s) (refport_ s) (calibfor s) j
    (meas s) (scene s).
Definition set_meas (m : meas_t) (s : calibsession_t) : calibsession_t :=
  mk_session (flags s) (startlevel s) (startdiffgain s) (delta s) (delta_diff s) (spkname s)
    (spk_file s) (par_speaker s) (par_sub s) (refport_ s) (calibfor s) (jackrec s)
    m (scene s).
Definition set_scene (sc : scene_t) (s : calibsession_t) : calibsession_t :=
  mk_session (flags s) (startlevel s) (startdiffgain s) (delta s) (delta_diff s) (spkname s)
    (spk_file s) (par_speaker s) (par_sub s) (refport_ s) (calibfor s) (jackrec s)
    (meas s) sc.

(** ** Mute-state transitions *)

Inductive mute_target : Type := SrcBB | SrcSub | Diffuse | RecNsp | RecSpec.

(** The elementary statements of [set_active], [set_active_diff] and of the
    phase switches of [get_levels], in program order. *)
Inductive action : Type :=
| SetMute (t : mute_target) (b : bool)   (* obj->set_mute(b) *)
| ResetLocation (t : mute_target)        (* src->dlocation = pos_t(1, 0, 0) *)
| SetCalibrated                          (* calibrated = true *)
| SetCalibratedDiff.                     (* calibrated_diff = true *)

Definition set_src_mute (b : bool) (o : src_object_t) : src_object_t :=
  mk_src b (dlocation o).
Definition set_dlocation (p : pos_t) (o : src_object_t) : src_object_t :=
  mk_src (src_mute o) p.

Definition set_mute (t : mute_target) (b : bool) (sc : scene_t) : scene_t :=
  match t with
  | SrcBB => mk_scene (set_src_mute b (src_bb sc)) (src_sub sc) (diff_mute sc) (rec_nsp sc) (rec_spec sc)
  | SrcSub => mk_scene (src_bb sc) (set_src_mute b (src_sub sc)) (diff_mute sc) (rec_nsp sc) (rec_spec sc)
  | Diffuse => mk_scene (src_bb sc) (src_sub sc) b (rec_nsp sc) (rec_spec sc)
  | RecNsp => mk_scene (src_bb sc) (src_sub sc) (diff_mute sc) (set_rec_mute b (rec_nsp sc)) (rec_spec sc)
  | RecSpec => mk_scene (src_bb sc) (src_sub sc) (diff_mute sc) (rec_nsp sc) (set_rec_mute b (rec_spec sc))
  end.

Definition front : pos_t := (1%R, 0%R, 0%R).

Definition reset_location (t : mute_target) (sc : scene_t) : scene_t :=
  match t with
  | SrcBB => mk_scene (set_dlocation front (src_bb sc)) (src_sub sc) (diff_mute sc) (rec_nsp sc) (rec_spec sc)
  | SrcSub => mk_scene (src_bb sc) (set_dlocation front (src_sub sc)) (diff_mute sc) (rec_nsp sc) (rec_spec sc)
  | _ => sc
  end.

Definition exec (a : action) (s : calibsession_t) : calibsession_t :=
  match a with
  | SetMute t b => set_scene (set_mute t b (scene s)) s
  | ResetLocation t => set_scene (reset_location t (scene s)) s
  | SetCalibrated =>
      set_flags (mk_flags (gainmodified (flags s)) (levelsrecorded (flags s)) true
                   (calibrated_diff (flags s))) s
  | SetCalibratedDiff =>
      set_flags (mk_flags (gainmodified (flags s)) (levelsrecorded (flags s))
                   (calibrated (flags s)) true) s
  end.

Definition run (p : list action) (s : calibsession_t) : calibsession_t :=
  fold_left (fun s a => exec a s) p s.

(** Body of [set_active(b)]; [callee] is the statement list of the nested
    call [set_active_diff(false)], which is made only when [b] holds. *)
Definition set_active_steps (callee : list action) (b : bool) : list action :=
  [SetMute SrcSub true]
  ++ (if negb b then [SetMute RecNsp false; SetMute RecSpec true] else [])
  ++ (if b then callee else [])
  ++ [ResetLocation SrcBB; SetMute SrcBB (negb b)]
  ++ (if b then [SetCalibrated; SetMute RecNsp true; SetMute RecSpec false] else []).

(** Body of [set_active_diff(b)]; [callee] is the statement list of the
    nested call [set_active(false)], which is made only when [b] holds. *)
Definition set_active_diff_steps (callee : list action) (b : bool) : list action :=
  [SetMute SrcSub true]
  ++ (if negb b then [SetMute RecNsp false; SetMute RecSpec true] else [])
  ++ (if b then callee else [])
  ++ [SetMute Diffuse (negb b)]
  ++ (if b then [SetCalibratedDiff; SetMute RecNsp true; SetMute RecSpec false] else []).

(** The two functions call each other only with [false], and a call with
    [false] makes no further call: the recursion is unfolded once. *)
Definition set_active_script (b : bool) : list action :=
  set_active_steps (set_active_diff_steps [] false) b.
Definition set_active_diff_script (b : bool) : list action :=
  set_active_diff_steps (set_active_steps [] false) b.

Definition set_active (b : bool) (s : calibsession_t) : calibsession_t :=
  run (set_active_script b) s.
Definition set_active_diff (b : bool) (s : calibsession_t) : calibsession_t :=
  run (set_active_diff_script b) s.

(** The phase switches of [get_levels]: before the broadband measurement,
    before the subwoofer measurement, and after the measurements. *)
Definition get_levels_phase_bb : list action :=
  [SetMute SrcSub true; SetMute SrcBB false; SetMute RecSpec true; SetMute RecNsp false].
Definition get_levels_phase_sub : list action :=
  [SetMute SrcBB true; SetMute SrcSub false].
Definition get_levels_phase_end : list action :=
  [SetMute SrcBB true; ResetLocation SrcBB; SetMute SrcSub true; ResetLocation SrcSub].

(** [!spk_nsp->spkpos.subs.empty()] *)
Definition has_subs (s : calibsession_t) : bool :=
  match subs (spkpos (rec_nsp (scene s))) with
  | [] => false
  | _ :: _ => true
  end.

Definition get_levels_script (s : calibsession_t) : list action :=
  get_levels_phase_bb
  ++ (if has_subs s then get_levels_phase_sub else [])
  ++ get_levels_phase_end.

(** The operations that change the mute state, and the list of all the
    states a sequence of them passes through, statement by statement. *)
Inductive mute_op : Type :=
| op_set_active (b : bool)
| op_set_active_diff (b : bool)
| op_get_levels.

Definition op_script (s : calibsession_t) (o : mute_op) : list action :=
  match o with
  | op_set_active b => set_active_script b
  | op_set_active_diff b => set_active_diff_script b
  | op_get_levels => get_levels_script s
  end.

Fixpoint states_of (p : list action) (s : calibsession_t) : list calibsession_t :=
  match p with
  | [] => []
  | a :: p' => exec a s :: states_of p' (exec a s)
  end.

Fixpoint mute_trace (ops : list mute_op) (s : calibsession_t) : list calibsession_t :=
  match ops with
  | [] => []
  | o :: ops' =>
      states_of (op_script s o) s ++ mute_trace ops' (run (op_script s o) s)
  end.

(** Number of unmuted stimuli among broadband source, subwoofer source and
    diffuse field. *)
Definition unmuted (b : bool) : nat := if b then 0 else 1.
Definition stimuli_unmuted (s : calibsession_t) : nat :=
  unmuted (src_mute (src_bb (scene s))) + unmuted (src_mute (src_sub (scene s)))
  + unmuted (diff_mute (scene s)).

(** ** The calibration session *)

Inductive weight_t : Type := weight_Z | weight_C.

Section Session.

(** [(float)x] for a [double] [x]. *)
Variable f32 : R -> R.

(** A recorded buffer ([TASCAR::wave_t]); [capture n] is the content of the
    record buffers after the [n]-th call of [jackrec.rec]. *)
Variable wave_t : Type.
Variable capture : nat -> list wave_t.

(** [TASCAR::get_bandlevels(wav, fmin, fmax, fs, bandsperoctave,
    bandoverlap, vF, vL)]: the band centre frequencies [vF] and the band
    levels [vL] of a buffer. *)
Variable get_bandlevels : wave_t -> R -> R -> R -> R -> R -> list R * list R.

(** [levelmeter.ms()] of a [levelmeter_t(fs, duration, weight)] after the
    listed [update] calls. *)
Variable levelmeter_ms : R -> R -> weight_t -> list wave_t -> R.

Local Open Scope R_scope.

(** *** Calibration level and diffuse gain *)

Definition get_caliblevel (s : calibsession_t) : R :=
  20 * log10 (caliblevel (rec_spec (scene s)) * 5e4).

Definition get_diffusegain (s : calibsession_t) : R :=
  20 * log10 (diffusegain (rec_spec (scene s))).

Definition set_gainmodified (s : calibsession_t) : calibsession_t :=
  set_flags (mk_flags true (levelsrecorded (flags s)) (calibrated (flags s))
               (calibrated_diff (flags s))) s.

Definition inc_caliblevel (dl : R) (s : calibsession_t) : calibsession_t :=
  let s1 := set_gainmodified s in
  let s2 := set_delta (delta s1 + dl) s1 in
  let newlevel_pa := 2e-5 * pow10 (0.05 * (startlevel s2 + delta s2)) in
  let sc := scene s2 in
  set_scene (mk_scene (src_bb sc) (src_sub sc) (diff_mute sc)
               (set_caliblevel (f32 newlevel_pa) (rec_nsp sc))
               (set_caliblevel (f32 newlevel_pa) (rec_spec sc))) s2.

Definition inc_diffusegain (dl : R) (s : calibsession_t) : calibsession_t :=
  let s1 := set_gainmodified s in
  let s2 := set_delta_diff (delta_diff s1 + dl) s1 in
  let g := pow10 (0.05 * (startdiffgain s2 + delta_diff s2)) in
  let sc := scene s2 in
  set_scene (mk_scene (src_bb sc) (src_sub sc) (diff_mute sc)
               (set_diffusegain (f32 g) (rec_nsp sc))
               (set_diffusegain (f32 g) (rec_spec sc))) s2.

(** *** Loops over both speaker arrays *)

(** [for(auto recspk : {spk_nsp, spk_spec}) body(recspk->spkpos)] *)
Definition for_both (body : spk_array_t -> outcome spk_array_t) (sc : scene_t)
  : outcome scene_t :=
  a1 ← body (spkpos (rec_nsp sc));
  a2 ← body (spkpos (rec_spec sc));
  Ok (mk_scene (src_bb sc) (src_sub sc) (diff_mute sc)
        (set_spkpos a1 (rec_nsp sc)) (set_spkpos a2 (rec_spec sc))).

(** [for(k = 0; k < n; ++k) v[k].gain = g] *)
Definition assign_gains (n : nat) (g : R) (v : list spk_descriptor_t)
  : outcome (list spk_descriptor_t) :=
  for_index n (fun k v => vec_modify k (set_gain g) v) v.

Definition reset_array (nlevels nsublevels : nat) (a : spk_array_t) : outcome spk_array_t :=
  v ← assign_gains nlevels 1 (spk a);
  w ← assign_gains nsublevels 1 (subs a);
  Ok (mk_array v w).

Definition reset_levels (s : calibsession_t) : outcome calibsession_t :=
  let f := flags s in
  let m := meas s in
  let s1 := set_flags (mk_flags (gainmodified f) false (calibrated f) (calibrated_diff f)) s in
  let m1 := mk_meas (levels m) (sublevels m)
              ((fun _ => 0) <$> levelsfrg m) ((fun _ => 0) <$> sublevelsfrg m)
              (lmin m) (lmax m) (lmean m) (fcomp_bb m) (fcomp_sub m)
              (vF m) (vFsub m) (vGains m) (vGainsSub m) in
  let s2 := set_meas m1 s1 in
  sc ← for_both (reset_array (length (levels m)) (length (sublevels m))) (scene s2);
  Ok (set_scene sc s2).

(** *** Gain update of [get_levels] *)

(** [for(k = 0; k < levels.size(); ++k)
      v[k].gain *= pow(10.0, 0.05 * (lmin - levels[k]))] *)
Definition scale_gains (lmin : R) (levels : list R) (v : list spk_descriptor_t)
  : outcome (list spk_descriptor_t) :=
  for_index (length levels)
    (fun k v =>
       L ← vec_at levels k;
       vec_modify k (fun s => set_gain (gain s * pow10 (0.05 * (lmin - L))) s) v) v.

(** [double lmax(0); for(k = 0; k < n; ++k) lmax = std::max(lmax, v[k].gain)] *)
Definition max_gain (n : nat) (v : list spk_descriptor_t) : outcome R :=
  for_index n (fun k lmax => s ← vec_at v k; Ok (fmax2 lmax (gain s))) 0.

(** [for(k = 0; k < n; ++k) v[k].gain /= lmax] *)
Definition divide_gains (n : nat) (lmax : R) (v : list spk_descriptor_t)
  : outcome (list spk_descriptor_t) :=
  for_index n (fun k v => vec_modify k (fun s => set_gain (gain s / lmax) s) v) v.

(** The two passes over the gains of one speaker array. *)
Definition update_gains (lmin : R) (levels sublevels : list R) (a : spk_array_t)
  : outcome spk_array_t :=
  v1 ← scale_gains lmin levels (spk a);
  w1 ← scale_gains lmin sublevels (subs a);
  lmax ← max_gain (length levels) v1;
  v2 ← divide_gains (length levels) lmax v1;
  w2 ← divide_gains (length sublevels) lmax w1;
  Ok (mk_array v2 w2).

(** The body of one of the two equalizer loops for the speaker [s] and the
    current index [k]. *)
Definition update_eq (fcomp : Z) (vF : list R) (vGains : list (list R)) (fs : R)
    (k : nat) (s : spk_descriptor_t) : outcome spk_descriptor_t :=
  if (fcomp =? 0)%Z then
    Ok (set_eq (spk_eq s) [] [] fcomp s)
  else
    g ← vec_at vGains k;
    Ok (set_eq (optim_response (spk_eq s) fcomp vF g fs) vF g fcomp s).

(** [uint32_t k = 0; for(auto& spk : v) { ...; k = next(k); }]: the
    broadband loop increments [k], the subwoofer loop leaves it at 0. *)
Fixpoint update_eqs (fcomp : Z) (vF : list R) (vGains : list (list R)) (fs : R)
    (next : nat -> nat) (k : nat) (v : list spk_descriptor_t)
  : outcome (list spk_descriptor_t) :=
  match v with
  | [] => Ok []
  | s :: v' =>
      s' ← update_eq fcomp vF vGains fs k s;
      r ← update_eqs fcomp vF vGains fs next (next k) v';
      Ok (s' :: r)
  end.

(** The body of [for(auto recspk : {spk_nsp, spk_spec})] in [get_levels]. *)
Definition update_array (m : meas_t) (fs : R) (a : spk_array_t) : outcome spk_array_t :=
  a1 ← update_gains (lmin m) (levels m) (sublevels m) a;
  v ← update_eqs (fcomp_bb m) (vF m) (vGains m) fs S 0%nat (spk a1);
  w ← update_eqs (fcomp_sub m) (vFsub m) (vGainsSub m) fs (fun k => k) 0%nat (subs a1);
  Ok (mk_array v w).

Definition set_levelsrecorded (b : bool) (s : calibsession_t) : calibsession_t :=
  set_flags (mk_flags (gainmodified (flags s)) b (calibrated (flags s))
               (calibrated_diff (flags s))) s.

(** Lines 473 to 520 of [get_levels]: the update of both arrays from the
    measured levels. *)
Definition get_levels_update (s : calibsession_t) : outcome calibsession_t :=
  sc ← for_both (update_array (meas s) (srate (jackrec s))) (scene s);
  Ok (set_levelsrecorded true (set_scene sc s)).

(** *** Frequency-response and level measurement *)

(** [jackrec.rec(recbuf, ports)]: the buffers of the next capture. *)
Definition jackrec_rec (jr : jackrec2wave_t) : list wave_t * jackrec2wave_t :=
  (capture (ncaptures jr), mk_jackrec (srate jr) (S (ncaptures jr))).

Definition bandlevels (wav : wave_t) (calibpar : spk_eq_param_t) (fs : R)
  : list R * list R :=
  get_bandlevels wav (fmin calibpar) (fmax calibpar) fs
    (bandsperoctave calibpar) (bandoverlap calibpar).

(** [for(k = 0; k < vL.size(); ++k) vLmean[k] += vL[k]] *)
Definition add_into (vL vLmean : list R) : outcome (list R) :=
  for_index (length vL)
    (fun k vLmean => l ← vec_at vL k; vec_modify k (fun m => m + l) vLmean) vLmean.

(** One iteration of the loop over the measurement channels: the band
    levels of channel [ch] are taken to the power domain and summed into
    [vLmean]. *)
Definition accumulate_channel (recbuf : list wave_t) (calibpar : spk_eq_param_t) (fs : R)
    (ch : nat) (st : list R * list R) : outcome (list R * list R) :=
  wav ← vec_at recbuf ch;
  let '(vF, vL) := bandlevels wav calibpar fs in
  let vL := (fun l => pow10 (0.1 * l)) <$> vL in
  match snd st with
  | [] => Ok (vF, vL)
  | _ :: _ => vLmean ← add_into vL (snd st); Ok (vF, vLmean)
  end.

(** [for(auto& l : vLmean) { l /= (float)recbuf.size(); l = 10.0f * log10f(l); }] *)
Definition mean_to_dB (nbuf : nat) (vLmean : list R) : list R :=
  (fun l => 10 * log10 (l / float_of_size nbuf)) <$> vLmean.

(** [for(ch = 0; ch < std::min(vLmean.size(), vLref.size()); ++ch)
      vLmean[ch] = vLref[ch] - vLmean[ch]] *)
Definition ref_minus (vLref vLmean : list R) : outcome (list R) :=
  for_index (Nat.min (length vLmean) (length vLref))
    (fun ch vLmean => r ← vec_at vLref ch; vec_modify ch (fun m => r - m) vLmean) vLmean.

(** [v.back()] *)
Definition back {A} (v : list A) : outcome A :=
  match last v with
  | Some x => Ok x
  | None => Undefined
  end.

(** [vl_max = v.back(); for(l : v) vl_max = std::max(vl_max, l)] *)
Definition vec_max (v : list R) : outcome R :=
  b ← back v; Ok (fold_left fmax2 v b).
Definition vec_min (v : list R) : outcome R :=
  b ← back v; Ok (fold_left fmin2 v b).

(** The band analysis shared by [get_fresp_] and [get_levels_]: power-domain
    sum over the channels [0 .. nports - 2], division by the number of
    record buffers, back to dB, reference minus measurement.  Returns the
    frequency vector left in [vF] and the resulting [vLmean]. *)
Definition relative_response (recbuf : list wave_t) (nports : nat)
    (calibpar : spk_eq_param_t) (fs : R) (vF : list R) : outcome (list R * list R) :=
  '(vF, vLmean) ← for_index (nports - 1) (accumulate_channel recbuf calibpar fs) (vF, []);
  let vLmean := mean_to_dB (length recbuf) vLmean in
  ref ← back recbuf;
  let '(vF, vLref) := bandlevels ref calibpar fs in
  vLmean ← ref_minus vLref vLmean;
  Ok (vF, vLmean).

(** The curve that [get_fresp_] hands to [optim_response]. *)
Definition normalized_response (recbuf : list wave_t) (nports : nat)
    (calibpar : spk_eq_param_t) (fs : R) (vF : list R) : outcome (list R * list R) :=
  '(vF, vLmean) ← relative_response recbuf nports calibpar fs vF;
  vl_max ← vec_max vLmean;
  Ok (vF, (fun l => l - vl_max) <$> vLmean).

(** [std::min(((uint32_t)vF.size() - 1u) / 3u, calibpar.max_eqstages)] *)
Definition stage_count (nbands : nat) (max_eqstages : Z) : Z :=
  Z.min (u32 (u32 (Z.of_nat nbands) - 1) / 3) max_eqstages.

(** The state carried through the loop over the speakers of [get_fresp_]. *)
Record fresp_t : Type := mk_fresp {
  fr_src : src_object_t;
  fr_jackrec : jackrec2wave_t;
  fr_vF : list R;
  fr_vGain : list (list R);
  fr_numflt : Z
}.

(** The body of the loop of [get_fresp_] for one speaker. *)
Definition fresp_speaker (nports : nat) (calibpar : spk_eq_param_t)
    (st : fresp_t) (s : spk_descriptor_t) : outcome (fresp_t * spk_descriptor_t) :=
  let s := set_eqstages 0 s in
  let src := set_dlocation (unitvector s) (fr_src st) in
  let '(recbuf, jr) := jackrec_rec (fr_jackrec st) in
  '(vF, vLmean) ← normalized_response recbuf nports calibpar (srate jr) (fr_vF st);
  let vGain := fr_vGain st ++ [vLmean] in
  let numflt :=
    if (fr_numflt st =? 0)%Z then stage_count (length vF) (max_eqstages calibpar)
    else fr_numflt st in
  let e := optim_response pareq_default numflt vF vLmean (srate jr) in
  Ok (mk_fresp src jr vF vGain numflt, set_eq e vF vLmean numflt s).

Fixpoint fresp_loop (nports : nat) (calibpar : spk_eq_param_t)
    (st : fresp_t) (spks : list spk_descriptor_t)
  : outcome (fresp_t * list spk_descriptor_t) :=
  match spks with
  | [] => Ok (st, [])
  | s :: spks' =>
      '(st1, s') ← fresp_speaker nports calibpar st s;
      '(st2, r) ← fresp_loop nports calibpar st1 spks';
      Ok (st2, s' :: r)
  end.

(** [get_fresp_(spks, src, jackrec, recbuf, ports, calibpar, vF, vGain)]:
    returns the stage count together with the objects it received by
    reference. *)
Definition get_fresp_ (spks : list spk_descriptor_t) (src : src_object_t)
    (jr : jackrec2wave_t) (nports : nat) (calibpar : spk_eq_param_t)
    (vF : list R) (vGain : list (list R))
  : outcome (Z * list spk_descriptor_t * fresp_t) :=
  if (max_eqstages calibpar =? 0)%Z then
    Ok (0%Z, spks, mk_fresp src jr vF vGain 0)
  else
    '(st, spks') ← fresp_loop nports calibpar (mk_fresp src jr [] [] 0) spks;
    Ok (fr_numflt st, spks', st).


(** [lev_sqr = 0; for(ch = 0; ch < ports.size() - 1; ++ch)
      { levelmeter.update(recbuf[ch]); lev_sqr += levelmeter.ms(); }] *)
Definition sum_ms (recbuf : list wave_t) (nports : nat) (fs dur : R) (w : weight_t)
  : outcome R :=
  for_index (nports - 1)
    (fun ch lev_sqr =>
       _ ← vec_at recbuf ch;
       Ok (lev_sqr + levelmeter_ms fs dur w (take (S ch) recbuf))) 0.

(** The state carried through the loop over the speakers of [get_levels_]. *)
Record levels_t : Type := mk_levels {
  lv_src : src_object_t;
  lv_jackrec : jackrec2wave_t;
  lv_levels : list R;
  lv_levelrange : list R
}.

(** The body of the loop of [get_levels_] for one speaker. *)
Definition levels_speaker (nports : nat) (w : weight_t) (calibpar : spk_eq_param_t)
    (st : levels_t) (s : spk_descriptor_t) : outcome levels_t :=
  let src := set_dlocation (unitvector s) (lv_src st) in
  let '(recbuf, jr) := jackrec_rec (lv_jackrec st) in
  lev_sqr ← sum_ms recbuf nports (srate jr) (duration calibpar) w;
  '(_, vLmean) ← relative_response recbuf nports calibpar (srate jr) [];
  let lev_sqr := 10 * log10 (lev_sqr / float_of_size (length recbuf)) in
  vl_min ← vec_min vLmean;
  vl_max ← vec_max vLmean;
  Ok (mk_levels src jr (lv_levels st ++ [lev_sqr]) (lv_levelrange st ++ [vl_max - vl_min])).

Fixpoint levels_loop (nports : nat) (w : weight_t) (calibpar : spk_eq_param_t)
    (st : levels_t) (spks : list spk_descriptor_t) : outcome levels_t :=
  match spks with
  | [] => Ok st
  | s :: spks' =>
      st1 ← levels_speaker nports w calibpar st s;
      levels_loop nports w calibpar st1 spks'
  end.

(** [get_levels_(spks, src, jackrec, recbuf, ports, weight, calibpar,
    levels, levelrange)] *)
Definition get_levels_ (spks : list spk_descriptor_t) (src : src_object_t)
    (jr : jackrec2wave_t) (nports : nat) (w : weight_t) (calibpar : spk_eq_param_t)
  : outcome levels_t :=
  levels_loop nports w calibpar (mk_levels src jr [] []) spks.

(** *** [get_levels] *)

(** Broadband part: [get_fresp_] then [get_levels_] on the broadband
    speakers of the nsp receiver, with source 0. *)
Definition measure_bb (nports : nat) (s : calibsession_t) : outcome calibsession_t :=
  let sc := scene s in
  let m := meas s in
  '(n, spks, fr) ← get_fresp_ (spk (spkpos (rec_nsp sc))) (src_bb sc) (jackrec s)
                      nports (par_speaker s) (vF m) (vGains m);
  lv ← get_levels_ spks (fr_src fr) (fr_jackrec fr) nports weight_C (par_speaker s);
  let m' := mk_meas (lv_levels lv) (sublevels m) (lv_levelrange lv) (sublevelsfrg m)
              (lmin m) (lmax m) (lmean m) n (fcomp_sub m)
              (fr_vF fr) (vFsub m) (fr_vGain fr) (vGainsSub m) in
  let nsp' := set_spkpos (mk_array spks (subs (spkpos (rec_nsp sc)))) (rec_nsp sc) in
  let sc' := mk_scene (lv_src lv) (src_sub sc) (diff_mute sc) nsp' (rec_spec sc) in
  Ok (set_jackrec (lv_jackrec lv) (set_meas m' (set_scene sc' s))).

(** Subwoofer part: the same on the subwoofers, with source 1. *)
Definition measure_sub (nports : nat) (s : calibsession_t) : outcome calibsession_t :=
  let sc := scene s in
  let m := meas s in
  '(n, spks, fr) ← get_fresp_ (subs (spkpos (rec_nsp sc))) (src_sub sc) (jackrec s)
                      nports (par_sub s) (vFsub m) (vGainsSub m);
  lv ← get_levels_ spks (fr_src fr) (fr_jackrec fr) nports weight_Z (par_sub s);
  let m' := mk_meas (levels m) (lv_levels lv) (levelsfrg m) (lv_levelrange lv)
              (lmin m) (lmax m) (lmean m) (fcomp_bb m) n
              (vF m) (fr_vF fr) (vGains m) (fr_vGain fr) in
  let nsp' := set_spkpos (mk_array (spk (spkpos (rec_nsp sc))) spks) (rec_nsp sc) in
  let sc' := mk_scene (src_bb sc) (lv_src lv) (diff_mute sc) nsp' (rec_spec sc) in
  Ok (set_jackrec (lv_jackrec lv) (set_meas m' (set_scene sc' s))).

(** [lmin = levels[0]; lmax = levels[0]; lmean = 0;
     for(l : levels) { lmean += l; lmin = min(l, lmin); lmax = max(l, lmax); }
     lmean /= (float)levels.size()] *)
Definition level_min (levels : list R) : outcome R :=
  l0 ← vec_at levels 0; Ok (fold_left (fun lmin l => fmin2 l lmin) levels l0).
Definition level_max (levels : list R) : outcome R :=
  l0 ← vec_at levels 0; Ok (fold_left (fun lmax l => fmax2 l lmax) levels l0).
Definition level_mean (levels : list R) : R :=
  fold_left (fun lmean l => lmean + l) levels 0 / float_of_size (length levels).

Definition level_stats (s : calibsession_t) : outcome calibsession_t :=
  let m := meas s in
  lo ← level_min (levels m);
  hi ← level_max (levels m);
  Ok (set_meas (mk_meas (levels m) (sublevels m) (levelsfrg m) (sublevelsfrg m)
                  lo hi (level_mean (levels m)) (fcomp_bb m) (fcomp_sub m)
                  (vF m) (vFsub m) (vGains m) (vGainsSub m)) s).

Definition get_levels (s : calibsession_t) : outcome calibsession_t :=
  let nports := (length (refport_ s) + 1)%nat in
  s1 ← measure_bb nports (run get_levels_phase_bb s);
  s2 ← (if has_subs s1 then measure_sub nports (run get_levels_phase_sub s1) else Ok s1);
  s3 ← level_stats (run get_levels_phase_end s2);
  get_levels_update s3.


(** *** Layout documents and [saveas] *)

(** The value handed to [set_attribute]; the serialisation done by
    [TASCAR::to_string] is not part of calibsession.cc. *)
Inductive attr_value : Type :=
| AStr (s : string)
| ANum (x : R)
| AVec (v : list R)
| AUInt (n : Z).

Abbreviation attrs := (gmap string attr_value).

(** A layout document: the root element, its [speaker] and [sub] children
    and the two calibration-parameter children. *)
Record xml_doc_t : Type := mk_doc {
  root_name : string;
  root_attrs : attrs;
  speaker_elems : list attrs;
  sub_elems : list attrs;
  speakercalibconfig : option attrs;
  subcalibconfig : option attrs
}.

(** The files that load as a document, by path. *)
Abbreviation files := (gmap string xml_doc_t).

(** The constructor of [spk_array_diff_render_t] validates the layout and
    may throw; [layout_error doc] is its message when it does. *)
Variable layout_error : xml_doc_t -> option string.

(** [get_spklayout_checksum(elayout)] *)
Variable get_spklayout_checksum : xml_doc_t -> Z.

Definition dquote : string := String (Ascii.ascii_of_nat 34) EmptyString.

(** [TASCAR::xml_doc_t doc(name, LOAD_FILE)] *)
Definition load_file (fs : files) (name : string) : outcome xml_doc_t :=
  match fs !! name with
  | Some doc => Ok doc
  | None => Throw ("Unable to load " +:+ name)
  end.

(** [std::min(k, n - 1)] on [size_t]: [n - 1] wraps around when [n] is 0. *)
Definition min_index (k n : nat) : nat :=
  match n with
  | O => k
  | S n' => Nat.min k n'
  end.

(** The vector [gains] built at the start of [saveas]; it is not used
    afterwards. *)
Definition saveas_gains (levels : list R) (spk_file : list spk_descriptor_t)
  : outcome (list R) :=
  l0 ← vec_at levels 0;
  let lmin := fold_left (fun lmin l => fmin2 l lmin) levels l0 in
  for_index (length levels)
    (fun k gains =>
       s ← vec_at spk_file k;
       l ← vec_at levels k;
       Ok (gains ++ [20 * log10 (gain s) + lmin - l])) [].

(** The body of the loops over the [speaker] and the [sub] elements. *)
Definition save_speaker (fcomp : Z) (vF : list R) (vGains : list (list R))
    (arr : list spk_descriptor_t) (k : nat) (espk : attrs) : outcome attrs :=
  tscspk ← vec_at arr (min_index k (length arr));
  let e := <["gain" := ANum (20 * log10 (gain tscspk))]> espk in
  let e := <["eqstages" := AUInt fcomp]> e in
  if (0 <? fcomp)%Z && (k <? length vGains)%nat then
    g ← vec_at vGains k;
    Ok (<["eqgain" := AVec g]> (<["eqfreq" := AVec vF]> e))
  else
    Ok (<["eqgain" := AStr EmptyString]> (<["eqfreq" := AStr EmptyString]> e)).

Fixpoint save_speakers (fcomp : Z) (vF : list R) (vGains : list (list R))
    (arr : list spk_descriptor_t) (k : nat) (elems : list attrs) : outcome (list attrs) :=
  match elems with
  | [] => Ok []
  | e :: elems' =>
      e' ← save_speaker fcomp vF vGains arr k e;
      r ← save_speakers fcomp vF vGains arr (S k) elems';
      Ok (e' :: r)
  end.

(** [spk_eq_param_t::save_xml] on the child found or added for it. *)
Definition save_xml (par : spk_eq_param_t) (child : option attrs) : option attrs :=
  let e := default ∅ child in
  Some (<["bandoverlap" := ANum (bandoverlap par)]>
       (<["bandsperoctave" := ANum (bandsperoctave par)]>
       (<["reflevel" := ANum (reflevel par)]>
       (<["prewait" := ANum (prewait par)]>
       (<["duration" := ANum (duration par)]>
       (<["fmax" := ANum (fmax par)]>
       (<["fmin" := ANum (fmin par)]> e))))))).

Definition clear_flags (s : calibsession_t) : calibsession_t :=
  set_flags (mk_flags false false false false) s.

(** [saveas(fname)] at the time stamp [now]; returns the session and the
    files after [doc.save(fname)]. *)
Definition saveas (fname now : string) (s : calibsession_t) (fs : files)
  : outcome (calibsession_t * files) :=
  let m := meas s in
  _ ← saveas_gains (levels m) (spk_file s);
  doc ← load_file fs (spkname s);
  if negb (String.eqb (root_name doc) "layout") then
    Throw ("Invalid file type, expected root node type " +:+ dquote +:+ "layout"
           +:+ dquote +:+ ", got " +:+ dquote +:+ root_name doc +:+ dquote +:+ ".")
  else
    let ra := <["diffusegain" := ANum (get_diffusegain s)]>
              (<["caliblevel" := ANum (get_caliblevel s)]> (root_attrs doc)) in
    let doc := mk_doc (root_name doc) ra (speaker_elems doc) (sub_elems doc)
                 (speakercalibconfig doc) (subcalibconfig doc) in
    match layout_error doc with
    | Some msg => Throw msg
    | None =>
        let spec := spkpos (rec_spec (scene s)) in
        es ← save_speakers (fcomp_bb m) (vF m) (vGains m) (spk spec) 0 (speaker_elems doc);
        eb ← save_speakers (fcomp_sub m) (vFsub m) (vGainsSub m) (subs spec) 0 (sub_elems doc);
        let doc := mk_doc (root_name doc) (root_attrs doc) es eb
                     (speakercalibconfig doc) (subcalibconfig doc) in
        let ra := <["calibfor" := AStr (calibfor s)]>
                  (<["calibdate" := AStr now]>
                  (<["checksum" := AUInt (get_spklayout_checksum doc)]> (root_attrs doc))) in
        let doc := mk_doc (root_name doc) ra es eb
                     (save_xml (par_speaker s) (speakercalibconfig doc))
                     (save_xml (par_sub s) (subcalibconfig doc)) in
        Ok (clear_flags s, <[fname := doc]> fs)
    end.

(** [save()] *)
Definition save (now : string) (s : calibsession_t) (fs : files)
  : outcome (calibsession_t * files) :=
  saveas (spkname s) now s fs.


(** *** Construction: the calibration scene and the [calibfor] attribute *)

(** [get_calibfor(fname)]: the [calibfor] attribute of the root element of
    the layout file, the empty string when the attribute is absent. *)
Definition get_calibfor (fs : files) (fname : string) : outcome string :=
  doc ← load_file fs fname;
  match root_attrs doc !! "calibfor" with
  | Some (AStr v) => Ok v
  | _ => Ok EmptyString
  end.

(** The elements of the calibration scene built by the constructor, each
    with the attributes set on it. *)
Record scene_xml : Type := mk_scene_xml {
  e_scene : attrs;
  e_src : attrs;
  e_subsrc : attrs;
  e_rcvr : attrs;
  e_rcvr2 : attrs;
  e_rcvr3 : attrs;
  e_diff : attrs
}.

(** The result of [string_token] when its loop ends. *)
Definition tokens_of (s delimiter : string) : outcome (list string) :=
  match Token.string_token s delimiter with
  | Some l => Ok l
  | None => Undefined
  end.

Definition calibfor_error (calibfor : string) : string :=
  "Invalid format of 'calibfor' attribute '" +:+ calibfor
  +:+ "': Expected comma separated list of name:value pairs.".

(** [for(auto typeattr : receivertypeattr) { ... }] *)
Fixpoint set_calibfor_attributes (calibfor : string) (receivertypeattr : list string)
    (e : attrs) : outcome attrs :=
  match receivertypeattr with
  | [] => Ok e
  | typeattr :: rest =>
      pair ← tokens_of typeattr ":";
      match pair with
      | [name; value] => set_calibfor_attributes calibfor rest (<[name := AStr value]> e)
      | _ => Throw (calibfor_error calibfor)
      end
  end.

(** The part of the constructor of [calibsession_t] that builds the scene
    description: returns the [calibfor] member and the scene elements. *)
Definition build_scene (fs : files) (fname : string) : outcome (string * scene_xml) :=
  calibfor ← get_calibfor fs fname;
  let calibfor := if String.eqb calibfor EmptyString then "type:nsp" else calibfor in
  let e_scene : attrs := {[ "name" := AStr "calib" ]} in
  let e_src : attrs := {[ "mute" := AStr "true" ]} in
  let e_subsrc : attrs := <["mute" := AStr "true"]> {[ "name" := AStr "srcsub" ]} in
  let e_rcvr : attrs := <["layout" := AStr fname]> {[ "type" := AStr "nsp" ]} in
  let e_rcvr2 : attrs :=
    <["layout" := AStr fname]> (<["mute" := AStr "true"]> {[ "name" := AStr "out2" ]}) in
  let e_rcvr3 : attrs := <["name" := AStr "ref"]> {[ "type" := AStr "omni" ]} in
  receivertypeattr ← tokens_of calibfor ",";
  e_rcvr2 ← set_calibfor_attributes calibfor receivertypeattr e_rcvr2;
  let e_diff : attrs := {[ "mute" := AStr "true" ]} in
  Ok (calibfor, mk_scene_xml e_scene e_src e_subsrc e_rcvr e_rcvr2 e_rcvr3 e_diff).


(** ** Vocabulary of the properties *)

(** A token splits at the colon into exactly two parts. *)
Definition splits_in_two (t : string) : Prop :=
  exists name value, Token.string_token t ":" = Some [name; value].

(** Every state that a statement list passes through satisfies [P]. *)
Definition throughout (P : calibsession_t -> Prop) (p : list action) (s : calibsession_t)
  : Prop := Forall P (states_of p s).

Definition at_most_one_stimulus (s : calibsession_t) : Prop :=
  (stimuli_unmuted s <= 1)%nat.

Definition gains (v : list spk_descriptor_t) : list R := gain <$> v.

(** The operations that write speaker gains, equalizer fields, calibration
    level or diffuse gain. *)
Inductive calib_op : Type :=
| op_reset_levels
| op_update                       (* the update of both arrays in get_levels *)
| op_inc_caliblevel (dl : R)
| op_inc_diffusegain (dl : R).

Definition apply_op (o : calib_op) (s : calibsession_t) : outcome calibsession_t :=
  match o with
  | op_reset_levels => reset_levels s
  | op_update => get_levels_update s
  | op_inc_caliblevel dl => Ok (inc_caliblevel dl s)
  | op_inc_diffusegain dl => Ok (inc_diffusegain dl s)
  end.

Fixpoint apply_ops (ops : list calib_op) (s : calibsession_t) : outcome calibsession_t :=
  match ops with
  | [] => Ok s
  | o :: ops' => s' ← apply_op o s; apply_ops ops' s'
  end.

(** Both receivers hold the same speaker array (gains and equalizer fields
    of every speaker and subwoofer), calibration level and diffuse gain. *)
Definition lockstep (s : calibsession_t) : Prop :=
  spkpos (rec_nsp (scene s)) = spkpos (rec_spec (scene s)) /\
  caliblevel (rec_nsp (scene s)) = caliblevel (rec_spec (scene s)) /\
  diffusegain (rec_nsp (scene s)) = diffusegain (rec_spec (scene s)).

(** The speaker and subwoofer counts of both receivers are the lengths of
    the level vectors, and a nonzero stage count comes with a band-gain
    vector for every index the equalizer loops read. *)
Definition sized (s : calibsession_t) : Prop :=
  let m := meas s in
  length (spk (spkpos (rec_nsp (scene s)))) = length (levels m) /\
  length (subs (spkpos (rec_nsp (scene s)))) = length (sublevels m) /\
  length (spk (spkpos (rec_spec (scene s)))) = length (levels m) /\
  length (subs (spkpos (rec_spec (scene s)))) = length (sublevels m) /\
  (fcomp_bb m <> 0%Z -> (length (levels m) <= length (vGains m))%nat) /\
  (fcomp_sub m <> 0%Z -> sublevels m <> [] -> vGainsSub m <> []).

(** The band levels of a buffer taken to the power domain. *)
Definition powers (calibpar : spk_eq_param_t) (fs : R) (wav : wave_t) : list R :=
  (fun l => pow10 (0.1 * l)) <$> snd (bandlevels wav calibpar fs).

(** One step of the accumulation of [vLmean] over the channels. *)
Definition accum (vLmean p : list R) : list R :=
  match vLmean with
  | [] => p
  | _ :: _ => zip_with Rplus vLmean p
  end.

(** Band levels taken to the power domain. *)
Definition to_power (L : list R) : list R := (fun l => pow10 (0.1 * l)) <$> L.

(** Sum over the channels of the energy in band [k], the band levels given
    per channel. *)
Definition energy_sum (levels_by_channel : list (list R)) (k : nat) : R :=
  foldr Rplus 0 ((fun L => pow10 (0.1 * nth k L 0)) <$> levels_by_channel).

(** The energy averaged across the channels, back in dB, for [B] bands. *)
Definition mean_level_dB (levels_by_channel : list (list R)) (B : nat) : list R :=
  (fun k => 10 * log10 (energy_sum levels_by_channel k
                         / INR (length levels_by_channel))) <$> seq 0 B.

(** Reference band levels minus averaged measurement band levels. *)
Definition reference_minus_measurement (vLref : list R)
    (levels_by_channel : list (list R)) : list R :=
  zip_with Rminus vLref (mean_level_dB levels_by_channel (length vLref)).

(** The curve of the capture [recbuf] as the code computes it, characterised
    by its maximum [m]: reference minus channel average, minus [m]. *)
Definition is_fit_curve (calibpar : spk_eq_param_t) (fs : R) (chans : list wave_t)
    (ref : wave_t) (curve : list R) : Prop :=
  let Ls := (fun w => snd (bandlevels w calibpar fs)) <$> chans in
  let D := reference_minus_measurement (snd (bandlevels ref calibpar fs)) Ls in
  exists m, m ∈ D /\ (forall d, d ∈ D -> d <= m) /\ curve = (fun d => d - m) <$> D.

(** The fit target as the claim words it: measurement minus reference,
    minus the maximum of that difference, negated. *)
Definition is_claimed_target (calibpar : spk_eq_param_t) (fs : R) (chans : list wave_t)
    (ref : wave_t) (target : list R) : Prop :=
  let vLref := snd (bandlevels ref calibpar fs) in
  let Ls := (fun w => snd (bandlevels w calibpar fs)) <$> chans in
  let Rc := zip_with Rminus (mean_level_dB Ls (length vLref)) vLref in
  exists m, m ∈ Rc /\ (forall x, x ∈ Rc -> x <= m) /\ target = (fun x => - (x - m)) <$> Rc.

Definition wrong_root_error (name : string) : string :=
  "Invalid file type, expected root node type " +:+ dquote +:+ "layout"
  +:+ dquote +:+ ", got " +:+ dquote +:+ name +:+ dquote +:+ ".".

(** The document after the calibration level and the diffuse gain have been
    set on its root, which is the one the layout validation sees. *)
Definition with_levels (s : calibsession_t) (doc : xml_doc_t) : xml_doc_t :=
  mk_doc (root_name doc)
    (<["diffusegain" := ANum (get_diffusegain s)]>
       (<["caliblevel" := ANum (get_caliblevel s)]> (root_attrs doc)))
    (speaker_elems doc) (sub_elems doc) (speakercalibconfig doc) (subcalibconfig doc).

(** The first [n] speakers of [v] with gain [g], the others as they are. *)
Definition with_gain (g : R) (n : nat) (v : list spk_descriptor_t) : list spk_descriptor_t :=
  imap (fun k s => if decide (k < n)%nat then set_gain g s else s) v.

Definition reset_gains (m : meas_t) (a : spk_array_t) : spk_array_t :=
  mk_array (with_gain 1 (length (levels m)) (spk a))
           (with_gain 1 (length (sublevels m)) (subs a)).


(** The session after a successful [reset_levels]. *)
Definition reset_result (s : calibsession_t) : calibsession_t :=
  let f := flags s in
  let m := meas s in
  let sc := scene s in
  mk_session (mk_flags (gainmodified f) false (calibrated f) (calibrated_diff f))
    (startlevel s) (startdiffgain s) (delta s) (delta_diff s) (spkname s) (spk_file s)
    (par_speaker s) (par_sub s) (refport_ s) (calibfor s) (jackrec s)
    (mk_meas (levels m) (sublevels m)
       (replicate (length (levelsfrg m)) 0%R) (replicate (length (sublevelsfrg m)) 0%R)
       (lmin m) (lmax m) (lmean m) (fcomp_bb m) (fcomp_sub m)
       (vF m) (vFsub m) (vGains m) (vGainsSub m))
    (mk_scene (src_bb sc) (src_sub sc) (diff_mute sc)
       (set_spkpos (reset_gains m (spkpos (rec_nsp sc))) (rec_nsp sc))
       (set_spkpos (reset_gains m (spkpos (rec_spec sc))) (rec_spec sc))).


(** The mean-square values of the level meter summed over the measurement
    channels of a capture. *)
Definition ms_sum (recbuf : list wave_t) (nports : nat) (fs dur : R) (w : weight_t) : R :=
  fold_left (fun acc ch => (acc + levelmeter_ms fs dur w (take (S ch) recbuf))%R)
    (seq 0 (nports - 1)) 0%R.


(** The document that [saveas] writes, given the loaded document and the
    rewritten [speaker] and [sub] elements. *)
Definition saved_doc (s : calibsession_t) (now : string) (doc : xml_doc_t)
    (es eb : list attrs) : xml_doc_t :=
  let ra := root_attrs (with_levels s doc) in
  let d := mk_doc (root_name doc) ra es eb (speakercalibconfig doc) (subcalibconfig doc) in
  mk_doc (root_name doc)
    (<["calibfor" := AStr (calibfor s)]>
       (<["calibdate" := AStr now]>
          (<["checksum" := AUInt (get_spklayout_checksum d)]> ra)))
    es eb
    (save_xml (par_speaker s) (speakercalibconfig doc))
    (save_xml (par_sub s) (subcalibconfig doc)).


(** The attributes of the spec receiver element before the [calibfor]
    pairs are applied. *)
Definition spec_receiver_base (fname : string) : attrs :=
  <["layout" := AStr fname]> (<["mute" := AStr "true"]> {[ "name" := AStr "out2" ]}).

(** Setting the pairs [name:value] one after the other. *)
Definition apply_pairs (pairs : list (string * string)) (e : attrs) : attrs :=
  foldl (fun e p => <[p.1 := AStr p.2]> e) e pairs.


(** Number of captures that [get_levels] makes per speaker: one for the
    level, and one more for the frequency response unless the stage limit
    is 0. *)
Definition captures_per_speaker (calibpar : spk_eq_param_t) : nat :=
  if (max_eqstages calibpar =? 0)%Z then 1 else 2.


(** *** [spk_eq_param_t::read_xml] *)

(** [e.GET_ATTRIBUTE(x, ...)]: the attribute when the element has it, else
    the value that the variable holds.  The conversion of a value that is
    not a number is done by the attribute reader of TASCAR, outside
    calibsession.cc: [None]. *)
Definition get_attribute (e : attrs) (key : string) (cur : R) : option R :=
  match e !! key with
  | None => Some cur
  | Some (ANum x) => Some x
  | Some _ => None
  end.

(** [xml.find_or_add_child(issub ? "subcalibconfig" : "speakercalibconfig")] *)
Definition calib_child (par : spk_eq_param_t) (doc : xml_doc_t) : attrs :=
  default ∅ (if issub par then subcalibconfig doc else speakercalibconfig doc).
Definition set_calib_child (par : spk_eq_param_t) (e : attrs) (doc : xml_doc_t) : xml_doc_t :=
  if issub par then
    mk_doc (root_name doc) (root_attrs doc) (speaker_elems doc) (sub_elems doc)
      (speakercalibconfig doc) (Some e)
  else
    mk_doc (root_name doc) (root_attrs doc) (speaker_elems doc) (sub_elems doc)
      (Some e) (subcalibconfig doc).

(** [read_xml(layoutnode)]: the parameters after the call, and the
    document, to which the child has been added when it was missing. *)
Definition read_xml (par : spk_eq_param_t) (doc : xml_doc_t)
  : option (spk_eq_param_t * xml_doc_t) :=
  let e := calib_child par doc in
  fmin' ← get_attribute e "fmin" (fmin par);
  fmax' ← get_attribute e "fmax" (fmax par);
  duration' ← get_attribute e "duration" (duration par);
  prewait' ← get_attribute e "prewait" (prewait par);
  reflevel' ← get_attribute e "reflevel" (reflevel par);
  bandsperoctave' ← get_attribute e "bandsperoctave" (bandsperoctave par);
  bandoverlap' ← get_attribute e "bandoverlap" (bandoverlap par);
  Some (mk_par (issub par) fmin' fmax' duration' prewait' reflevel' bandsperoctave'
          bandoverlap' (max_eqstages par),
        set_calib_child par e doc).

(** The parameters [par] with the seven saved values of [saved]. *)
Definition with_saved_values (saved par : spk_eq_param_t) : spk_eq_param_t :=
  mk_par (issub par) (fmin saved) (fmax saved) (duration saved) (prewait saved)
    (reflevel saved) (bandsperoctave saved) (bandoverlap saved) (max_eqstages par).


(** ** Example data *)

(** A two-speaker layout without subwoofers, gains 1, and a session that
    has recorded the levels 70 dB and 72 dB for it. *)
Definition example_speaker : spk_descriptor_t := mk_spk front 1 pareq_default [] [] 0.
Definition example_array : spk_array_t := mk_array [example_speaker; example_speaker] [].
Definition example_par : spk_eq_param_t := mk_par false 62.5 4000 1 0.125 70 3 2 2.
Definition example_sub_par : spk_eq_param_t := mk_par true 31.25 62.5 4 0.125 70 3 2 2.
Definition example_meas : meas_t :=
  mk_meas [70; 72] [] [0; 0] [] 70 72 71 0 0 [] [] [] [].
Definition example_scene : scene_t :=
  mk_scene (mk_src true front) (mk_src true front) true
    (mk_rec false 1 1 example_array) (mk_rec true 1 1 example_array).
Definition example_session : calibsession_t :=
  mk_session (mk_flags true true true false) 0 0 0 0 "layout.spk"
    [example_speaker; example_speaker] example_par example_sub_par ["system:capture_1"]
    "type:nsp" (mk_jackrec 44100 0) example_meas example_scene.

Definition example_layout (root : string) (ra : attrs) : xml_doc_t :=
  mk_doc root ra [∅; ∅] [] None None.
Definition example_files (root : string) (ra : attrs) : files :=
  {[ "layout.spk" := example_layout root ra ]}.

(** Buffers with four bands: a buffer is given by its four band levels. *)
Definition example_wave : Type := (R * R * R * R)%type.
Definition example_bandlevels (w : example_wave) (_ _ _ _ _ : R) : list R * list R :=
  let '(a, b, c, d) := w in ([125; 250; 500; 1000], [a; b; c; d]).
(** Every capture: one measurement channel, 10 dB louder in the second
    band, and a flat reference channel. *)
Definition example_capture (_ : nat) : list example_wave :=
  [(0, 10, 0, 0); (0, 0, 0, 0)].


(** A level meter that reads a mean square of 1 after every update. *)
Definition example_levelmeter (_ _ : R) (_ : weight_t) (_ : list example_wave) : R := 1.

(** The example session without a measurement port; with a layout of one
    subwoofer and no broadband speaker; and with three recorded levels for
    its two speakers. *)
Definition example_session_no_port : calibsession_t :=
  mk_session (mk_flags true true true false) 0 0 0 0 "layout.spk"
    [example_speaker; example_speaker] example_par example_sub_par []
    "type:nsp" (mk_jackrec 44100 0) example_meas example_scene.
Definition example_session_subs_only : calibsession_t :=
  set_scene
    (mk_scene (mk_src true front) (mk_src true front) true
       (mk_rec false 1 1 (mk_array [] [example_speaker]))
       (mk_rec true 1 1 (mk_array [] [example_speaker])))
    example_session.
Definition example_session_three_levels : calibsession_t :=
  set_meas (mk_meas [70; 72; 74] [] [0; 0; 0] [] 70 74 72 0 0 [] [] [] []) example_session.


(** * Properties *)

(** ** [string_token] *)

Lemma prefix_length (d s : string) :
  String.prefix d s = true -> (String.length d <= String.length s)%nat.
Proof.
  revert s. induction d as [|c d IH]; intros [|c' s]; simpl; try lia; try discriminate.
  destruct (Ascii.ascii_dec c c'); [|discriminate].
  intros H. apply IH in H. lia.
Qed.

Lemma index_bound (d s : string) (pos : nat) :
  String.index 0 d s = Some pos -> (pos + String.length d <= String.length s)%nat.
Proof.
  revert pos. induction s as [|c s IH]; intros pos; cbn [String.index String.length].
  - destruct d; [|discriminate]. intros [= <-]. simpl. lia.
  - destruct (String.prefix d (String c s)) eqn:Hp.
    + intros [= <-]. apply prefix_length in Hp. simpl in *. lia.
    + destruct (String.index 0 d s) as [n|]; [|discriminate].
      intros [= <-]. specialize (IH n eq_refl). lia.
Qed.

Lemma erase_front_length (n : nat) (s : string) :
  String.length (Token.erase_front n s) = (String.length s - n)%nat.
Proof.
  revert s. induction n as [|n IH]; intros [|c s]; simpl; try lia. apply IH.
Qed.

Lemma string_token_loop_terminates (d : string) :
  d <> EmptyString ->
  forall fuel s rv, (String.length s <= fuel)%nat ->
    exists l, Token.string_token_loop fuel s d rv = Some l.
Proof.
  intros Hd. induction fuel as [|fuel IH]; intros s rv Hlen.
  - destruct s; [|simpl in Hlen; lia]. simpl.
    destruct d; [congruence|]. eauto.
  - simpl. destruct (String.index 0 d s) as [pos|] eqn:Hi; [|eauto].
    apply IH. rewrite erase_front_length. apply index_bound in Hi.
    destruct d; [congruence|]. simpl in *. lia.
Qed.

(** The loop of [string_token] ends for every nonempty delimiter. *)
Lemma string_token_terminates (s d : string) :
  d <> EmptyString -> exists l, Token.string_token s d = Some l.
Proof.
  intros Hd. apply string_token_loop_terminates; [exact Hd | lia].
Qed.

Example string_token_ex1 :
  Token.string_token "type:nsp,order:3" "," = Some ["type:nsp"; "order:3"].
Proof. reflexivity. Qed.

Example string_token_ex2 : Token.string_token "order:3" ":" = Some ["order"; "3"].
Proof. reflexivity. Qed.

Example string_token_ex3 : Token.string_token "badtoken" ":" = Some ["badtoken"].
Proof. reflexivity. Qed.

Example string_token_ex4 : Token.string_token "a:b:c" ":" = Some ["a"; "b"; "c"].
Proof. reflexivity. Qed.

(** ** The [calibfor] grammar (construction) *)

Lemma tokens_of_colon (t : string) : exists l, tokens_of t ":" = Ok l.
Proof.
  destruct (string_token_terminates t ":") as [l Hl]; [discriminate|].
  exists l. unfold tokens_of. now rewrite Hl.
Qed.

Lemma set_calibfor_attributes_throw (cf : string) (l : list string) (e : attrs) :
  (exists t, t ∈ l /\ ~ splits_in_two t) ->
  set_calibfor_attributes cf l e = Throw (calibfor_error cf).
Proof.
  revert e. induction l as [|t0 l IH]; intros e [t [Hin Hbad]].
  - inversion Hin.
  - cbn [set_calibfor_attributes].
    destruct (tokens_of_colon t0) as [pair Hpair]. rewrite Hpair. cbn.
    destruct pair as [|name [|value [|x pair]]]; try reflexivity.
    apply IH. exists t. split; [|exact Hbad].
    apply elem_of_cons in Hin as [->|Hin]; [|exact Hin].
    exfalso. apply Hbad. exists name, value.
    unfold tokens_of in Hpair.
    destruct (Token.string_token t0 ":"); [congruence|discriminate].
Qed.

Lemma set_calibfor_attributes_ok (cf : string) (l : list string) (e : attrs) :
  (forall t, t ∈ l -> splits_in_two t) ->
  exists e', set_calibfor_attributes cf l e = Ok e'.
Proof.
  revert e. induction l as [|t0 l IH]; intros e Hall.
  - eexists. reflexivity.
  - cbn [set_calibfor_attributes].
    destruct (Hall t0) as (name & value & Hs); [left|].
    unfold tokens_of. rewrite Hs. cbn.
    apply IH. intros t Ht. apply Hall. now right.
Qed.

(** C6.  With a nonempty [calibfor] attribute [cf] in the layout file, the
    scene construction splits [cf] at the commas; it throws the format
    error as soon as one of the tokens does not split at the colon into
    exactly two parts, and succeeds when all of them do.  In particular
    [type:nsp,order:3] is accepted and gives the attributes [type = nsp]
    and [order = 3] on the spec receiver element, and [badtoken] makes the
    construction throw. *)
Theorem calibfor_grammar (fs : files) (fname : string) (doc : xml_doc_t) (cf : string) :
  fs !! fname = Some doc ->
  root_attrs doc !! "calibfor" = Some (AStr cf) ->
  cf <> EmptyString ->
  exists toks, Token.string_token cf "," = Some toks /\
    ((exists t, t ∈ toks /\ ~ splits_in_two t) ->
       build_scene fs fname = Throw (calibfor_error cf)) /\
    ((forall t, t ∈ toks -> splits_in_two t) ->
       exists sx, build_scene fs fname = Ok (cf, sx)) /\
    (cf = "type:nsp,order:3" ->
       exists sx, build_scene fs fname = Ok (cf, sx) /\
         e_rcvr2 sx !! "type" = Some (AStr "nsp") /\
         e_rcvr2 sx !! "order" = Some (AStr "3")) /\
    (cf = "badtoken" -> build_scene fs fname = Throw (calibfor_error cf)).
Proof.
  intros Hfs Hattr Hne.
  destruct (string_token_terminates cf ",") as [toks Htoks]; [discriminate|].
  assert (Hb : build_scene fs fname =
             (e2 ← set_calibfor_attributes cf toks
                     (<["layout" := AStr fname]>
                        (<["mute" := AStr "true"]> {[ "name" := AStr "out2" ]}));
              Ok (cf, mk_scene_xml {[ "name" := AStr "calib" ]} {[ "mute" := AStr "true" ]}
                        (<["mute" := AStr "true"]> {[ "name" := AStr "srcsub" ]})
                        (<["layout" := AStr fname]> {[ "type" := AStr "nsp" ]})
                        e2
                        (<["name" := AStr "ref"]> {[ "type" := AStr "omni" ]})
                        {[ "mute" := AStr "true" ]}))).
  { unfold build_scene, get_calibfor, load_file. rewrite Hfs. cbn.
    rewrite Hattr. cbn.
    destruct (String.eqb_spec cf EmptyString) as [->|_]; [congruence|].
    unfold tokens_of. rewrite Htoks. reflexivity. }
  exists toks. split; [exact Htoks|]. split; [|split; [|split]].
  - intros Hbad. rewrite Hb, (set_calibfor_attributes_throw _ _ _ Hbad). reflexivity.
  - intros Hall. rewrite Hb.
    destruct (set_calibfor_attributes_ok cf toks
                (<["layout" := AStr fname]>
                   (<["mute" := AStr "true"]> {[ "name" := AStr "out2" ]})) Hall) as [e' He'].
    rewrite He'. eexists. reflexivity.
  - intros ->. rewrite Hb. injection Htoks as <-. cbn.
    eexists. split; [reflexivity|]. cbn. split.
    + rewrite lookup_insert_ne by discriminate. apply lookup_insert_eq.
    + apply lookup_insert_eq.
  - intros ->. rewrite Hb. injection Htoks as <-. reflexivity.
Qed.

(** C10.  When the root element of the layout file has no [calibfor]
    attribute, [get_calibfor] returns the empty string, and the
    construction does not throw the format error: it parses the default
    [type:nsp] instead, so the spec receiver element gets [type = nsp]. *)
Theorem calibfor_default (fs : files) (fname : string) (doc : xml_doc_t) :
  fs !! fname = Some doc ->
  root_attrs doc !! "calibfor" = None ->
  get_calibfor fs fname = Ok EmptyString /\
  exists sx, build_scene fs fname = Ok ("type:nsp", sx) /\
    e_rcvr2 sx !! "type" = Some (AStr "nsp").
Proof.
  intros Hfs Hattr.
  assert (Hg : get_calibfor fs fname = Ok EmptyString).
  { unfold get_calibfor, load_file. rewrite Hfs. cbn. now rewrite Hattr. }
  split; [exact Hg|].
  unfold build_scene. rewrite Hg. cbn.
  eexists. split; [reflexivity|]. cbn. apply lookup_insert_eq.
Qed.

(** ** Powers of ten and decimal logarithms *)

Lemma ln10_pos : 0 < ln 10.
Proof. rewrite <- ln_1. apply ln_increasing; lra. Qed.

Lemma pow10_pos (x : R) : 0 < pow10 x.
Proof. unfold pow10, Rpower. apply exp_pos. Qed.

Lemma pow10_0 : pow10 0 = 1.
Proof. unfold pow10. apply Rpower_O. lra. Qed.

Lemma pow10_plus (x y : R) : pow10 (x + y) = pow10 x * pow10 y.
Proof. unfold pow10. apply Rpower_plus. Qed.

Lemma pow10_minus (x y : R) : pow10 (x - y) = pow10 x / pow10 y.
Proof.
  unfold pow10, Rminus, Rdiv. now rewrite Rpower_plus, Rpower_Ropp.
Qed.

Lemma pow10_le (x y : R) : x <= y -> pow10 x <= pow10 y.
Proof. intros H. unfold pow10. apply Rle_Rpower; lra. Qed.

Lemma pow10_lt (x y : R) : x < y -> pow10 x < pow10 y.
Proof. intros H. unfold pow10. apply Rpower_lt; lra. Qed.

Lemma log10_pow10 (x : R) : log10 (pow10 x) = x.
Proof.
  unfold log10, pow10. rewrite ln_Rpower. field.
  pose proof ln10_pos. lra.
Qed.

Lemma pow10_log10 (x : R) : 0 < x -> pow10 (log10 x) = x.
Proof.
  intros Hx. unfold log10, pow10, Rpower.
  replace (ln x / ln 10 * ln 10) with (ln x).
  - now apply exp_ln.
  - field. pose proof ln10_pos. lra.
Qed.

Lemma log10_1 : log10 1 = 0.
Proof. unfold log10. rewrite ln_1. lra. Qed.

Lemma log10_mult (a b : R) : 0 < a -> 0 < b -> log10 (a * b) = log10 a + log10 b.
Proof.
  intros Ha Hb. unfold log10. rewrite ln_mult by assumption. field.
  pose proof ln10_pos. lra.
Qed.

Lemma log10_div (a b : R) : 0 < a -> 0 < b -> log10 (a / b) = log10 a - log10 b.
Proof.
  intros Ha Hb. unfold log10.
  replace (a / b) with (a * / b) by reflexivity.
  rewrite ln_mult, ln_Rinv; auto using Rinv_0_lt_compat.
  field. pose proof ln10_pos. lra.
Qed.

Lemma log10_le (a b : R) : 0 < a -> a <= b -> log10 a <= log10 b.
Proof.
  intros Ha [Hlt| ->]; [|lra].
  unfold log10. pose proof ln10_pos.
  apply Rmult_le_compat_r; [left; now apply Rinv_0_lt_compat|].
  left. apply ln_increasing; assumption.
Qed.

Lemma log10_lt (a b : R) : 0 < a -> a < b -> log10 a < log10 b.
Proof.
  intros Ha Hlt. unfold log10. pose proof ln10_pos.
  apply Rmult_lt_compat_r; [now apply Rinv_0_lt_compat|].
  apply ln_increasing; assumption.
Qed.

(** ** Calibration level *)

Lemma inc_caliblevel_level (dl : R) (s : calibsession_t) :
  caliblevel (rec_spec (scene (inc_caliblevel dl s)))
  = f32 (2e-5 * pow10 (0.05 * (startlevel s + (delta s + dl)))).
Proof. reflexivity. Qed.

Lemma inc_caliblevel_delta (dl : R) (s : calibsession_t) :
  delta (inc_caliblevel dl s) = delta s + dl /\
  startlevel (inc_caliblevel dl s) = startlevel s.
Proof. split; reflexivity. Qed.

(** The level read back through a rounding with relative error [eps]. *)
Lemma caliblevel_readback (eps L r : R) :
  0 <= eps < 1 ->
  Rabs (r - 2e-5 * pow10 (0.05 * L)) <= eps * Rabs (2e-5 * pow10 (0.05 * L)) ->
  20 * log10 (1 - eps) <= 20 * log10 (r * 5e4) - L <= 20 * log10 (1 + eps).
Proof.
  intros Heps Hr.
  pose proof (pow10_pos (0.05 * L)) as HP.
  set (P := pow10 (0.05 * L)) in *.
  rewrite (Rabs_right (2e-5 * P)) in Hr by nra.
  assert (Hr' : - (eps * (2e-5 * P)) <= r - 2e-5 * P <= eps * (2e-5 * P)).
  { revert Hr. unfold Rabs. destruct (Rcase_abs (r - 2e-5 * P)); intros; nra. }
  clear Hr.
  assert (HL : L = 20 * log10 P).
  { unfold P. rewrite log10_pow10. lra. }
  assert (Hlo : (1 - eps) * P <= r * 5e4) by nra.
  assert (Hhi : r * 5e4 <= (1 + eps) * P) by nra.
  assert (Hpos : 0 < (1 - eps) * P) by nra.
  apply log10_le in Hlo; [|exact Hpos].
  apply log10_le in Hhi; [|nra].
  rewrite (log10_mult (1 - eps) P) in Hlo by lra.
  rewrite (log10_mult (1 + eps) P) in Hhi by lra.
  lra.
Qed.

(** C7.  Let the narrowing to [float] have relative error at most [eps].
    On a session whose accumulated delta is still 0, after
    [inc_caliblevel(d1)] and [inc_caliblevel(d2)] the receiver level is the
    rounded value of [2e-5 * 10^((startlevel + d1 + d2)/20)], and
    [get_caliblevel] returns [startlevel + d1 + d2] up to
    [20 log10 (1 - eps)] below and [20 log10 (1 + eps)] above; with an
    exact narrowing it returns [startlevel + d1 + d2] itself. *)
Theorem inc_caliblevel_roundtrip (eps : R) (s : calibsession_t) (d1 d2 : R) :
  0 <= eps < 1 ->
  (forall x, Rabs (f32 x - x) <= eps * Rabs x) ->
  delta s = 0 ->
  let s' := inc_caliblevel d2 (inc_caliblevel d1 s) in
  caliblevel (rec_spec (scene s'))
    = f32 (2e-5 * pow10 ((startlevel s + (d1 + d2)) / 20)) /\
  20 * log10 (1 - eps)
    <= get_caliblevel s' - (startlevel s + d1 + d2)
    <= 20 * log10 (1 + eps) /\
  (eps = 0 -> get_caliblevel s' = startlevel s + d1 + d2).
Proof.
  intros Heps Hf Hd s'.
  assert (Hlev : caliblevel (rec_spec (scene s'))
                 = f32 (2e-5 * pow10 (0.05 * (startlevel s + d1 + d2)))).
  { unfold s'. rewrite inc_caliblevel_level.
    destruct (inc_caliblevel_delta d1 s) as [-> ->]. rewrite Hd.
    do 3 f_equal. lra. }
  assert (Hb : 20 * log10 (1 - eps)
               <= get_caliblevel s' - (startlevel s + d1 + d2)
               <= 20 * log10 (1 + eps)).
  { unfold get_caliblevel. rewrite Hlev. apply caliblevel_readback; [exact Heps|].
    apply Hf. }
  split; [|split].
  - rewrite Hlev. do 3 f_equal. lra.
  - exact Hb.
  - intros ->. rewrite Rminus_0_r, Rplus_0_r, log10_1 in Hb. lra.
Qed.

(** ** Mute states *)

Ltac mute_cases s :=
  destruct s as [? ? ? ? ? ? ? ? ? ? ? ? ? [[[] ?] [[] ?] [] ? ?]].

(** [set_active] never has two stimuli unmuted, in none of its steps. *)
Lemma set_active_exclusive (b : bool) (s : calibsession_t) :
  at_most_one_stimulus s ->
  throughout at_most_one_stimulus (set_active_script b) s.
Proof.
  unfold throughout, at_most_one_stimulus. intros H.
  destruct b; mute_cases s; vm_compute in H |- *; repeat constructor; lia.
Qed.

(** [set_active_diff] never has two stimuli unmuted, in none of its steps. *)
Lemma set_active_diff_exclusive (b : bool) (s : calibsession_t) :
  at_most_one_stimulus s ->
  throughout at_most_one_stimulus (set_active_diff_script b) s.
Proof.
  unfold throughout, at_most_one_stimulus. intros H.
  destruct b; mute_cases s; vm_compute in H |- *; repeat constructor; lia.
Qed.

(** The phase switches of [get_levels] keep the stimuli exclusive when the
    diffuse field is muted on entry. *)
Lemma get_levels_exclusive_if_diffuse_muted (s : calibsession_t) :
  diff_mute (scene s) = true ->
  throughout at_most_one_stimulus (get_levels_script s) s.
Proof.
  unfold throughout, at_most_one_stimulus, get_levels_script. intros H.
  destruct (has_subs s); mute_cases s; try discriminate H;
    vm_compute; repeat constructor; lia.
Qed.

(** After [set_active(true)] the broadband source alone is unmuted, after
    [set_active_diff(true)] the diffuse field alone. *)
Lemma set_active_true_state (s : calibsession_t) :
  let s' := set_active true s in
  src_mute (src_bb (scene s')) = false /\ src_mute (src_sub (scene s')) = true /\
  diff_mute (scene s') = true /\
  rec_mute (rec_nsp (scene s')) = true /\ rec_mute (rec_spec (scene s')) = false.
Proof. destruct s as [? ? ? ? ? ? ? ? ? ? ? ? ? [[] [] ? [] []]]. cbn. tauto. Qed.

Lemma set_active_diff_true_state (s : calibsession_t) :
  let s' := set_active_diff true s in
  src_mute (src_bb (scene s')) = true /\ src_mute (src_sub (scene s')) = true /\
  diff_mute (scene s') = false /\
  rec_mute (rec_nsp (scene s')) = true /\ rec_mute (rec_spec (scene s')) = false.
Proof. destruct s as [? ? ? ? ? ? ? ? ? ? ? ? ? [[] [] ? [] []]]. cbn. tauto. Qed.

(** C2 (fails on the code).  From a session with all stimuli muted,
    [set_active_diff(true)] followed by [get_levels] passes through a state
    in which the broadband source and the diffuse field are both unmuted:
    the broadband phase switch of [get_levels] mutes the subwoofer source
    and unmutes the broadband source, and leaves the diffuse field as it
    is.  This is the state in which the broadband measurement runs. *)
Theorem get_levels_leaves_diffuse_unmuted (s : calibsession_t) :
  src_mute (src_bb (scene s)) = true ->
  src_mute (src_sub (scene s)) = true ->
  diff_mute (scene s) = true ->
  let s' := run get_levels_phase_bb (set_active_diff true s) in
  s' ∈ mute_trace [op_set_active_diff true; op_get_levels] s /\
  src_mute (src_bb (scene s')) = false /\
  diff_mute (scene s') = false /\
  stimuli_unmuted s' = 2%nat.
Proof.
  intros H1 H2 H3 s'. split.
  - cbn [mute_trace op_script]. apply elem_of_app. right.
    rewrite app_nil_r. unfold get_levels_script.
    change (run (set_active_diff_script true) s) with (set_active_diff true s).
    set (t := set_active_diff true s).
    cbn [get_levels_phase_bb app states_of].
    do 3 right. left.
  - subst s'. mute_cases s; cbn in *; try discriminate. auto.
Qed.

(** ** Index loops *)

Lemma for_index_S {S} (n : nat) (body : nat -> S -> outcome S) (s : S) :
  for_index (Datatypes.S n) body s = for_index n body s ≫= body n.
Proof.
  unfold for_index. rewrite seq_S, fold_left_app. reflexivity.
Qed.

Lemma for_index_ext {S} (n : nat) (body body' : nat -> S -> outcome S) (s : S) :
  (forall k t, (k < n)%nat -> body k t = body' k t) ->
  for_index n body s = for_index n body' s.
Proof.
  induction n as [|n IH]; intros H; [reflexivity|].
  rewrite !for_index_S, IH by (intros; apply H; lia).
  destruct (for_index n body' s); cbn; try reflexivity. apply H. lia.
Qed.

(** A loop that rewrites [v[k]] for [k < n] succeeds when [n] is within the
    vector, and changes exactly these entries. *)
Lemma for_index_modify {A} (f : nat -> A -> A) (n : nat) (v : list A) :
  (n <= length v)%nat ->
  exists v', for_index n (fun k v => vec_modify k (f k) v) v = Ok v' /\
    length v' = length v /\
    forall k, v' !! k = if decide (k < n)%nat then f k <$> v !! k else v !! k.
Proof.
  induction n as [|n IH]; intros Hn.
  - exists v. split; [reflexivity|]. split; [reflexivity|].
    intros k. destruct (decide (k < 0)%nat); [lia|reflexivity].
  - destruct IH as (v' & Hv' & Hlen & Hlk); [lia|].
    destruct (lookup_lt_is_Some_2 v n) as [x Hx]; [lia|].
    assert (Hx' : v' !! n = Some x).
    { rewrite Hlk. destruct (decide (n < n)%nat); [lia|exact Hx]. }
    exists (<[n := f n x]> v'). rewrite for_index_S, Hv'. cbn.
    unfold vec_modify. rewrite Hx'. split; [reflexivity|].
    split; [now rewrite length_insert|].
    intros k. destruct (decide (k = n)) as [->|Hne].
    + rewrite list_lookup_insert_eq by lia.
      destruct (decide (n < S n)%nat); [|lia]. now rewrite Hx.
    + rewrite list_lookup_insert_ne by congruence. rewrite Hlk.
      destruct (decide (k < n)%nat), (decide (k < S n)%nat); try lia; reflexivity.
Qed.

(** Out of range the loop has undefined behaviour. *)
Lemma for_index_modify_undefined {A} (f : nat -> A -> A) (n : nat) (v : list A) :
  (length v < n)%nat ->
  for_index n (fun k v => vec_modify k (f k) v) v = Undefined.
Proof.
  induction n as [|n IH]; intros Hn; [lia|].
  rewrite for_index_S.
  destruct (decide (length v < n)%nat) as [Hlt|Hge].
  - now rewrite IH.
  - destruct (for_index_modify f n v) as (v' & -> & Hlen & Hlk); [lia|].
    cbn. unfold vec_modify.
    rewrite (lookup_ge_None_2 v' n) by lia. reflexivity.
Qed.

(** The same for a body that first reads [aux[k]]. *)
Lemma for_index_modify_with {A B} (g : B -> A -> A) (aux : list B) (n : nat) (v : list A) :
  (n <= length aux)%nat -> (n <= length v)%nat ->
  exists v',
    for_index n (fun k v => x ← vec_at aux k; vec_modify k (g x) v) v = Ok v' /\
    length v' = length v /\
    forall k, v' !! k =
      match aux !! k with
      | Some x => if decide (k < n)%nat then g x <$> v !! k else v !! k
      | None => v !! k
      end.
Proof.
  intros Ha Hv.
  destruct aux as [|b0 aux'] eqn:Eaux.
  - assert (n = 0%nat) as -> by (simpl in Ha; lia).
    exists v. split; [reflexivity|]. split; [reflexivity|]. intros k. reflexivity.
  - rewrite <- Eaux in *. clear Eaux aux'.
    destruct (for_index_modify (fun k => g (nth k aux b0)) n v Hv) as (v' & Hv' & Hlen & Hlk).
    exists v'. split; [|split; [exact Hlen|]].
    + rewrite <- Hv'. apply for_index_ext. intros k t Hk.
      unfold vec_at.
      destruct (lookup_lt_is_Some_2 aux k) as [x Hx]; [lia|]. rewrite Hx. cbn.
      f_equal. symmetry. f_equal. apply nth_lookup_Some with (d := b0) in Hx. exact Hx.
    + intros k. rewrite Hlk. destruct (aux !! k) as [x|] eqn:Hx.
      * apply nth_lookup_Some with (d := b0) in Hx. now rewrite Hx.
      * apply lookup_ge_None in Hx.
        destruct (decide (k < n)%nat); [lia|reflexivity].
Qed.

(** ** Gain update *)

Lemma fold_min_spec (l : list R) (a : R) :
  let r := fold_left (fun lmin x => fmin2 x lmin) l a in
  r <= a /\ (forall x, x ∈ l -> r <= x) /\ (r = a \/ r ∈ l).
Proof.
  revert a. induction l as [|y l IH]; intros a; cbn.
  - split; [lra|]. split; [|now left]. intros x Hx. inversion Hx.
  - destruct (IH (fmin2 y a)) as (H1 & H2 & H3). unfold fmin2 in *.
    pose proof (Rmin_l y a). pose proof (Rmin_r y a).
    split; [lra|]. split.
    + intros x Hx. apply elem_of_cons in Hx as [->|Hx]; [lra|now apply H2].
    + destruct H3 as [H3|H3]; [|right; now right].
      rewrite H3. unfold Rmin. destruct (Rle_dec y a); [right; now left|now left].
Qed.

Lemma level_min_spec (levels : list R) (lmin : R) :
  level_min levels = Ok lmin ->
  lmin ∈ levels /\ forall L, L ∈ levels -> lmin <= L.
Proof.
  destruct levels as [|l0 levels]; [discriminate|].
  intros H.
  assert (E : lmin = fold_left (fun lmin x => fmin2 x lmin) (l0 :: levels) l0).
  { unfold level_min, vec_at in H. cbn in H. injection H as <-. reflexivity. }
  destruct (fold_min_spec (l0 :: levels) l0) as (H1 & H2 & H3).
  rewrite <- E in *.
  split; [|exact H2]. destruct H3 as [->|H3]; [now left|exact H3].
Qed.

Lemma level_min_total (levels : list R) :
  levels <> [] -> exists lmin, level_min levels = Ok lmin.
Proof.
  destruct levels as [|l0 levels]; [congruence|]. intros _. eexists. reflexivity.
Qed.

Lemma max_gain_spec (n : nat) (v : list spk_descriptor_t) :
  (n <= length v)%nat ->
  exists m, max_gain n v = Ok m /\ 0 <= m /\
    (forall k s, (k < n)%nat -> v !! k = Some s -> gain s <= m) /\
    (m = 0 \/ exists k s, (k < n)%nat /\ v !! k = Some s /\ gain s = m).
Proof.
  unfold max_gain. induction n as [|n IH]; intros Hn.
  - exists 0. split; [reflexivity|]. split; [lra|]. split; [intros; lia|now left].
  - destruct IH as (m & Hm & Hpos & Hub & Hmax); [lia|].
    destruct (lookup_lt_is_Some_2 v n) as [x Hx]; [lia|].
    exists (fmax2 m (gain x)). rewrite for_index_S, Hm. cbn.
    unfold vec_at. rewrite Hx. cbn. split; [reflexivity|].
    unfold fmax2. pose proof (Rmax_l m (gain x)). pose proof (Rmax_r m (gain x)).
    split; [lra|]. split.
    + intros k s Hk Hs. destruct (decide (k = n)) as [->|Hne].
      * rewrite Hx in Hs. injection Hs as <-. lra.
      * specialize (Hub k s ltac:(lia) Hs). lra.
    + unfold Rmax. destruct (Rle_dec m (gain x)).
      * right. exists n, x. repeat split; [lia|exact Hx].
      * destruct Hmax as [->|(k & s & Hk & Hs & Hg)]; [now left|].
        right. exists k, s. repeat split; [lia|exact Hs|exact Hg].
Qed.

Lemma scale_gains_spec (lmin : R) (levels : list R) (v : list spk_descriptor_t) :
  length v = length levels ->
  exists v1, scale_gains lmin levels v = Ok v1 /\ length v1 = length v /\
    gains v1 = zip_with (fun g L => g * pow10 (0.05 * (lmin - L))) (gains v) levels.
Proof.
  intros Hlen. unfold scale_gains.
  destruct (for_index_modify_with
              (fun L s => set_gain (gain s * pow10 (0.05 * (lmin - L))) s)
              levels (length levels) v) as (v1 & Hv1 & Hl1 & Hlk); [lia|lia|].
  exists v1. split; [exact Hv1|]. split; [exact Hl1|].
  apply list_eq. intros k. unfold gains.
  rewrite list_lookup_fmap, Hlk, lookup_zip_with, list_lookup_fmap.
  destruct (levels !! k) as [L|] eqn:HL.
  - apply lookup_lt_Some in HL as HL'.
    destruct (decide (k < length levels)%nat); [|lia].
    destruct (v !! k) as [s|]; reflexivity.
  - apply lookup_ge_None in HL.
    rewrite (lookup_ge_None_2 v k) by lia. reflexivity.
Qed.

Lemma divide_gains_spec (lmax : R) (v : list spk_descriptor_t) :
  exists v2, divide_gains (length v) lmax v = Ok v2 /\ length v2 = length v /\
    gains v2 = (fun g => g / lmax) <$> gains v.
Proof.
  unfold divide_gains.
  destruct (for_index_modify (fun _ s => set_gain (gain s / lmax) s) (length v) v)
    as (v2 & Hv2 & Hl2 & Hlk); [lia|].
  exists v2. split; [exact Hv2|]. split; [exact Hl2|].
  apply list_eq. intros k. unfold gains.
  rewrite !list_lookup_fmap, Hlk.
  destruct (decide (k < length v)%nat) as [Hk|Hk].
  - destruct (v !! k); reflexivity.
  - rewrite (lookup_ge_None_2 v k) by lia. reflexivity.
Qed.

Lemma unit_gains_scaled (lmin : R) (levels : list R) (gs : list R) :
  length gs = length levels ->
  (forall g, g ∈ gs -> g = 1) ->
  zip_with (fun g L => g * pow10 (0.05 * (lmin - L))) gs levels
  = (fun L => pow10 ((lmin - L) / 20)) <$> levels.
Proof.
  intros Hlen Hone. apply list_eq. intros k.
  rewrite lookup_zip_with, list_lookup_fmap.
  destruct (levels !! k) as [L|] eqn:HL.
  - destruct (lookup_lt_is_Some_2 gs k) as [g Hg].
    { apply lookup_lt_Some in HL. lia. }
    rewrite Hg. cbn. rewrite (Hone g) by (eapply list_elem_of_lookup_2; eauto).
    f_equal. rewrite Rmult_1_l. f_equal. lra.
  - destruct (gs !! k); reflexivity.
Qed.

(** C1.  For measured levels with minimum [lmin] and a speaker array of
    matching size whose gains are all 1, the gain update of [get_levels]
    succeeds; its first pass leaves the broadband gain [k] at
    [10^((lmin - L_k)/20)] and the subwoofer gain [k] at
    [10^((lmin - sublevel_k)/20)]; its second pass divides all of them by
    the maximum [m] of the broadband gains of the first pass.  Afterwards
    the maximum broadband gain is exactly 1, and the ratio of the
    broadband gains [k] and [j] is [10^((L_j - L_k)/20)]. *)
Theorem gain_update_normalizes (levels sublevels : list R) (lmin : R) (a : spk_array_t) :
  level_min levels = Ok lmin ->
  length (spk a) = length levels ->
  length (subs a) = length sublevels ->
  (forall g, g ∈ gains (spk a) -> g = 1) ->
  (forall g, g ∈ gains (subs a) -> g = 1) ->
  exists v1 w1 m a',
    scale_gains lmin levels (spk a) = Ok v1 /\
    scale_gains lmin sublevels (subs a) = Ok w1 /\
    gains v1 = (fun L => pow10 ((lmin - L) / 20)) <$> levels /\
    gains w1 = (fun L => pow10 ((lmin - L) / 20)) <$> sublevels /\
    max_gain (length levels) v1 = Ok m /\
    m ∈ gains v1 /\ (forall g, g ∈ gains v1 -> g <= m) /\
    update_gains lmin levels sublevels a = Ok a' /\
    gains (spk a') = (fun g => g / m) <$> gains v1 /\
    gains (subs a') = (fun g => g / m) <$> gains w1 /\
    1 ∈ gains (spk a') /\
    (forall g, g ∈ gains (spk a') -> g <= 1) /\
    (forall j k Lj Lk gj gk,
        levels !! j = Some Lj -> levels !! k = Some Lk ->
        gains (spk a') !! j = Some gj -> gains (spk a') !! k = Some gk ->
        gk / gj = pow10 ((Lj - Lk) / 20)).
Proof.
  intros Hmin Hlv Hlw Hv1 Hw1.
  apply level_min_spec in Hmin as [Hin Hle].
  destruct (scale_gains_spec lmin levels (spk a) Hlv) as (v1 & Hs1 & Hl1 & Hg1).
  destruct (scale_gains_spec lmin sublevels (subs a) Hlw) as (w1 & Hs2 & Hl2 & Hg2).
  rewrite unit_gains_scaled in Hg1 by (unfold gains; rewrite ?length_fmap; auto).
  rewrite unit_gains_scaled in Hg2 by (unfold gains; rewrite ?length_fmap; auto).
  (* every gain of the first pass is at most 1, and one of them is 1 *)
  assert (Hub : forall g, g ∈ gains v1 -> g <= 1).
  { intros g. rewrite Hg1. intros (L & -> & HL)%list_elem_of_fmap.
    rewrite <- pow10_0. apply pow10_le. specialize (Hle L HL). lra. }
  assert (Hone : 1 ∈ gains v1).
  { rewrite Hg1. apply list_elem_of_fmap. exists lmin. split; [|exact Hin].
    rewrite <- pow10_0. f_equal. lra. }
  destruct (max_gain_spec (length levels) v1) as (m & Hm & Hpos & Hmub & Hmex); [lia|].
  assert (Hm1 : m = 1).
  { apply Rle_antisym.
    - destruct Hmex as [->|(k & s & Hk & Hs & <-)]; [lra|].
      apply Hub. unfold gains. apply list_elem_of_fmap. exists s. split; [reflexivity|].
      eapply list_elem_of_lookup_2; eauto.
    - apply list_elem_of_fmap in Hone as (s & Hs1' & Hs).
      apply list_elem_of_lookup_1 in Hs as [k Hk].
      rewrite Hs1'. apply (Hmub k s); [|exact Hk].
      apply lookup_lt_Some in Hk. lia. }
  destruct (divide_gains_spec m v1) as (v2 & Hd1 & Hl3 & Hg3).
  destruct (divide_gains_spec m w1) as (w2 & Hd2 & Hl4 & Hg4).
  rewrite Hl1, Hlv in Hd1. rewrite Hl2, Hlw in Hd2.
  assert (Hfin : gains v2 = gains v1).
  { rewrite Hg3, Hm1. rewrite <- (list_fmap_id (gains v1)) at 2.
    apply list_fmap_ext. intros _ g _. cbn. field. }
  exists v1, w1, m, (mk_array v2 w2).
  split; [exact Hs1|]. split; [exact Hs2|]. split; [exact Hg1|]. split; [exact Hg2|].
  split; [exact Hm|]. split; [now rewrite Hm1|]. split; [now rewrite Hm1|].
  split.
  { unfold update_gains. rewrite Hs1. cbn. rewrite Hs2. cbn. rewrite Hm. cbn.
    rewrite Hd1. cbn. rewrite Hd2. reflexivity. }
  cbn [spk subs]. split; [exact Hg3|]. split; [exact Hg4|].
  rewrite Hfin. split; [exact Hone|]. split; [exact Hub|].
  intros j k Lj Lk gj gk HLj HLk. rewrite Hg1, !list_lookup_fmap, HLj, HLk. cbn.
  intros [= <-] [= <-]. rewrite <- pow10_minus. f_equal. lra.
Qed.

(** ** Lock-step of the nsp and the spec receiver *)

Lemma assign_gains_total (g : R) (v : list spk_descriptor_t) :
  exists v', assign_gains (length v) g v = Ok v' /\ length v' = length v.
Proof.
  unfold assign_gains.
  destruct (for_index_modify (fun _ => set_gain g) (length v) v) as (v' & H & Hl & _);
    [lia|eauto].
Qed.

Lemma reset_array_total (a : spk_array_t) :
  exists a', reset_array (length (spk a)) (length (subs a)) a = Ok a' /\
    length (spk a') = length (spk a) /\ length (subs a') = length (subs a).
Proof.
  unfold reset_array.
  destruct (assign_gains_total 1 (spk a)) as (v & -> & Hv).
  destruct (assign_gains_total 1 (subs a)) as (w & -> & Hw).
  cbn. eexists. split; [reflexivity|]. cbn. auto.
Qed.

Lemma update_gains_total (lmin : R) (levels sublevels : list R) (a : spk_array_t) :
  length (spk a) = length levels ->
  length (subs a) = length sublevels ->
  exists a', update_gains lmin levels sublevels a = Ok a' /\
    length (spk a') = length (spk a) /\ length (subs a') = length (subs a).
Proof.
  intros Hv Hw. unfold update_gains.
  destruct (scale_gains_spec lmin levels (spk a) Hv) as (v1 & -> & Hl1 & _).
  destruct (scale_gains_spec lmin sublevels (subs a) Hw) as (w1 & -> & Hl2 & _).
  cbn. destruct (max_gain_spec (length levels) v1) as (m & -> & _); [lia|].
  cbn. destruct (divide_gains_spec m v1) as (v2 & Hd1 & Hl3 & _).
  destruct (divide_gains_spec m w1) as (w2 & Hd2 & Hl4 & _).
  rewrite Hl1, Hv in Hd1. rewrite Hl2, Hw in Hd2. rewrite Hd1. cbn. rewrite Hd2. cbn.
  eexists. split; [reflexivity|]. cbn. split; congruence.
Qed.

Lemma update_eqs_bb_total (fcomp : Z) (vF : list R) (vGains : list (list R)) (fs : R)
    (k : nat) (v : list spk_descriptor_t) :
  (fcomp <> 0%Z -> (k + length v <= length vGains)%nat) ->
  exists v', update_eqs fcomp vF vGains fs S k v = Ok v' /\ length v' = length v.
Proof.
  revert k. induction v as [|s v IH]; intros k H; [eexists; split; reflexivity|].
  cbn [update_eqs]. unfold update_eq.
  destruct (IH (S k)) as (v' & Hv' & Hl).
  { intros Hf. specialize (H Hf). cbn in H. lia. }
  destruct (Z.eqb_spec fcomp 0) as [Hz|Hz].
  - cbn. rewrite Hv'. cbn. eexists. split; [reflexivity|]. cbn. lia.
  - destruct (lookup_lt_is_Some_2 vGains k) as [g Hg].
    { specialize (H Hz). cbn in H. lia. }
    unfold vec_at. rewrite Hg. cbn. rewrite Hv'. cbn.
    eexists. split; [reflexivity|]. cbn. lia.
Qed.

Lemma update_eqs_sub_total (fcomp : Z) (vF : list R) (vGains : list (list R)) (fs : R)
    (v : list spk_descriptor_t) :
  (fcomp <> 0%Z -> v <> [] -> vGains <> []) ->
  exists v', update_eqs fcomp vF vGains fs (fun k => k) 0%nat v = Ok v' /\
    length v' = length v.
Proof.
  intros H. induction v as [|s v IH]; [eexists; split; reflexivity|].
  cbn [update_eqs]. unfold update_eq.
  assert (Hv : exists v', update_eqs fcomp vF vGains fs (fun k => k) 0%nat v = Ok v' /\
                 length v' = length v).
  { destruct v as [|s' v]; [eexists; split; reflexivity|].
    apply IH. intros Hf _. apply H; [exact Hf|discriminate]. }
  destruct Hv as (v' & Hv' & Hl).
  destruct (Z.eqb_spec fcomp 0) as [Hz|Hz].
  - cbn. rewrite Hv'. cbn. eexists. split; [reflexivity|]. cbn. lia.
  - destruct vGains as [|g vGains]; [exfalso; now apply (H Hz)|].
    cbn. rewrite Hv'. cbn. eexists. split; [reflexivity|]. cbn. lia.
Qed.

Lemma update_array_total (m : meas_t) (fs : R) (a : spk_array_t) :
  length (spk a) = length (levels m) ->
  length (subs a) = length (sublevels m) ->
  (fcomp_bb m <> 0%Z -> (length (levels m) <= length (vGains m))%nat) ->
  (fcomp_sub m <> 0%Z -> sublevels m <> [] -> vGainsSub m <> []) ->
  exists a', update_array m fs a = Ok a' /\
    length (spk a') = length (spk a) /\ length (subs a') = length (subs a).
Proof.
  intros Hv Hw Hbb Hsub. unfold update_array.
  destruct (update_gains_total (lmin m) (levels m) (sublevels m) a Hv Hw)
    as (a1 & -> & Hl1 & Hl2). cbn.
  destruct (update_eqs_bb_total (fcomp_bb m) (vF m) (vGains m) fs 0 (spk a1))
    as (v & -> & Hl3).
  { intros Hf. specialize (Hbb Hf). cbn. lia. }
  cbn.
  destruct (update_eqs_sub_total (fcomp_sub m) (vFsub m) (vGainsSub m) fs (subs a1))
    as (w & -> & Hl4).
  { intros Hf Hne. apply Hsub; [exact Hf|].
    intros E. apply Hne. apply length_zero_iff_nil.
    rewrite Hl2, Hw, E. reflexivity. }
  cbn. eexists. split; [reflexivity|]. cbn. split; congruence.
Qed.

Lemma for_both_inv (body : spk_array_t -> outcome spk_array_t) (sc sc' : scene_t) :
  spkpos (rec_nsp sc) = spkpos (rec_spec sc) ->
  for_both body sc = Ok sc' ->
  exists a', body (spkpos (rec_nsp sc)) = Ok a' /\
    sc' = mk_scene (src_bb sc) (src_sub sc) (diff_mute sc)
            (set_spkpos a' (rec_nsp sc)) (set_spkpos a' (rec_spec sc)).
Proof.
  intros Heq. unfold for_both. rewrite <- Heq.
  destruct (body (spkpos (rec_nsp sc))) as [a'| |]; cbn; try discriminate.
  intros [= <-]. eauto.
Qed.

Lemma for_both_equal (body : spk_array_t -> outcome spk_array_t) (sc : scene_t)
    (a' : spk_array_t) :
  spkpos (rec_nsp sc) = spkpos (rec_spec sc) ->
  body (spkpos (rec_nsp sc)) = Ok a' ->
  for_both body sc
  = Ok (mk_scene (src_bb sc) (src_sub sc) (diff_mute sc)
          (set_spkpos a' (rec_nsp sc)) (set_spkpos a' (rec_spec sc))).
Proof.
  intros Heq Hb. unfold for_both. rewrite <- Heq, Hb. reflexivity.
Qed.

(** Each operation writes the same values to both receivers. *)
Lemma apply_op_lockstep (o : calib_op) (s s' : calibsession_t) :
  lockstep s -> apply_op o s = Ok s' -> lockstep s'.
Proof.
  intros (Ha & Hc & Hd). destruct o; cbn [apply_op].
  - unfold reset_levels. cbn zeta.
    destruct (for_both _ _) as [sc'| |] eqn:E; cbn; try discriminate.
    intros [= <-]. apply for_both_inv in E as (a' & _ & ->); [|exact Ha].
    repeat split; cbn; assumption.
  - unfold get_levels_update.
    destruct (for_both _ _) as [sc'| |] eqn:E; cbn; try discriminate.
    intros [= <-]. apply for_both_inv in E as (a' & _ & ->); [|exact Ha].
    repeat split; cbn; assumption.
  - intros [= <-]. repeat split; cbn; assumption.
  - intros [= <-]. repeat split; cbn; assumption.
Qed.

(** Each operation is defined on a session of matching sizes, and keeps the
    sizes. *)
Lemma apply_op_sized (o : calib_op) (s : calibsession_t) :
  lockstep s -> sized s -> exists s', apply_op o s = Ok s' /\ sized s'.
Proof.
  intros (Ha & _) (H1 & H2 & H3 & H4 & H5 & H6). destruct o; cbn [apply_op].
  - unfold reset_levels. cbn zeta.
    destruct (reset_array_total (spkpos (rec_nsp (scene s)))) as (a' & Hr & Hl1 & Hl2).
    rewrite H1, H2 in Hr.
    erewrite for_both_equal; [|exact Ha|exact Hr]. cbn.
    eexists. split; [reflexivity|]. unfold sized. cbn.
    repeat split; try congruence; assumption.
  - unfold get_levels_update.
    destruct (update_array_total (meas s) (srate (jackrec s))
                (spkpos (rec_nsp (scene s))) H1 H2 H5 H6) as (a' & Hu & Hl1 & Hl2).
    erewrite for_both_equal; [|exact Ha|exact Hu]. cbn.
    eexists. split; [reflexivity|]. unfold sized. cbn.
    repeat split; try congruence; assumption.
  - eexists. split; [reflexivity|]. unfold sized. cbn. repeat split; assumption.
  - eexists. split; [reflexivity|]. unfold sized. cbn. repeat split; assumption.
Qed.

(** C9.  Let both receivers hold the same speaker array, calibration level
    and diffuse gain.  Then after any sequence of [reset_levels], the
    gain and equalizer update of [get_levels], [inc_caliblevel] and
    [inc_diffusegain] they still do; and when the speaker and subwoofer
    counts are the lengths of the level vectors, every such sequence runs
    to its end. *)
Theorem lockstep_preserved (ops : list calib_op) (s : calibsession_t) :
  lockstep s ->
  (forall s', apply_ops ops s = Ok s' -> lockstep s') /\
  (sized s -> exists s', apply_ops ops s = Ok s' /\ lockstep s' /\ sized s').
Proof.
  revert s. induction ops as [|o ops IH]; intros s Hl.
  - split.
    + intros s' [= <-]. exact Hl.
    + intros Hs. exists s. auto.
  - split.
    + intros s'. cbn [apply_ops].
      destruct (apply_op o s) as [s1| |] eqn:E; cbn; try discriminate.
      apply (IH s1). eapply apply_op_lockstep; eauto.
    + intros Hs. destruct (apply_op_sized o s Hl Hs) as (s1 & E & Hs1).
      cbn [apply_ops]. rewrite E. cbn.
      apply (IH s1); [eapply apply_op_lockstep; eauto|exact Hs1].
Qed.

(** ** Frequency response *)

Lemma add_into_spec (vL vLmean : list R) :
  length vL = length vLmean ->
  add_into vL vLmean = Ok (zip_with Rplus vLmean vL).
Proof.
  intros Hlen. unfold add_into.
  destruct (for_index_modify_with (fun l m => m + l) vL (length vL) vLmean)
    as (v' & -> & Hl & Hlk); [lia|lia|].
  f_equal. apply list_eq. intros k. rewrite Hlk, lookup_zip_with.
  destruct (vL !! k) as [x|] eqn:Hx.
  - apply lookup_lt_Some in Hx as Hk.
    destruct (decide (k < length vL)%nat); [|lia].
    destruct (vLmean !! k); reflexivity.
  - apply lookup_ge_None in Hx.
    rewrite (lookup_ge_None_2 vLmean k) by lia. reflexivity.
Qed.

Lemma accum_length (B : nat) (acc p : list R) :
  length p = B -> (acc = [] \/ length acc = B) -> length (accum acc p) = B.
Proof.
  intros Hp [->|Ha]; [exact Hp|].
  destruct acc; [exact Hp|]. unfold accum. rewrite length_zip_with. lia.
Qed.

Lemma fold_accum_length (B : nat) (ps : list (list R)) (acc : list R) :
  Forall (fun p => length p = B) ps -> (acc = [] \/ length acc = B) ->
  fold_left accum ps acc = [] \/ length (fold_left accum ps acc) = B.
Proof.
  revert acc. induction ps as [|p ps IH]; intros acc Hps Hacc; [exact Hacc|].
  cbn. apply IH; [now inversion Hps|]. right. apply accum_length; [|exact Hacc].
  now inversion Hps.
Qed.

(** The loop over the measurement channels leaves in [vLmean] the powers of
    the channels accumulated from the left. *)
Lemma channel_loop_spec (B : nat) (recbuf : list wave_t) (calibpar : spk_eq_param_t)
    (fs : R) (vF0 : list R) (n : nat) :
  (forall w, length (snd (bandlevels w calibpar fs)) = B) ->
  (n <= length recbuf)%nat ->
  exists vF,
    for_index n (accumulate_channel recbuf calibpar fs) (vF0, [])
    = Ok (vF, fold_left accum (powers calibpar fs <$> take n recbuf) []).
Proof.
  intros HB. induction n as [|n IH]; intros Hn.
  - exists vF0. reflexivity.
  - destruct IH as [vF IH]; [lia|].
    destruct (lookup_lt_is_Some_2 recbuf n) as [w Hw]; [lia|].
    rewrite for_index_S, IH. cbn [mbind outcome_bind].
    unfold accumulate_channel, vec_at. rewrite Hw. cbn [mbind outcome_bind snd].
    rewrite (take_S_r _ _ _ Hw), fmap_app, fold_left_app. cbn [fmap list_fmap fold_left].
    remember (fold_left accum (powers calibpar fs <$> take n recbuf) []) as acc eqn:Eacc.
    assert (Hacc : acc = [] \/ length acc = B).
    { subst acc. apply fold_accum_length; [|now left].
      apply Forall_fmap, Forall_forall. intros x _.
      unfold powers. cbn. rewrite length_fmap. apply HB. }
    clear Eacc IH. unfold powers.
    destruct (bandlevels w calibpar fs) as [vF' vL] eqn:Ebl. cbn [snd].
    assert (HvL : length vL = B) by (specialize (HB w); now rewrite Ebl in HB).
    exists vF'. destruct acc as [|a0 acc']; [reflexivity|].
    destruct Hacc as [|Hacc]; [discriminate|].
    rewrite add_into_spec by (rewrite length_fmap; congruence). reflexivity.
Qed.

Lemma to_power_length (L : list R) : length (to_power L) = length L.
Proof. unfold to_power. apply length_fmap. Qed.

Lemma lookup_nth_lt (l : list R) (k : nat) :
  (k < length l)%nat -> l !! k = Some (nth k l 0).
Proof.
  intros Hk. destruct (nth_lookup_or_length l k 0) as [H|H]; [exact H|lia].
Qed.

Lemma energy_sum_pos (Ls : list (list R)) (k : nat) : Ls <> [] -> 0 < energy_sum Ls k.
Proof.
  unfold energy_sum. destruct Ls as [|L Ls]; [congruence|]. intros _. cbn.
  assert (H : 0 <= foldr Rplus 0 ((fun L => pow10 (0.1 * nth k L 0)) <$> Ls)).
  { induction Ls as [|L' Ls IH]; cbn; [lra|].
    pose proof (pow10_pos (0.1 * nth k L' 0)). lra. }
  pose proof (pow10_pos (0.1 * nth k L 0)). lra.
Qed.

Lemma fold_accum_lookup (B : nat) (Ls : list (list R)) (acc : list R) (k : nat) (a : R) :
  Forall (fun L => length L = B) Ls ->
  length acc = B -> acc !! k = Some a ->
  fold_left accum (to_power <$> Ls) acc !! k
  = Some (a + energy_sum Ls k).
Proof.
  revert acc a. induction Ls as [|L Ls IH]; intros acc a HLs Hacc Ha.
  - cbn. rewrite Ha. f_equal. unfold energy_sum. cbn. lra.
  - inversion HLs as [|? ? HL HLs']; subst. cbn [fmap list_fmap fold_left].
    assert (HLk : L !! k = Some (nth k L 0)).
    { apply lookup_nth_lt. apply lookup_lt_Some in Ha. lia. }
    erewrite IH; [|exact HLs'| |].
    + f_equal. unfold energy_sum. cbn. rewrite Rplus_assoc. reflexivity.
    + apply accum_length; [now rewrite to_power_length|now right].
    + destruct acc as [|a0 acc]; [discriminate|]. unfold accum.
      unfold to_power. rewrite lookup_zip_with, Ha, list_lookup_fmap, HLk. reflexivity.
Qed.

(** After the channel loop, band [k] of [vLmean] holds the energy summed
    over the channels. *)
Lemma fold_accum_energy (B : nat) (Ls : list (list R)) :
  Ls <> [] -> Forall (fun L => length L = B) Ls ->
  fold_left accum (to_power <$> Ls) []
  = energy_sum Ls <$> seq 0 B.
Proof.
  intros Hne HLs. destruct Ls as [|L Ls]; [congruence|].
  inversion HLs as [|? ? HL HLs']; subst.
  cbn [fmap list_fmap fold_left accum].
  assert (Hlen : length (fold_left accum (to_power <$> Ls)
                          (to_power L)) = length L).
  { destruct (fold_accum_length (length L) (to_power <$> Ls)
                (to_power L)) as [E|E].
    - apply Forall_fmap. eapply Forall_impl; [exact HLs'|].
      intros x Hx. cbn. now rewrite to_power_length.
    - right. now rewrite to_power_length.
    - destruct L as [|l0 L]; [now rewrite E|].
      exfalso.
      assert (Hk : (to_power (l0 :: L)) !! 0%nat
                   = Some (pow10 (0.1 * l0))) by reflexivity.
      pose proof (fold_accum_lookup (length (l0 :: L)) Ls _ 0 _ HLs'
                    ltac:(now rewrite to_power_length) Hk) as Hc.
      rewrite E in Hc. discriminate.
    - exact E. }
  apply list_eq. intros k. rewrite list_lookup_fmap.
  destruct (decide (k < length L)%nat) as [Hk|Hk].
  - rewrite lookup_seq_lt by lia. cbn.
    assert (HLk : L !! k = Some (nth k L 0)) by (apply lookup_nth_lt; lia).
    erewrite fold_accum_lookup; [|exact HLs'|now rewrite to_power_length|].
    + f_equal.
    + unfold to_power. rewrite list_lookup_fmap, HLk. reflexivity.
  - rewrite lookup_seq_ge by lia. apply lookup_ge_None. lia.
Qed.

Lemma ref_minus_spec (vLref vLmean : list R) :
  length vLref = length vLmean ->
  ref_minus vLref vLmean = Ok (zip_with Rminus vLref vLmean).
Proof.
  intros Hlen. unfold ref_minus.
  destruct (for_index_modify_with (fun r m => r - m) vLref
              (Nat.min (length vLmean) (length vLref)) vLmean)
    as (v' & -> & Hl & Hlk); [lia|lia|].
  f_equal. apply list_eq. intros k. rewrite Hlk, lookup_zip_with.
  destruct (vLref !! k) as [x|] eqn:Hx.
  - apply lookup_lt_Some in Hx as Hk. cbn.
    destruct (decide (k < Nat.min (length vLmean) (length vLref))%nat); [|lia].
    destruct (vLmean !! k); reflexivity.
  - apply lookup_ge_None in Hx. cbn.
    rewrite (lookup_ge_None_2 vLmean k) by lia. reflexivity.
Qed.

Lemma fold_max_spec (l : list R) (a : R) :
  let r := fold_left fmax2 l a in
  a <= r /\ (forall x, x ∈ l -> x <= r) /\ (r = a \/ r ∈ l).
Proof.
  revert a. induction l as [|y l IH]; intros a; cbn.
  - split; [lra|]. split; [|now left]. intros x Hx. inversion Hx.
  - destruct (IH (fmax2 a y)) as (H1 & H2 & H3). unfold fmax2 in *.
    pose proof (Rmax_l a y). pose proof (Rmax_r a y).
    split; [lra|]. split.
    + intros x Hx. apply elem_of_cons in Hx as [->|Hx]; [lra|now apply H2].
    + destruct H3 as [H3|H3]; [|right; now right].
      rewrite H3. unfold Rmax. destruct (Rle_dec a y); [right; now left|now left].
Qed.

Lemma back_spec {A} (v : list A) : v <> [] -> exists x, back v = Ok x /\ x ∈ v.
Proof.
  intros Hne. unfold back. destruct (last v) as [x|] eqn:E.
  - exists x. split; [reflexivity|].
    rewrite last_lookup in E. eapply list_elem_of_lookup_2; eauto.
  - apply last_None in E. congruence.
Qed.

(** [vec_max] returns the maximum of a nonempty vector. *)
Lemma vec_max_spec (v : list R) :
  v <> [] -> exists m, vec_max v = Ok m /\ m ∈ v /\ forall x, x ∈ v -> x <= m.
Proof.
  intros Hne. destruct (back_spec v Hne) as (b & Hb & Hin).
  unfold vec_max. rewrite Hb. cbn.
  destruct (fold_max_spec v b) as (H1 & H2 & H3).
  eexists. split; [reflexivity|]. split; [|exact H2].
  destruct H3 as [->|H3]; assumption.
Qed.

Lemma mean_shift (S nch nbuf : R) :
  0 < S -> 0 < nch -> 0 < nbuf ->
  10 * log10 (S / nbuf) = 10 * log10 (S / nch) + 10 * log10 (nch / nbuf).
Proof.
  intros HS Hc Hb. rewrite !log10_div by assumption. lra.
Qed.

(** The band analysis of one capture: reference minus the channel average,
    up to the offset that comes from dividing by the number of buffers
    instead of the number of measurement channels. *)
Lemma relative_response_spec (B : nat) (recbuf : list wave_t) (nports : nat)
    (calibpar : spk_eq_param_t) (fs : R) (vF0 : list R) (ref : wave_t) :
  (forall w, length (snd (bandlevels w calibpar fs)) = B) ->
  length recbuf = nports -> (2 <= nports)%nat ->
  last recbuf = Some ref ->
  let chans := take (nports - 1) recbuf in
  let Ls := (fun w => snd (bandlevels w calibpar fs)) <$> chans in
  relative_response recbuf nports calibpar fs vF0
  = Ok (fst (bandlevels ref calibpar fs),
        (fun d => d - 10 * log10 (INR (length chans) / INR (length recbuf)))
          <$> reference_minus_measurement (snd (bandlevels ref calibpar fs)) Ls).
Proof.
  intros HB Hlen Hn Href chans Ls. unfold relative_response.
  destruct (channel_loop_spec B recbuf calibpar fs vF0 (nports - 1) HB) as [vF ->]; [lia|].
  cbn [mbind outcome_bind]. unfold back. rewrite Href. cbn [mbind outcome_bind].
  destruct (bandlevels ref calibpar fs) as [vFr vLref] eqn:Eref. cbn [fst snd].
  assert (HLref : length vLref = B) by (specialize (HB ref); now rewrite Eref in HB).
  assert (Hch : length chans = (nports - 1)%nat) by (unfold chans; rewrite length_take; lia).
  assert (HLs : Ls <> []).
  { intros E. apply (f_equal length) in E. unfold Ls in E.
    rewrite length_fmap, Hch in E. cbn in E. lia. }
  assert (Hsum : fold_left accum (powers calibpar fs <$> take (nports - 1) recbuf) []
                 = energy_sum Ls <$> seq 0 B).
  { rewrite <- (fold_accum_energy B Ls HLs).
    - unfold Ls, chans. rewrite <- list_fmap_compose. reflexivity.
    - unfold Ls. apply Forall_fmap, Forall_forall. intros w _. cbn. apply HB. }
  rewrite Hsum. unfold mean_to_dB.
  rewrite ref_minus_spec by (rewrite !length_fmap, length_seq; exact HLref).
  cbn [mbind outcome_bind]. do 2 f_equal.
  unfold reference_minus_measurement, mean_level_dB. rewrite HLref.
  apply list_eq. intros k.
  rewrite list_lookup_fmap, !lookup_zip_with, !list_lookup_fmap.
  destruct (vLref !! k) as [r|] eqn:Hr; [|reflexivity]. cbn.
  apply lookup_lt_Some in Hr. rewrite lookup_seq_lt by lia. cbn. f_equal.
  unfold float_of_size.
  rewrite (mean_shift (energy_sum Ls k) (INR (length Ls)) (INR (length recbuf))).
  - unfold Ls at 3. rewrite length_fmap. lra.
  - now apply energy_sum_pos.
  - apply lt_0_INR. unfold Ls. rewrite length_fmap. lia.
  - apply lt_0_INR. lia.
Qed.

Lemma reference_minus_measurement_length (vLref : list R) (Ls : list (list R)) :
  length (reference_minus_measurement vLref Ls) = length vLref.
Proof.
  unfold reference_minus_measurement, mean_level_dB.
  rewrite length_zip_with, length_fmap, length_seq. lia.
Qed.

(** The normalized curve of one capture: reference minus channel average,
    minus the maximum of that difference. *)
Lemma normalized_response_spec (B : nat) (recbuf : list wave_t) (nports : nat)
    (calibpar : spk_eq_param_t) (fs : R) (vF0 : list R) (ref : wave_t) :
  (forall w, length (snd (bandlevels w calibpar fs)) = B) ->
  (1 <= B)%nat ->
  length recbuf = nports -> (2 <= nports)%nat ->
  last recbuf = Some ref ->
  let Ls := (fun w => snd (bandlevels w calibpar fs)) <$> take (nports - 1) recbuf in
  let D := reference_minus_measurement (snd (bandlevels ref calibpar fs)) Ls in
  exists m, m ∈ D /\ (forall d, d ∈ D -> d <= m) /\
    normalized_response recbuf nports calibpar fs vF0
    = Ok (fst (bandlevels ref calibpar fs), (fun d => d - m) <$> D).
Proof.
  intros HB HB1 Hlen Hn Href Ls D. unfold normalized_response.
  rewrite (relative_response_spec B recbuf nports calibpar fs vF0 ref HB Hlen Hn Href).
  cbn [mbind outcome_bind]. fold Ls. fold D.
  set (c := 10 * log10 (INR (length (take (nports - 1) recbuf)) / INR (length recbuf))).
  assert (HD : (fun d => d - c) <$> D <> []).
  { intros E. apply (f_equal length) in E.
    rewrite length_fmap in E. unfold D in E.
    rewrite reference_minus_measurement_length, HB in E. cbn in E. lia. }
  destruct (vec_max_spec _ HD) as (mc & -> & Hin & Hub).
  cbn [mbind outcome_bind].
  exists (mc + c). split; [|split].
  - apply list_elem_of_fmap in Hin as (d & -> & Hd).
    replace (d - c + c) with d by lra. exact Hd.
  - intros d Hd.
    assert (d - c <= mc); [|lra].
    apply Hub. apply list_elem_of_fmap. eauto.
  - do 2 f_equal. rewrite <- list_fmap_compose.
    apply list_fmap_ext. intros _ d _. cbn. lra.
Qed.

Lemma fit_curve_nonpositive (calibpar : spk_eq_param_t) (fs : R) (chans : list wave_t)
    (ref : wave_t) (curve : list R) :
  is_fit_curve calibpar fs chans ref curve ->
  (forall x, x ∈ curve -> x <= 0) /\ (curve <> [] -> 0 ∈ curve).
Proof.
  intros (m & Hin & Hub & ->). split.
  - intros x (d & -> & Hd)%list_elem_of_fmap. specialize (Hub d Hd). lra.
  - intros _. apply list_elem_of_fmap. exists m. split; [lra|exact Hin].
Qed.

Lemma claimed_target_nonnegative (calibpar : spk_eq_param_t) (fs : R)
    (chans : list wave_t) (ref : wave_t) (target : list R) :
  is_claimed_target calibpar fs chans ref target ->
  forall x, x ∈ target -> 0 <= x.
Proof.
  intros (m & Hin & Hub & ->) x (d & -> & Hd)%list_elem_of_fmap.
  specialize (Hub d Hd). lra.
Qed.

(** What the loop body of [get_fresp_] does for one speaker. *)
Lemma fresp_speaker_spec (B nports : nat) (calibpar : spk_eq_param_t)
    (st : fresp_t) (s : spk_descriptor_t) :
  let recbuf := capture (ncaptures (fr_jackrec st)) in
  let fs := srate (fr_jackrec st) in
  (forall w, length (snd (bandlevels w calibpar fs)) = B) ->
  (1 <= B)%nat ->
  length recbuf = nports -> (2 <= nports)%nat ->
  exists ref curve st' s',
    last recbuf = Some ref /\
    fresp_speaker nports calibpar st s = Ok (st', s') /\
    is_fit_curve calibpar fs (take (nports - 1) recbuf) ref curve /\
    (forall x, x ∈ curve -> x <= 0) /\ 0 ∈ curve /\
    eqgain s' = curve /\
    eqfreq s' = fst (bandlevels ref calibpar fs) /\
    spk_eq s' = optim_response pareq_default (fr_numflt st')
                  (fst (bandlevels ref calibpar fs)) curve fs /\
    eqstages s' = fr_numflt st' /\
    fr_vF st' = fst (bandlevels ref calibpar fs) /\
    fr_vGain st' = fr_vGain st ++ [curve] /\
    fr_numflt st' =
      (if (fr_numflt st =? 0)%Z
       then stage_count (length (fst (bandlevels ref calibpar fs))) (max_eqstages calibpar)
       else fr_numflt st).
Proof.
  intros recbuf fs HB HB1 Hlen Hn.
  destruct (last recbuf) as [ref|] eqn:Href.
  2:{ apply last_None in Href. rewrite Href in Hlen. cbn in Hlen. lia. }
  destruct (normalized_response_spec B recbuf nports calibpar fs (fr_vF st) ref
              HB HB1 Hlen Hn Href) as (m & Hin & Hub & Hnr).
  set (D := reference_minus_measurement (snd (bandlevels ref calibpar fs))
              ((fun w => snd (bandlevels w calibpar fs)) <$> take (nports - 1) recbuf)) in *.
  assert (Hfit : is_fit_curve calibpar fs (take (nports - 1) recbuf) ref
                   ((fun d => d - m) <$> D)).
  { exists m. auto. }
  pose proof (fit_curve_nonpositive _ _ _ _ _ Hfit) as [Hle H0].
  exists ref, ((fun d => d - m) <$> D).
  unfold fresp_speaker, jackrec_rec. cbn [srate]. fold recbuf. fold fs.
  rewrite Hnr. cbn [mbind outcome_bind].
  do 2 eexists. split; [reflexivity|]. split; [reflexivity|].
  split; [exact Hfit|]. split; [exact Hle|]. split.
  { apply H0. intros E. apply (f_equal length) in E.
    rewrite length_fmap in E. unfold D in E.
    rewrite reference_minus_measurement_length, HB in E. cbn in E. lia. }
  cbn. repeat split; reflexivity.
Qed.

(** ** Equalizer stage count *)

Lemma stage_count_in_range (B : nat) (M : Z) :
  (1 <= B)%nat -> (Z.of_nat B < 2 ^ 32)%Z ->
  stage_count B M = Z.min ((Z.of_nat B - 1) / 3) M.
Proof.
  intros H1 H2. unfold stage_count, u32.
  rewrite (Z.mod_small (Z.of_nat B)) by lia.
  rewrite (Z.mod_small (Z.of_nat B - 1)) by lia. reflexivity.
Qed.

(** With no band at all the subtraction wraps around. *)
Lemma stage_count_no_band (M : Z) :
  (0 <= M <= 1431655765)%Z -> stage_count 0 M = M.
Proof.
  intros HM. unfold stage_count, u32.
  change (((Z.of_nat 0 mod 2 ^ 32 - 1) mod 2 ^ 32) / 3)%Z with 1431655765%Z. lia.
Qed.

Lemma fresp_loop_stages (B nports : nat) (calibpar : spk_eq_param_t) :
  (forall w fs, length (fst (bandlevels w calibpar fs)) = B /\
                length (snd (bandlevels w calibpar fs)) = B) ->
  (1 <= B)%nat -> (2 <= nports)%nat ->
  (forall i, length (capture i) = nports) ->
  let n := stage_count B (max_eqstages calibpar) in
  forall spks st,
    (fr_numflt st = 0%Z \/ fr_numflt st = n) ->
    exists st' spks',
      fresp_loop nports calibpar st spks = Ok (st', spks') /\
      length spks' = length spks /\
      Forall (fun s => eqstages s = n) spks' /\
      (fr_numflt st' = 0%Z \/ fr_numflt st' = n) /\
      (spks <> [] -> fr_numflt st' = n).
Proof.
  intros HB HB1 Hn Hcap n. induction spks as [|s spks IH]; intros st Hst.
  - exists st, []. split; [reflexivity|]. split; [reflexivity|].
    split; [constructor|]. split; [exact Hst|congruence].
  - destruct (fresp_speaker_spec B nports calibpar st s) as
      (ref & curve & st1 & s1 & _ & Hsp & _ & _ & _ & _ & _ & _ & Hes & _ & _ & Hnum);
      [intros w; apply HB|exact HB1|apply Hcap|exact Hn|].
    assert (Hst1 : fr_numflt st1 = n).
    { rewrite Hnum. destruct (Z.eqb_spec (fr_numflt st) 0) as [E|E].
      - destruct (HB ref (srate (fr_jackrec st))) as [-> _]. reflexivity.
      - destruct Hst; [contradiction|assumption]. }
    destruct (IH st1 (or_intror Hst1)) as (st2 & spks2 & Hloop & Hlen & Hall & Hor & Himp).
    exists st2, (s1 :: spks2). cbn [fresp_loop]. rewrite Hsp. cbn [mbind outcome_bind].
    rewrite Hloop. cbn [mbind outcome_bind].
    split; [reflexivity|]. split; [cbn; lia|].
    split; [constructor; [congruence|exact Hall]|]. split; [exact Hor|].
    intros _. destruct spks as [|s' spks].
    + cbn in Hloop. injection Hloop as <- <-. exact Hst1.
    + apply Himp. discriminate.
Qed.

(** C4.  For band grids with [B] bands ([1 <= B < 2^32]), captures that
    fill all [nports >= 2] buffers and a nonempty speaker array:
    when [max_eqstages] is 0, [get_fresp_] returns 0 and leaves the
    speakers, the source, the recorder and the vectors [vF] and [vGain] as
    they are; otherwise it returns [min((B-1)/3, max_eqstages)] (integer
    division), fits every speaker with that many stages, and so never
    exceeds either bound. *)
Theorem get_fresp_stage_count (B nports : nat) (spks : list spk_descriptor_t)
    (src : src_object_t) (jr : jackrec2wave_t) (calibpar : spk_eq_param_t)
    (vF : list R) (vGain : list (list R)) :
  (forall w fs, length (fst (bandlevels w calibpar fs)) = B /\
                length (snd (bandlevels w calibpar fs)) = B) ->
  (1 <= B)%nat -> (Z.of_nat B < 2 ^ 32)%Z -> (2 <= nports)%nat ->
  (forall i, length (capture i) = nports) ->
  spks <> [] ->
  let M := max_eqstages calibpar in
  (M = 0%Z ->
     get_fresp_ spks src jr nports calibpar vF vGain
     = Ok (0%Z, spks, mk_fresp src jr vF vGain 0)) /\
  (M <> 0%Z ->
     exists spks' st,
       get_fresp_ spks src jr nports calibpar vF vGain
       = Ok (Z.min ((Z.of_nat B - 1) / 3) M, spks', st) /\
       length spks' = length spks /\
       Forall (fun s => eqstages s = Z.min ((Z.of_nat B - 1) / 3) M) spks' /\
       (Z.min ((Z.of_nat B - 1) / 3) M <= (Z.of_nat B - 1) / 3)%Z /\
       (Z.min ((Z.of_nat B - 1) / 3) M <= M)%Z).
Proof.
  intros HB HB1 HB2 Hn Hcap Hne M. split.
  - intros HM. unfold get_fresp_. fold M. rewrite HM. reflexivity.
  - intros HM. unfold get_fresp_. fold M.
    destruct (Z.eqb_spec M 0) as [E|_]; [contradiction|].
    destruct (fresp_loop_stages B nports calibpar HB HB1 Hn Hcap spks
                (mk_fresp src jr [] [] 0) (or_introl eq_refl))
      as (st' & spks' & Hloop & Hlen & Hall & _ & Himp).
    rewrite Hloop. cbn [mbind outcome_bind].
    rewrite (Himp Hne). fold M in Hall |- *.
    rewrite (stage_count_in_range B M HB1 HB2) in *.
    exists spks', st'. split; [reflexivity|]. split; [exact Hlen|].
    split; [exact Hall|]. split; lia.
Qed.

(** ** [saveas] *)

Lemma min_index_lt (k n : nat) : (0 < n)%nat -> (min_index k n < n)%nat.
Proof. destruct n; cbn; lia. Qed.

(** What the loop body writes on a [speaker] or [sub] element. *)
Lemma save_speaker_spec (fcomp : Z) (vF : list R) (vGains : list (list R))
    (arr : list spk_descriptor_t) (k : nat) (espk : attrs) :
  arr <> [] ->
  exists t e',
    arr !! min_index k (length arr) = Some t /\
    save_speaker fcomp vF vGains arr k espk = Ok e' /\
    e' !! "gain" = Some (ANum (20 * log10 (gain t))) /\
    e' !! "eqstages" = Some (AUInt fcomp) /\
    (forall key, key <> "gain" -> key <> "eqstages" -> key <> "eqfreq" ->
                 key <> "eqgain" -> e' !! key = espk !! key).
Proof.
  intros Hne.
  destruct (lookup_lt_is_Some_2 arr (min_index k (length arr))) as [t Ht].
  { apply min_index_lt. destruct arr; [congruence|cbn; lia]. }
  exists t. unfold save_speaker, vec_at. rewrite Ht. cbn [mbind outcome_bind].
  destruct ((0 <? fcomp)%Z && (k <? length vGains)%nat) eqn:E.
  - apply andb_true_iff in E as [_ Hk%Nat.ltb_lt].
    destruct (lookup_lt_is_Some_2 vGains k Hk) as [g ->]. cbn [mbind outcome_bind].
    eexists. split; [reflexivity|]. split; [reflexivity|].
    split; [|split].
    + rewrite !lookup_insert_ne by discriminate. apply lookup_insert_eq.
    + rewrite !lookup_insert_ne by discriminate. apply lookup_insert_eq.
    + intros key H1 H2 H3 H4. rewrite !lookup_insert_ne by congruence. reflexivity.
  - eexists. split; [reflexivity|]. split; [reflexivity|].
    split; [|split].
    + rewrite !lookup_insert_ne by discriminate. apply lookup_insert_eq.
    + rewrite !lookup_insert_ne by discriminate. apply lookup_insert_eq.
    + intros key H1 H2 H3 H4. rewrite !lookup_insert_ne by congruence. reflexivity.
Qed.

Lemma save_speakers_spec (fcomp : Z) (vF : list R) (vGains : list (list R))
    (arr : list spk_descriptor_t) (elems : list attrs) (k : nat) :
  (elems <> [] -> arr <> []) ->
  exists es,
    save_speakers fcomp vF vGains arr k elems = Ok es /\
    length es = length elems /\
    forall i e', es !! i = Some e' ->
      exists t, arr !! min_index (k + i) (length arr) = Some t /\
        e' !! "gain" = Some (ANum (20 * log10 (gain t))) /\
        e' !! "eqstages" = Some (AUInt fcomp).
Proof.
  revert k. induction elems as [|e elems IH]; intros k Hne.
  - exists []. split; [reflexivity|]. split; [reflexivity|]. intros i e' H. inversion H.
  - assert (Harr : arr <> []) by (apply Hne; discriminate).
    destruct (save_speaker_spec fcomp vF vGains arr k e Harr) as (t & e1 & Ht & Hs & Hg & Hst & _).
    destruct (IH (S k) (fun _ => Harr)) as (es & Hes & Hlen & Hall).
    exists (e1 :: es). cbn [save_speakers]. rewrite Hs. cbn [mbind outcome_bind].
    rewrite Hes. cbn [mbind outcome_bind]. split; [reflexivity|].
    split; [cbn; lia|].
    intros [|i] e' Hi.
    + injection Hi as <-. exists t. rewrite Nat.add_0_r. auto.
    + cbn in Hi. destruct (Hall i e' Hi) as (t' & Ht' & Hg' & Hst').
      exists t'. replace (k + S i)%nat with (S k + i)%nat by lia. auto.
Qed.

Lemma saveas_gains_unfold (levels : list R) (spk_file : list spk_descriptor_t) (lmin : R) :
  level_min levels = Ok lmin ->
  saveas_gains levels spk_file
  = for_index (length levels)
      (fun k gains =>
         s ← vec_at spk_file k; l ← vec_at levels k;
         Ok (gains ++ [20 * log10 (gain s) + lmin - l])) [].
Proof.
  destruct levels as [|l0 levels]; [discriminate|].
  unfold level_min, saveas_gains, vec_at.
  change ((l0 :: levels) !! 0%nat) with (Some l0).
  cbn [mbind outcome_bind]. intros [= <-]. reflexivity.
Qed.

(** The vector [gains] that [saveas] builds first holds
    [20 log10 (file gain) + lmin - L_k] for every recorded level. *)
Lemma saveas_gains_spec (levels : list R) (spk_file : list spk_descriptor_t) (lmin : R) :
  level_min levels = Ok lmin ->
  (length levels <= length spk_file)%nat ->
  exists g, saveas_gains levels spk_file = Ok g /\
    length g = length levels /\
    forall k s L, spk_file !! k = Some s -> levels !! k = Some L ->
      g !! k = Some (20 * log10 (gain s) + lmin - L).
Proof.
  intros Hmin Hlen. rewrite (saveas_gains_unfold _ _ _ Hmin).
  assert (H : forall n, (n <= length levels)%nat ->
            exists g,
              for_index n
                (fun k gains =>
                   s ← vec_at spk_file k; l ← vec_at levels k;
                   Ok (gains ++ [20 * log10 (gain s) + lmin - l])) [] = Ok g /\
              length g = n /\
              forall k s L, (k < n)%nat -> spk_file !! k = Some s -> levels !! k = Some L ->
                g !! k = Some (20 * log10 (gain s) + lmin - L)).
  { induction n as [|n IH]; intros Hn.
    - exists []. split; [reflexivity|]. split; [reflexivity|]. intros; lia.
    - destruct IH as (g & Hg & Hl & Hk); [lia|].
      destruct (lookup_lt_is_Some_2 spk_file n) as [s Hs]; [lia|].
      destruct (lookup_lt_is_Some_2 levels n) as [L HL]; [lia|].
      rewrite for_index_S, Hg. cbn [mbind outcome_bind]. unfold vec_at.
      rewrite Hs, HL. cbn [mbind outcome_bind].
      eexists. split; [reflexivity|]. split; [rewrite length_app; cbn; lia|].
      intros k s' L' Hlt Hs' HL'. destruct (decide (k = n)) as [->|Hne].
      + rewrite lookup_app_r by lia. rewrite Hl, Nat.sub_diag. cbn. congruence.
      + rewrite lookup_app_l by lia. apply Hk; [lia|assumption|assumption]. }
  destruct (H (length levels) (le_n _)) as (g & Hg & Hl & Hk).
  exists g. split; [exact Hg|]. split; [exact Hl|].
  intros k s L Hs HL. apply Hk; [|assumption|assumption].
  now apply lookup_lt_Some in HL.
Qed.

(** [saveas] throws on a root element that is not [layout]. *)
Lemma saveas_wrong_root (fname now : string) (s : calibsession_t) (fs : files)
    (doc : xml_doc_t) :
  is_Ok (saveas_gains (levels (meas s)) (spk_file s)) ->
  fs !! spkname s = Some doc ->
  root_name doc <> "layout" ->
  saveas fname now s fs = Throw (wrong_root_error (root_name doc)).
Proof.
  intros [g Hg] Hfs Hroot. unfold saveas, load_file.
  rewrite Hg, Hfs. cbn [mbind outcome_bind].
  destruct (String.eqb_spec (root_name doc) "layout") as [E|_]; [contradiction|].
  reflexivity.
Qed.

(** [saveas] throws when the file does not load. *)
Lemma saveas_load_failure (fname now : string) (s : calibsession_t) (fs : files) :
  is_Ok (saveas_gains (levels (meas s)) (spk_file s)) ->
  fs !! spkname s = None ->
  saveas fname now s fs = Throw ("Unable to load " +:+ spkname s).
Proof.
  intros [g Hg] Hfs. unfold saveas, load_file. rewrite Hg, Hfs. reflexivity.
Qed.

(** Whenever [saveas] returns, the session is the old one with the four
    flags cleared, and the files are the old ones with the destination
    replaced by a [layout] document. *)
Lemma saveas_inv (fname now : string) (s s' : calibsession_t) (fs fs' : files) :
  saveas fname now s fs = Ok (s', fs') ->
  s' = clear_flags s /\
  exists doc doc', fs !! spkname s = Some doc /\ root_name doc = "layout" /\
    fs' = <[fname := doc']> fs /\ root_name doc' = "layout".
Proof.
  unfold saveas, load_file.
  destruct (saveas_gains _ _) as [g| |]; cbn [mbind outcome_bind]; try discriminate.
  destruct (fs !! spkname s) as [doc|] eqn:Hfs; cbn [mbind outcome_bind]; try discriminate.
  destruct (String.eqb_spec (root_name doc) "layout") as [E|_]; cbn [negb]; try discriminate.
  destruct (layout_error _); try discriminate.
  do 2 (match goal with
        | |- (?m ≫= _) = Ok _ -> _ =>
            destruct m; cbn [mbind outcome_bind]; try discriminate
        end).
  intros [= <- <-]. split; [reflexivity|].
  exists doc. eexists. split; [reflexivity|]. split; [exact E|].
  split; [reflexivity|exact E].
Qed.

(** [saveas] on a loadable [layout] document that validates: the result,
    and the gain written on every [speaker] and [sub] element. *)
Lemma saveas_ok (fname now : string) (s : calibsession_t) (fs : files) (doc : xml_doc_t) :
  is_Ok (saveas_gains (levels (meas s)) (spk_file s)) ->
  fs !! spkname s = Some doc ->
  root_name doc = "layout" ->
  layout_error (with_levels s doc) = None ->
  let spec := spkpos (rec_spec (scene s)) in
  (speaker_elems doc <> [] -> spk spec <> []) ->
  (sub_elems doc <> [] -> subs spec <> []) ->
  exists doc',
    saveas fname now s fs = Ok (clear_flags s, <[fname := doc']> fs) /\
    root_name doc' = "layout" /\
    length (speaker_elems doc') = length (speaker_elems doc) /\
    length (sub_elems doc') = length (sub_elems doc) /\
    (forall k e', speaker_elems doc' !! k = Some e' ->
       exists t, spk spec !! min_index k (length (spk spec)) = Some t /\
         e' !! "gain" = Some (ANum (20 * log10 (gain t))) /\
         e' !! "eqstages" = Some (AUInt (fcomp_bb (meas s)))) /\
    (forall k e', sub_elems doc' !! k = Some e' ->
       exists t, subs spec !! min_index k (length (subs spec)) = Some t /\
         e' !! "gain" = Some (ANum (20 * log10 (gain t))) /\
         e' !! "eqstages" = Some (AUInt (fcomp_sub (meas s)))) /\
    root_attrs doc' !! "calibfor" = Some (AStr (calibfor s)) /\
    root_attrs doc' !! "calibdate" = Some (AStr now) /\
    root_attrs doc' !! "caliblevel" = Some (ANum (get_caliblevel s)) /\
    root_attrs doc' !! "diffusegain" = Some (ANum (get_diffusegain s)).
Proof.
  intros [g Hg] Hfs Hroot Hval spec Hspk Hsub.
  unfold saveas, load_file. rewrite Hg, Hfs. cbn [mbind outcome_bind].
  destruct (String.eqb_spec (root_name doc) "layout") as [_|E]; [|contradiction].
  cbn [negb]. fold (with_levels s doc). rewrite Hval.
  cbn [speaker_elems sub_elems root_name root_attrs with_levels].
  destruct (save_speakers_spec (fcomp_bb (meas s)) (vF (meas s)) (vGains (meas s))
              (spk spec) (speaker_elems doc) 0 Hspk) as (es & Hes & Hles & Hges).
  destruct (save_speakers_spec (fcomp_sub (meas s)) (vFsub (meas s)) (vGainsSub (meas s))
              (subs spec) (sub_elems doc) 0 Hsub) as (eb & Heb & Hleb & Hgeb).
  fold spec. rewrite Hes. cbn [mbind outcome_bind]. rewrite Heb. cbn [mbind outcome_bind].
  eexists. split; [reflexivity|]. cbn [root_name speaker_elems sub_elems root_attrs].
  split; [exact Hroot|]. split; [exact Hles|]. split; [exact Hleb|].
  split; [exact Hges|]. split; [exact Hgeb|].
  split; [apply lookup_insert_eq|].
  split; [rewrite lookup_insert_ne by discriminate; apply lookup_insert_eq|].
  split.
  - rewrite !lookup_insert_ne by discriminate. apply lookup_insert_eq.
  - rewrite !lookup_insert_ne by discriminate. apply lookup_insert_eq.
Qed.

(** C5 (as the code has it).  For a speaker measured by [get_fresp_], with
    [nports - 1 >= 1] measurement channels and a reference channel in the
    capture and [B >= 1] bands per buffer: the band levels of the
    measurement channels are taken to the power domain, averaged across the
    measurement channels and taken back to dB; this average is subtracted
    from the band levels of the reference channel (reference minus
    measurement); the maximum of that difference is subtracted, so the
    curve is nowhere positive and 0 in its largest band.  The equalizer is
    fitted to this curve itself, which is also stored in [eqgain] and
    appended to [vGain]. *)
Theorem fresp_speaker_curve (B nports : nat) (calibpar : spk_eq_param_t)
    (st : fresp_t) (s : spk_descriptor_t) :
  let recbuf := capture (ncaptures (fr_jackrec st)) in
  let fs := srate (fr_jackrec st) in
  (forall w, length (snd (bandlevels w calibpar fs)) = B) ->
  (1 <= B)%nat ->
  length recbuf = nports -> (2 <= nports)%nat ->
  exists ref curve st' s',
    last recbuf = Some ref /\
    fresp_speaker nports calibpar st s = Ok (st', s') /\
    is_fit_curve calibpar fs (take (nports - 1) recbuf) ref curve /\
    (forall x, x ∈ curve -> x <= 0) /\ 0 ∈ curve /\
    eqgain s' = curve /\
    spk_eq s' = optim_response pareq_default (fr_numflt st')
                  (fst (bandlevels ref calibpar fs)) curve fs /\
    fr_vGain st' = fr_vGain st ++ [curve].
Proof.
  intros recbuf fs HB HB1 Hlen Hn.
  destruct (fresp_speaker_spec B nports calibpar st s HB HB1 Hlen Hn)
    as (ref & curve & st' & s' & H1 & H2 & H3 & H4 & H5 & H6 & _ & H8 & _ & _ & H11 & _).
  exists ref, curve, st', s'. auto 10.
Qed.

(** C3 (as the code has it).  When the layout file loads, has root
    [layout] and validates, and the spec receiver has a speaker for the
    [speaker] elements to read, [saveas] succeeds, keeps the number of
    [speaker] elements, and writes on the [k]-th of them the gain
    attribute [20 log10 (g)], where [g] is the gain of speaker
    [min(k, n-1)] of the spec receiver.  The recorded levels do not enter
    the written value. *)
Theorem saveas_writes_receiver_gain (fname now : string) (s : calibsession_t)
    (fs : files) (doc : xml_doc_t) :
  levels (meas s) <> [] ->
  (length (levels (meas s)) <= length (spk_file s))%nat ->
  fs !! spkname s = Some doc ->
  root_name doc = "layout" ->
  layout_error (with_levels s doc) = None ->
  let spec := spkpos (rec_spec (scene s)) in
  spk spec <> [] ->
  (sub_elems doc <> [] -> subs spec <> []) ->
  exists doc',
    saveas fname now s fs = Ok (clear_flags s, <[fname := doc']> fs) /\
    length (speaker_elems doc') = length (speaker_elems doc) /\
    forall k e', speaker_elems doc' !! k = Some e' ->
      exists t, spk spec !! Nat.min k (length (spk spec) - 1) = Some t /\
        e' !! "gain" = Some (ANum (20 * log10 (gain t))).
Proof.
  intros Hne Hlen Hfs Hroot Hval spec Hspk Hsub.
  destruct (level_min_total _ Hne) as [lmin Hmin].
  destruct (saveas_gains_spec _ _ _ Hmin Hlen) as (g & Hg & _).
  destruct (saveas_ok fname now s fs doc (ex_intro _ g Hg) Hfs Hroot Hval
              (fun _ => Hspk) Hsub) as (doc' & Hs & _ & Hl & _ & Hgain & _).
  exists doc'. split; [exact Hs|]. split; [exact Hl|].
  intros k e' He. destruct (Hgain k e' He) as (t & Ht & Hgt & _).
  exists t. split; [|exact Hgt].
  fold spec in Ht. destruct (spk spec) as [|s0 l]; [congruence|].
  cbn [min_index length] in Ht.
  replace (length (s0 :: l) - 1)%nat with (length l) by (cbn; lia). exact Ht.
Qed.

(** C8.  With recorded levels for the speakers of the layout and a layout
    file that loads: [saveas] throws when the root element of the
    re-opened document is not [layout], and then returns neither a session
    nor files, so the flags and the files stay as the caller has them;
    whenever it returns, the session is the old one with the four flags
    [false] and the files differ only at the destination; and [save] is
    [saveas] at the path the layout was read from. *)
Theorem saveas_errors_and_flags (fname now : string) (s : calibsession_t)
    (fs : files) (doc : xml_doc_t) :
  levels (meas s) <> [] ->
  (length (levels (meas s)) <= length (spk_file s))%nat ->
  fs !! spkname s = Some doc ->
  (root_name doc <> "layout" ->
     saveas fname now s fs = Throw (wrong_root_error (root_name doc))) /\
  (forall s' fs', saveas fname now s fs = Ok (s', fs') ->
     s' = clear_flags s /\
     flags s' = mk_flags false false false false /\
     root_name doc = "layout" /\
     exists doc', fs' = <[fname := doc']> fs /\ root_name doc' = "layout") /\
  save now s fs = saveas (spkname s) now s fs.
Proof.
  intros Hne Hlen Hfs.
  destruct (level_min_total _ Hne) as [lmin Hmin].
  destruct (saveas_gains_spec _ _ _ Hmin Hlen) as (g & Hg & _).
  split; [|split].
  - intros Hroot. apply saveas_wrong_root; [now exists g|exact Hfs|exact Hroot].
  - intros s' fs' Hs. apply saveas_inv in Hs as (-> & d & d' & Hd & Hr & -> & Hr').
    rewrite Hfs in Hd. injection Hd as <-.
    split; [reflexivity|]. split; [reflexivity|]. split; [exact Hr|]. eauto.
  - reflexivity.
Qed.


(** * Further properties *)

(** ** [string_token]: splitting and joining *)

Lemma substring_erase_split (n : nat) (s : string) :
  String.substring 0 n s +:+ Token.erase_front n s = s.
Proof.
  revert s. induction n as [|n IH]; intros [|c s]; try reflexivity.
  change (String c (String.substring 0 n s +:+ Token.erase_front n s) = String c s).
  f_equal. apply IH.
Qed.

Lemma substring_erase (n m : nat) (s : string) :
  String.substring n m s = String.substring 0 m (Token.erase_front n s).
Proof.
  revert s. induction n as [|n IH]; intros [|c s]; cbn; try reflexivity.
  - destruct m; reflexivity.
  - apply IH.
Qed.

Lemma erase_front_add (a b : nat) (s : string) :
  Token.erase_front (a + b) s = Token.erase_front b (Token.erase_front a s).
Proof.
  revert s. induction a as [|a IH]; intros [|c s]; cbn; try reflexivity.
  - destruct b; reflexivity.
  - apply IH.
Qed.

Lemma index_split (d s : string) (pos : nat) :
  String.index 0 d s = Some pos ->
  s = String.substring 0 pos s +:+ d
      +:+ Token.erase_front (pos + String.length d) s.
Proof.
  intros Hi. apply String.index_correct1 in Hi.
  rewrite substring_erase in Hi.
  rewrite erase_front_add.
  rewrite <- Hi at 1. rewrite substring_erase_split, substring_erase_split. reflexivity.
Qed.

Lemma string_token_loop_join (d : string) (fuel : nat) (s : string) (rv l : list string) :
  Token.string_token_loop fuel s d rv = Some l ->
  exists toks, l = rv ++ toks /\ toks <> [] /\ String.concat d toks = s.
Proof.
  revert s rv. induction fuel as [|fuel IH]; intros s rv; cbn [Token.string_token_loop].
  - destruct (String.index 0 d s); [discriminate|].
    intros [= <-]. exists [s]. repeat split. discriminate.
  - destruct (String.index 0 d s) as [pos|] eqn:Hi.
    + intros H. apply IH in H as (toks & -> & Hne & Hc).
      exists (String.substring 0 pos s :: toks).
      split; [now rewrite <- app_assoc|]. split; [discriminate|].
      destruct toks as [|t toks]; [congruence|].
      cbn [String.concat]. cbn [String.concat] in Hc. rewrite Hc.
      symmetry. now apply index_split.
    + intros [= <-]. exists [s]. repeat split. discriminate.
Qed.

Lemma index_empty_delimiter (s : string) : String.index 0 EmptyString s = Some 0%nat.
Proof. destruct s; reflexivity. Qed.

Lemma string_token_loop_empty_delimiter (fuel : nat) (s : string) (rv : list string) :
  Token.string_token_loop fuel s EmptyString rv = None.
Proof.
  revert rv. induction fuel as [|fuel IH]; intros rv; cbn [Token.string_token_loop];
    rewrite index_empty_delimiter; [reflexivity|].
  cbn [String.length Nat.add Token.erase_front]. apply IH.
Qed.

Lemma substring_length_0 (n : nat) (s : string) :
  String.length (String.substring 0 n s) = Nat.min n (String.length s).
Proof.
  revert s. induction n as [|n IH]; intros [|c s]; cbn; try reflexivity.
  now rewrite IH.
Qed.

Lemma substring_of_prefix (p n pos : nat) (s : string) :
  (p + n <= pos)%nat ->
  String.substring p n (String.substring 0 pos s) = String.substring p n s.
Proof.
  revert p n pos. induction s as [|c s IH]; intros p n pos H.
  - destruct pos; reflexivity.
  - destruct pos as [|pos].
    + assert (p = 0%nat) as -> by lia. assert (n = 0%nat) as -> by lia. reflexivity.
    + cbn [String.substring]. destruct p as [|p].
      * destruct n as [|n]; [reflexivity|].
        cbn [String.substring]. f_equal.
        change (String.substring 0 n (String.substring 0 pos s) = String.substring 0 n s).
        apply IH. lia.
      * cbn [String.substring]. apply IH. lia.
Qed.

(** The part of [s] before the first occurrence of [d] does not contain [d]. *)
Lemma index_prefix_none (d s : string) (pos : nat) :
  d <> EmptyString ->
  String.index 0 d s = Some pos ->
  String.index 0 d (String.substring 0 pos s) = None.
Proof.
  intros Hd Hi.
  destruct (String.index 0 d (String.substring 0 pos s)) as [p|] eqn:Hp; [|reflexivity].
  exfalso.
  pose proof (index_bound _ _ _ Hp) as Hb. rewrite substring_length_0 in Hb.
  apply String.index_correct1 in Hp.
  rewrite substring_of_prefix in Hp by lia.
  assert (0 < String.length d)%nat by (destruct d; [congruence|cbn; lia]).
  apply (String.index_correct2 _ _ _ _ Hi p); [lia|lia|exact Hp].
Qed.

Lemma string_token_loop_tokens (d : string) (fuel : nat) (s : string) (rv l : list string) :
  d <> EmptyString ->
  Forall (fun t => String.index 0 d t = None) rv ->
  Token.string_token_loop fuel s d rv = Some l ->
  Forall (fun t => String.index 0 d t = None) l.
Proof.
  intros Hd. revert s rv. induction fuel as [|fuel IH]; intros s rv Hrv;
    cbn [Token.string_token_loop].
  - destruct (String.index 0 d s) eqn:Hi; [discriminate|].
    intros [= <-]. apply Forall_app. split; [exact Hrv|]. now repeat constructor.
  - destruct (String.index 0 d s) as [pos|] eqn:Hi.
    + apply IH. apply Forall_app. split; [exact Hrv|].
      repeat constructor. now apply index_prefix_none.
    + intros [= <-]. apply Forall_app. split; [exact Hrv|]. now repeat constructor.
Qed.

(** X1.  For a nonempty delimiter [string_token] returns; its result is a
    nonempty list of tokens, none of which contains the delimiter, and
    joining the tokens with the delimiter gives the string back. *)
Theorem string_token_split_join (s d : string) :
  d <> EmptyString ->
  exists toks,
    Token.string_token s d = Some toks /\
    toks <> [] /\
    Forall (fun t => String.index 0 d t = None) toks /\
    String.concat d toks = s.
Proof.
  intros Hd. destruct (string_token_terminates s d Hd) as [l Hl].
  exists l. split; [exact Hl|].
  pose proof (string_token_loop_tokens d _ _ _ _ Hd (List.Forall_nil _) Hl) as Hall.
  apply string_token_loop_join in Hl as (toks & -> & Hne & Hc).
  cbn in Hall |- *. auto.
Qed.

(** X2.  With the empty delimiter the loop of [string_token] does not end:
    [find] returns 0 at every iteration and nothing is erased, whatever the
    bound on the number of iterations. *)
Theorem string_token_empty_delimiter_diverges (fuel : nat) (s : string) (rv : list string) :
  Token.string_token_loop fuel s EmptyString rv = None /\
  Token.string_token s EmptyString = None.
Proof.
  split; apply string_token_loop_empty_delimiter.
Qed.


(** ** Mute states of the playback operations *)

Lemma set_active_keeps_exclusive (b : bool) (s : calibsession_t) :
  at_most_one_stimulus s -> at_most_one_stimulus (set_active b s).
Proof.
  unfold at_most_one_stimulus. intros H.
  destruct b; mute_cases s; vm_compute in H |- *; lia.
Qed.

Lemma set_active_diff_keeps_exclusive (b : bool) (s : calibsession_t) :
  at_most_one_stimulus s -> at_most_one_stimulus (set_active_diff b s).
Proof.
  unfold at_most_one_stimulus. intros H.
  destruct b; mute_cases s; vm_compute in H |- *; lia.
Qed.

(** X3.  Starting with at most one stimulus unmuted, every sequence of
    [set_active] and [set_active_diff] calls has at most one of broadband
    source, subwoofer source and diffuse field unmuted after each of its
    statements. *)
Theorem playback_ops_exclusive (ops : list mute_op) (s : calibsession_t) :
  at_most_one_stimulus s ->
  Forall (fun o => o <> op_get_levels) ops ->
  Forall at_most_one_stimulus (mute_trace ops s).
Proof.
  revert s. induction ops as [|o ops IH]; intros s Hs Hops; [constructor|].
  inversion Hops as [|? ? Ho Hops']; subst.
  cbn [mute_trace]. apply Forall_app. split.
  - destruct o as [b|b|]; [|..|congruence].
    + now apply set_active_exclusive.
    + now apply set_active_diff_exclusive.
  - apply IH; [|exact Hops'].
    destruct o as [b|b|]; [|..|congruence]; cbn [op_script].
    + now apply set_active_keeps_exclusive.
    + now apply set_active_diff_keeps_exclusive.
Qed.

(** X4.  [set_active(b)] leaves the spec receiver unmuted exactly when [b]
    holds and the nsp receiver unmuted exactly when it does not, mutes the
    subwoofer source, unmutes the broadband source exactly when [b] holds
    and puts it at the front; it mutes the diffuse field when [b] holds and
    leaves it as it is otherwise; [calibrated] is set when [b] holds and
    no flag is ever cleared; speaker arrays, levels and measurement results
    are not touched. *)
Theorem set_active_effect (b : bool) (s : calibsession_t) :
  let s' := set_active b s in
  rec_mute (rec_spec (scene s')) = negb b /\
  rec_mute (rec_nsp (scene s')) = b /\
  src_mute (src_sub (scene s')) = true /\
  src_mute (src_bb (scene s')) = negb b /\
  dlocation (src_bb (scene s')) = front /\
  diff_mute (scene s') = (if b then true else diff_mute (scene s)) /\
  flags s' = mk_flags (gainmodified (flags s)) (levelsrecorded (flags s))
               (b || calibrated (flags s)) (calibrated_diff (flags s)) /\
  spkpos (rec_nsp (scene s')) = spkpos (rec_nsp (scene s)) /\
  spkpos (rec_spec (scene s')) = spkpos (rec_spec (scene s)) /\
  caliblevel (rec_spec (scene s')) = caliblevel (rec_spec (scene s)) /\
  diffusegain (rec_spec (scene s')) = diffusegain (rec_spec (scene s)) /\
  meas s' = meas s /\ delta s' = delta s.
Proof.
  destruct s as [[] ? ? ? ? ? ? ? ? ? ? ? ? [[] [] ? [] []]].
  destruct b; cbn; repeat split; reflexivity.
Qed.

(** X5.  [set_active_diff(b)] routes the receivers in the same way, mutes
    both point sources when [b] holds (only the subwoofer source
    otherwise, the broadband source staying as it is), unmutes the diffuse
    field exactly when [b] holds, and sets [calibrated_diff] when [b]
    holds. *)
Theorem set_active_diff_effect (b : bool) (s : calibsession_t) :
  let s' := set_active_diff b s in
  rec_mute (rec_spec (scene s')) = negb b /\
  rec_mute (rec_nsp (scene s')) = b /\
  src_mute (src_sub (scene s')) = true /\
  src_mute (src_bb (scene s')) = (if b then true else src_mute (src_bb (scene s))) /\
  diff_mute (scene s') = negb b /\
  flags s' = mk_flags (gainmodified (flags s)) (levelsrecorded (flags s))
               (calibrated (flags s)) (b || calibrated_diff (flags s)) /\
  spkpos (rec_nsp (scene s')) = spkpos (rec_nsp (scene s)) /\
  spkpos (rec_spec (scene s')) = spkpos (rec_spec (scene s)) /\
  meas s' = meas s.
Proof.
  destruct s as [[] ? ? ? ? ? ? ? ? ? ? ? ? [[] [] ? [] []]].
  destruct b; cbn; repeat split; reflexivity.
Qed.


(** ** Calibration level and diffuse gain: composition *)

Lemma diffusegain_readback (eps L r : R) :
  0 <= eps < 1 ->
  Rabs (r - pow10 (0.05 * L)) <= eps * Rabs (pow10 (0.05 * L)) ->
  20 * log10 (1 - eps) <= 20 * log10 r - L <= 20 * log10 (1 + eps).
Proof.
  intros Heps Hr.
  pose proof (pow10_pos (0.05 * L)) as HP.
  assert (HL : L = 20 * log10 (pow10 (0.05 * L))) by (rewrite log10_pow10; lra).
  set (P := pow10 (0.05 * L)) in *.
  rewrite (Rabs_right P) in Hr by lra.
  assert (Hr' : - (eps * P) <= r - P <= eps * P).
  { revert Hr. unfold Rabs. destruct (Rcase_abs (r - P)); intros; nra. }
  assert (Hlo : (1 - eps) * P <= r) by nra.
  assert (Hhi : r <= (1 + eps) * P) by nra.
  assert (Hpos : 0 < (1 - eps) * P) by nra.
  apply log10_le in Hlo; [|exact Hpos].
  apply log10_le in Hhi; [|nra].
  rewrite (log10_mult (1 - eps) P) in Hlo by lra.
  rewrite (log10_mult (1 + eps) P) in Hhi by lra.
  lra.
Qed.

(** X6.  With a narrowing to [float] of relative error at most [eps], after
    [inc_diffusegain(d1)] and [inc_diffusegain(d2)] on a session whose
    accumulated diffuse delta is 0, [get_diffusegain] returns
    [startdiffgain + d1 + d2] up to [20 log10 (1 - eps)] below and
    [20 log10 (1 + eps)] above, whatever the diffuse gain was before. *)
Theorem inc_diffusegain_roundtrip (eps : R) (s : calibsession_t) (d1 d2 : R) :
  0 <= eps < 1 ->
  (forall x, Rabs (f32 x - x) <= eps * Rabs x) ->
  delta_diff s = 0 ->
  let s' := inc_diffusegain d2 (inc_diffusegain d1 s) in
  20 * log10 (1 - eps)
    <= get_diffusegain s' - (startdiffgain s + d1 + d2)
    <= 20 * log10 (1 + eps).
Proof.
  intros Heps Hf Hd s'.
  assert (Hg : diffusegain (rec_spec (scene s'))
               = f32 (pow10 (0.05 * (startdiffgain s + d1 + d2)))).
  { unfold s'. cbn. rewrite Hd. do 2 f_equal. lra. }
  unfold get_diffusegain. rewrite Hg.
  apply diffusegain_readback; [exact Heps|apply Hf].
Qed.

Lemma session_eq (s t : calibsession_t) :
  flags s = flags t -> startlevel s = startlevel t -> startdiffgain s = startdiffgain t ->
  delta s = delta t -> delta_diff s = delta_diff t -> spkname s = spkname t ->
  spk_file s = spk_file t -> par_speaker s = par_speaker t -> par_sub s = par_sub t ->
  refport_ s = refport_ t -> calibfor s = calibfor t -> jackrec s = jackrec t ->
  meas s = meas t -> scene s = scene t -> s = t.
Proof.
  destruct s, t. cbn. intros. subst. reflexivity.
Qed.

(** X7.  Increments of the calibration level add up: two calls are one
    call with the sum of the deltas, so the order of the calls does not
    matter, and an increment followed by its opposite puts the level of the
    accumulated delta back.  After any call both receivers hold the same
    level, whatever they held before. *)
Theorem inc_caliblevel_adds (d1 d2 : R) (s : calibsession_t) :
  inc_caliblevel d2 (inc_caliblevel d1 s) = inc_caliblevel (d1 + d2) s /\
  inc_caliblevel d2 (inc_caliblevel d1 s) = inc_caliblevel d1 (inc_caliblevel d2 s) /\
  caliblevel (rec_spec (scene (inc_caliblevel (- d1) (inc_caliblevel d1 s))))
    = f32 (2e-5 * pow10 (0.05 * (startlevel s + delta s))) /\
  caliblevel (rec_nsp (scene (inc_caliblevel d1 s)))
    = caliblevel (rec_spec (scene (inc_caliblevel d1 s))).
Proof.
  assert (H : forall a b, inc_caliblevel b (inc_caliblevel a s) = inc_caliblevel (a + b) s).
  { intros a b. apply session_eq; try reflexivity.
    - cbn. lra.
    - cbn. replace (delta s + a + b) with (delta s + (a + b)) by lra. reflexivity. }
  split; [apply H|]. split; [|split].
  - rewrite !H. f_equal. lra.
  - rewrite H. cbn. do 3 f_equal. lra.
  - reflexivity.
Qed.

(** X8.  The same for the diffuse gain; and the two kinds of increment do
    not interfere: they commute, [inc_caliblevel] leaves the diffuse gain
    and [inc_diffusegain] leaves the calibration level as it is, and both
    leave speaker arrays and mute states untouched. *)
Theorem inc_diffusegain_adds (d1 d2 : R) (s : calibsession_t) :
  inc_diffusegain d2 (inc_diffusegain d1 s) = inc_diffusegain (d1 + d2) s /\
  inc_caliblevel d2 (inc_diffusegain d1 s) = inc_diffusegain d1 (inc_caliblevel d2 s) /\
  get_diffusegain (inc_caliblevel d1 s) = get_diffusegain s /\
  get_caliblevel (inc_diffusegain d1 s) = get_caliblevel s /\
  spkpos (rec_spec (scene (inc_diffusegain d1 s))) = spkpos (rec_spec (scene s)) /\
  spkpos (rec_spec (scene (inc_caliblevel d1 s))) = spkpos (rec_spec (scene s)) /\
  stimuli_unmuted (inc_diffusegain d1 s) = stimuli_unmuted s /\
  stimuli_unmuted (inc_caliblevel d1 s) = stimuli_unmuted s.
Proof.
  split; [|split].
  - apply session_eq; try reflexivity.
    + cbn. lra.
    + cbn. replace (delta_diff s + d1 + d2) with (delta_diff s + (d1 + d2)) by lra.
      reflexivity.
  - apply session_eq; reflexivity.
  - repeat split; reflexivity.
Qed.


(** ** [reset_levels] *)

Lemma assign_gains_spec (n : nat) (g : R) (v : list spk_descriptor_t) :
  (n <= length v)%nat -> assign_gains n g v = Ok (with_gain g n v).
Proof.
  intros Hn. unfold assign_gains.
  destruct (for_index_modify (fun _ => set_gain g) n v Hn) as (v' & -> & _ & Hlk).
  f_equal. apply list_eq. intros k. unfold with_gain.
  rewrite Hlk, list_lookup_imap.
  destruct (decide (k < n)%nat); destruct (v !! k); reflexivity.
Qed.

Lemma assign_gains_undefined (n : nat) (g : R) (v : list spk_descriptor_t) :
  (length v < n)%nat -> assign_gains n g v = Undefined.
Proof. apply for_index_modify_undefined. Qed.

Lemma with_gain_length (g : R) (n : nat) (v : list spk_descriptor_t) :
  length (with_gain g n v) = length v.
Proof. unfold with_gain. apply length_imap. Qed.

Lemma with_gain_idem (g : R) (n : nat) (v : list spk_descriptor_t) :
  with_gain g n (with_gain g n v) = with_gain g n v.
Proof.
  apply list_eq. intros k. unfold with_gain. rewrite !list_lookup_imap.
  destruct (v !! k) as [s|]; [|reflexivity]. cbn.
  destruct (decide (k < n)%nat); reflexivity.
Qed.

Lemma with_gain_lookup (g : R) (n : nat) (v : list spk_descriptor_t) (k : nat)
    (s' : spk_descriptor_t) :
  with_gain g n v !! k = Some s' ->
  exists s, v !! k = Some s /\
    gain s' = (if decide (k < n)%nat then g else gain s) /\
    unitvector s' = unitvector s /\ spk_eq s' = spk_eq s /\
    eqfreq s' = eqfreq s /\ eqgain s' = eqgain s /\ eqstages s' = eqstages s.
Proof.
  unfold with_gain. rewrite list_lookup_imap.
  destruct (v !! k) as [s|]; [|discriminate]. cbn. intros [= <-].
  exists s. split; [reflexivity|].
  destruct (decide (k < n)%nat); repeat split; reflexivity.
Qed.

Lemma reset_array_spec (m : meas_t) (a : spk_array_t) :
  (length (levels m) <= length (spk a))%nat ->
  (length (sublevels m) <= length (subs a))%nat ->
  reset_array (length (levels m)) (length (sublevels m)) a = Ok (reset_gains m a).
Proof.
  intros H1 H2. unfold reset_array.
  rewrite (assign_gains_spec _ _ _ H1). cbn [mbind outcome_bind].
  rewrite (assign_gains_spec _ _ _ H2). reflexivity.
Qed.

Lemma fmap_zero (l : list R) : (fun _ => 0) <$> l = replicate (length l) 0.
Proof. induction l as [|x l IH]; cbn; [reflexivity|]. now rewrite IH. Qed.

Lemma reset_levels_spec (s : calibsession_t) :
  let m := meas s in
  (length (levels m) <= length (spk (spkpos (rec_nsp (scene s)))))%nat ->
  (length (sublevels m) <= length (subs (spkpos (rec_nsp (scene s)))))%nat ->
  (length (levels m) <= length (spk (spkpos (rec_spec (scene s)))))%nat ->
  (length (sublevels m) <= length (subs (spkpos (rec_spec (scene s)))))%nat ->
  reset_levels s = Ok (reset_result s).
Proof.
  intros m H1 H2 H3 H4. unfold reset_levels, for_both. cbn zeta.
  cbn [set_meas set_flags scene meas levels sublevels].
  fold m. rewrite (reset_array_spec m _ H1 H2). cbn [mbind outcome_bind].
  rewrite (reset_array_spec m _ H3 H4). cbn [mbind outcome_bind].
  f_equal. apply session_eq; try reflexivity.
  cbn. fold m. now rewrite !fmap_zero.
Qed.

Lemma reset_result_idem (s : calibsession_t) : reset_result (reset_result s) = reset_result s.
Proof.
  apply session_eq; try reflexivity.
  - cbn. now rewrite !length_replicate.
  - cbn. unfold reset_gains. cbn [spk subs levels sublevels].
    now rewrite !with_gain_idem.
Qed.

(** X9.  When both receivers have at least as many speakers and subwoofers
    as there are recorded levels, [reset_levels] succeeds: it clears
    [levelsrecorded] and no other flag, zeroes the level ranges, keeps the
    levels, and sets to 1 the gain of the speakers and subwoofers that
    have a level, in both receivers, leaving every other field of every
    speaker as it is.  Calling it again changes nothing. *)
Theorem reset_levels_effect (s : calibsession_t) :
  let m := meas s in
  (length (levels m) <= length (spk (spkpos (rec_nsp (scene s)))))%nat ->
  (length (sublevels m) <= length (subs (spkpos (rec_nsp (scene s)))))%nat ->
  (length (levels m) <= length (spk (spkpos (rec_spec (scene s)))))%nat ->
  (length (sublevels m) <= length (subs (spkpos (rec_spec (scene s)))))%nat ->
  exists s',
    reset_levels s = Ok s' /\
    flags s' = mk_flags (gainmodified (flags s)) false (calibrated (flags s))
                 (calibrated_diff (flags s)) /\
    levels (meas s') = levels m /\ sublevels (meas s') = sublevels m /\
    levelsfrg (meas s') = replicate (length (levelsfrg m)) 0 /\
    sublevelsfrg (meas s') = replicate (length (sublevelsfrg m)) 0 /\
    (forall r, r = rec_nsp \/ r = rec_spec ->
       forall k t, spk (spkpos (r (scene s'))) !! k = Some t ->
         exists t0, spk (spkpos (r (scene s))) !! k = Some t0 /\
           gain t = (if decide (k < length (levels m))%nat then 1 else gain t0) /\
           unitvector t = unitvector t0 /\ spk_eq t = spk_eq t0 /\
           eqfreq t = eqfreq t0 /\ eqgain t = eqgain t0 /\ eqstages t = eqstages t0) /\
    (forall r, r = rec_nsp \/ r = rec_spec ->
       forall k t, subs (spkpos (r (scene s'))) !! k = Some t ->
         exists t0, subs (spkpos (r (scene s))) !! k = Some t0 /\
           gain t = (if decide (k < length (sublevels m))%nat then 1 else gain t0) /\
           unitvector t = unitvector t0 /\ spk_eq t = spk_eq t0 /\
           eqfreq t = eqfreq t0 /\ eqgain t = eqgain t0 /\ eqstages t = eqstages t0) /\
    reset_levels s' = Ok s'.
Proof.
  intros m H1 H2 H3 H4. exists (reset_result s).
  split; [now apply reset_levels_spec|].
  do 5 (split; [reflexivity|]). split; [|split].
  - intros r [-> | ->] k t Ht; cbn in Ht; now apply with_gain_lookup in Ht.
  - intros r [-> | ->] k t Ht; cbn in Ht; now apply with_gain_lookup in Ht.
  - rewrite <- (reset_result_idem s) at 2.
    apply reset_levels_spec; cbn; rewrite with_gain_length; assumption.
Qed.

(** X10.  When the nsp receiver has fewer speakers than there are recorded
    levels, [reset_levels] indexes its array out of range. *)
Theorem reset_levels_out_of_range (s : calibsession_t) :
  (length (spk (spkpos (rec_nsp (scene s)))) < length (levels (meas s)))%nat ->
  reset_levels s = Undefined.
Proof.
  intros H. unfold reset_levels, for_both, reset_array. cbn zeta.
  cbn [set_meas set_flags scene meas levels sublevels].
  rewrite (assign_gains_undefined _ 1 (spk (spkpos (rec_nsp (scene s)))) H). reflexivity.
Qed.


(** ** Gain update on carried-over gains, and out of range *)

Lemma scale_gains_undefined (lmin : R) (levels : list R) (v : list spk_descriptor_t) :
  (length v < length levels)%nat -> scale_gains lmin levels v = Undefined.
Proof.
  intros H. unfold scale_gains.
  rewrite (for_index_ext _ _
             (fun k v => vec_modify k
                (fun s => set_gain (gain s * pow10 (0.05 * (lmin - nth k levels 0))) s) v)).
  - now apply for_index_modify_undefined.
  - intros k t Hk. unfold vec_at.
    destruct (lookup_lt_is_Some_2 levels k Hk) as [L HL]. rewrite HL. cbn.
    now rewrite (nth_lookup_Some _ _ 0 _ HL).
Qed.

(** X11.  For any positive gains carried over from before (no
    [reset_levels] in between), the gain update succeeds on an array of
    matching size with at least one speaker; afterwards every broadband
    gain is positive and at most 1, one of them is exactly 1, and the
    ratio of two broadband gains is the ratio they had before times
    [10^((L_j - L_k)/20)].  The value of [lmin] does not matter for this. *)
Theorem gain_update_keeps_headroom (levels sublevels : list R) (lmin : R) (a : spk_array_t) :
  levels <> [] ->
  length (spk a) = length levels ->
  length (subs a) = length sublevels ->
  (forall g, g ∈ gains (spk a) -> 0 < g) ->
  exists a',
    update_gains lmin levels sublevels a = Ok a' /\
    length (spk a') = length (spk a) /\ length (subs a') = length (subs a) /\
    1 ∈ gains (spk a') /\
    (forall g, g ∈ gains (spk a') -> 0 < g <= 1) /\
    (forall j k Lj Lk gj gk gj' gk',
        levels !! j = Some Lj -> levels !! k = Some Lk ->
        gains (spk a) !! j = Some gj -> gains (spk a) !! k = Some gk ->
        gains (spk a') !! j = Some gj' -> gains (spk a') !! k = Some gk' ->
        gk' / gj' = gk / gj * pow10 ((Lj - Lk) / 20)).
Proof.
  intros Hne Hlv Hlw Hpos.
  destruct (scale_gains_spec lmin levels (spk a) Hlv) as (v1 & Hs1 & Hl1 & Hg1).
  destruct (scale_gains_spec lmin sublevels (subs a) Hlw) as (w1 & Hs2 & Hl2 & Hg2).
  assert (Hp1 : forall g, g ∈ gains v1 -> 0 < g).
  { intros g. rewrite Hg1. intros (k & Hk)%list_elem_of_lookup_1.
    rewrite lookup_zip_with in Hk.
    destruct (gains (spk a) !! k) as [g0|] eqn:E0; [|discriminate]. cbn in Hk.
    destruct (levels !! k) as [L|]; [|discriminate]. cbn in Hk. injection Hk as <-.
    apply Rmult_lt_0_compat; [|apply pow10_pos].
    apply Hpos. eapply list_elem_of_lookup_2; eauto. }
  destruct (max_gain_spec (length levels) v1) as (m & Hm & Hm0 & Hmub & Hmex); [lia|].
  assert (Hmpos : 0 < m).
  { destruct v1 as [|s0 v1'].
    - destruct levels; [congruence|]. cbn in Hl1, Hlv. lia.
    - assert (0 < gain s0) by (apply Hp1; cbn; left).
      assert (gain s0 <= m); [|lra].
      apply (Hmub 0%nat s0); [|reflexivity]. rewrite <- Hlv, <- Hl1. cbn. lia. }
  assert (Hmin : m ∈ gains v1).
  { destruct Hmex as [->|(k & s & _ & Hs & <-)]; [lra|].
    unfold gains. apply list_elem_of_fmap. exists s. split; [reflexivity|].
    eapply list_elem_of_lookup_2; eauto. }
  assert (Hmub' : forall g, g ∈ gains v1 -> g <= m).
  { intros g (s & -> & Hs)%list_elem_of_fmap.
    apply list_elem_of_lookup_1 in Hs as [k Hk].
    apply (Hmub k s); [|exact Hk]. apply lookup_lt_Some in Hk. lia. }
  destruct (divide_gains_spec m v1) as (v2 & Hd1 & Hl3 & Hg3).
  destruct (divide_gains_spec m w1) as (w2 & Hd2 & Hl4 & Hg4).
  rewrite Hl1, Hlv in Hd1. rewrite Hl2, Hlw in Hd2.
  exists (mk_array v2 w2). split.
  { unfold update_gains. rewrite Hs1. cbn. rewrite Hs2. cbn. rewrite Hm. cbn.
    rewrite Hd1. cbn. rewrite Hd2. reflexivity. }
  cbn [spk subs]. split; [congruence|]. split; [congruence|]. split; [|split].
  - rewrite Hg3. apply list_elem_of_fmap. exists m. split; [field; lra|exact Hmin].
  - intros g. rewrite Hg3. intros (g1 & -> & Hin)%list_elem_of_fmap.
    pose proof (Hp1 g1 Hin). pose proof (Hmub' g1 Hin). split.
    + now apply Rdiv_lt_0_compat.
    + apply (Rmult_le_reg_r m); [exact Hmpos|]. field_simplify; lra.
  - intros j k Lj Lk gj gk gj' gk' HLj HLk Hgj Hgk.
    rewrite Hg3, !list_lookup_fmap, Hg1, !lookup_zip_with, Hgj, Hgk, HLj, HLk. cbn.
    intros [= <-] [= <-].
    assert (0 < gj) by (apply Hpos; eapply list_elem_of_lookup_2; eauto).
    pose proof (pow10_pos (0.05 * (lmin - Lj))).
    replace ((Lj - Lk) / 20) with (0.05 * (lmin - Lk) - 0.05 * (lmin - Lj)) by lra.
    rewrite pow10_minus. field. lra.
Qed.

(** X12.  When the array has fewer speakers than there are levels, the
    first pass of the gain update indexes it out of range. *)
Theorem gain_update_out_of_range (levels sublevels : list R) (lmin : R) (a : spk_array_t) :
  (length (spk a) < length levels)%nat ->
  update_gains lmin levels sublevels a = Undefined.
Proof.
  intros H. unfold update_gains.
  rewrite (scale_gains_undefined lmin levels (spk a) H). reflexivity.
Qed.


(** ** Equalizer update of [get_levels] *)

Lemma update_eqs_zero (vF : list R) (vGains : list (list R)) (fs : R)
    (next : nat -> nat) (k : nat) (v : list spk_descriptor_t) :
  update_eqs 0 vF vGains fs next k v
  = Ok ((fun s => set_eq (spk_eq s) [] [] 0 s) <$> v).
Proof.
  revert k. induction v as [|s v IH]; intros k; [reflexivity|].
  cbn [update_eqs]. unfold update_eq. cbn [Z.eqb mbind outcome_bind].
  rewrite IH. reflexivity.
Qed.

Lemma update_eqs_bb_spec (fcomp : Z) (vF : list R) (vGains : list (list R)) (fs : R)
    (k : nat) (v : list spk_descriptor_t) :
  fcomp <> 0%Z -> (k + length v <= length vGains)%nat ->
  exists v', update_eqs fcomp vF vGains fs S k v = Ok v' /\
    length v' = length v /\
    forall i s', v' !! i = Some s' ->
      exists s g, v !! i = Some s /\ vGains !! (k + i)%nat = Some g /\
        s' = set_eq (optim_response (spk_eq s) fcomp vF g fs) vF g fcomp s.
Proof.
  intros Hf. revert k. induction v as [|s v IH]; intros k Hk.
  - exists []. split; [reflexivity|]. split; [reflexivity|]. intros i s' H. inversion H.
  - cbn [length] in Hk.
    destruct (IH (S k)) as (v' & Hv' & Hl & Hall); [lia|].
    destruct (lookup_lt_is_Some_2 vGains k) as [g Hg]; [lia|].
    cbn [update_eqs]. unfold update_eq, vec_at.
    destruct (Z.eqb_spec fcomp 0) as [E|_]; [contradiction|].
    rewrite Hg. cbn [mbind outcome_bind]. rewrite Hv'. cbn [mbind outcome_bind].
    eexists. split; [reflexivity|]. split; [cbn; lia|].
    intros [|i] s' Hi.
    + injection Hi as <-. exists s, g. rewrite Nat.add_0_r. auto.
    + cbn in Hi. destruct (Hall i s' Hi) as (s0 & g0 & H1 & H2 & H3).
      exists s0, g0. replace (k + S i)%nat with (S k + i)%nat by lia. auto.
Qed.

Lemma update_eqs_sub_spec (fcomp : Z) (vF : list R) (g0 : list R) (vGains : list (list R))
    (fs : R) (v : list spk_descriptor_t) :
  fcomp <> 0%Z ->
  update_eqs fcomp vF (g0 :: vGains) fs (fun k => k) 0%nat v
  = Ok ((fun s => set_eq (optim_response (spk_eq s) fcomp vF g0 fs) vF g0 fcomp s) <$> v).
Proof.
  intros Hf. induction v as [|s v IH]; [reflexivity|].
  cbn [update_eqs]. unfold update_eq, vec_at.
  destruct (Z.eqb_spec fcomp 0) as [E|_]; [contradiction|].
  cbn [lookup list_lookup mbind outcome_bind]. rewrite IH. reflexivity.
Qed.

(** X13.  The broadband equalizer loop of [get_levels]: with a stage count
    of 0 it empties [eqfreq] and [eqgain] and sets [eqstages] to 0 on every
    speaker, and leaves the filter itself and the gain as they are; with a
    nonzero stage count and a band-gain vector for every speaker it refits
    speaker [i] to [vGains[i]] and stores [vF], [vGains[i]] and the stage
    count; with a nonzero stage count and fewer band-gain vectors than
    speakers it indexes [vGains] out of range. *)
Theorem broadband_equalizer_update (fcomp : Z) (vF : list R) (vGains : list (list R))
    (fs : R) (v : list spk_descriptor_t) :
  (fcomp = 0%Z ->
     update_eqs fcomp vF vGains fs S 0 v
     = Ok ((fun s => set_eq (spk_eq s) [] [] 0 s) <$> v)) /\
  (fcomp <> 0%Z -> (length v <= length vGains)%nat ->
     exists v', update_eqs fcomp vF vGains fs S 0 v = Ok v' /\
       length v' = length v /\ gains v' = gains v /\
       forall i s', v' !! i = Some s' ->
         exists s g, v !! i = Some s /\ vGains !! i = Some g /\
           eqfreq s' = vF /\ eqgain s' = g /\ eqstages s' = fcomp /\
           spk_eq s' = optim_response (spk_eq s) fcomp vF g fs) /\
  (fcomp <> 0%Z -> (length vGains < length v)%nat ->
     update_eqs fcomp vF vGains fs S 0 v = Undefined).
Proof.
  split; [|split].
  - intros ->. apply update_eqs_zero.
  - intros Hf Hl.
    destruct (update_eqs_bb_spec fcomp vF vGains fs 0 v Hf) as (v' & Hv' & Hlen & Hall);
      [cbn; lia|].
    exists v'. split; [exact Hv'|]. split; [exact Hlen|]. split.
    + apply list_eq. intros i. unfold gains. rewrite !list_lookup_fmap.
      destruct (v' !! i) as [s'|] eqn:E.
      * destruct (Hall i s' E) as (s & g & -> & _ & ->). reflexivity.
      * apply lookup_ge_None in E. rewrite (lookup_ge_None_2 v i) by lia. reflexivity.
    + intros i s' Hi. destruct (Hall i s' Hi) as (s & g & H1 & H2 & ->).
      exists s, g. cbn in H2. auto 10.
  - intros Hf Hl.
    assert (H : forall v k, (k <= length vGains)%nat -> (length vGains < k + length v)%nat ->
                update_eqs fcomp vF vGains fs S k v = Undefined).
    { clear v Hl. induction v as [|s v IH]; intros k Hk1 Hk2; [cbn in Hk2; lia|].
      cbn [update_eqs length] in *. unfold update_eq, vec_at.
      destruct (Z.eqb_spec fcomp 0) as [E|_]; [contradiction|].
      destruct (vGains !! k) as [g|] eqn:Hg; [|reflexivity].
      cbn [mbind outcome_bind]. apply lookup_lt_Some in Hg.
      rewrite IH by lia. reflexivity. }
    apply H; lia.
Qed.


(** X14.  The subwoofer equalizer loop of [get_levels] never advances its
    index: with a nonzero stage count every subwoofer is refitted to the
    first band-gain vector, [vGainsSub[0]], whatever was measured for it;
    without any band-gain vector and with a subwoofer the loop indexes
    [vGainsSub] out of range. *)
Theorem subwoofer_equalizer_update (fcomp : Z) (vF : list R) (vGainsSub : list (list R))
    (fs : R) (v : list spk_descriptor_t) :
  fcomp <> 0%Z ->
  (forall g0 rest, vGainsSub = g0 :: rest ->
     exists v', update_eqs fcomp vF vGainsSub fs (fun k => k) 0 v = Ok v' /\
       length v' = length v /\
       forall i s', v' !! i = Some s' ->
         eqgain s' = g0 /\ eqfreq s' = vF /\ eqstages s' = fcomp) /\
  (vGainsSub = [] -> v <> [] ->
     update_eqs fcomp vF vGainsSub fs (fun k => k) 0 v = Undefined).
Proof.
  intros Hf. split.
  - intros g0 rest ->. rewrite update_eqs_sub_spec by exact Hf.
    eexists. split; [reflexivity|]. split; [apply length_fmap|].
    intros i s' Hi. rewrite list_lookup_fmap in Hi.
    destruct (v !! i); [|discriminate]. injection Hi as <-. auto.
  - intros -> Hv. destruct v as [|s v]; [congruence|].
    cbn [update_eqs]. unfold update_eq, vec_at.
    destruct (Z.eqb_spec fcomp 0) as [E|_]; [contradiction|]. reflexivity.
Qed.

(** ** Stage count arithmetic *)

(** X15.  For a stage limit [M >= 0] the stage count is between 0 and [M];
    with fewer than four bands (and at least one) it is 0, so no equalizer
    is fitted; with no band at all the unsigned subtraction wraps around
    and the count is [M] itself. *)
Theorem stage_count_bounds (B : nat) (M : Z) :
  (0 <= M)%Z ->
  (0 <= stage_count B M <= M)%Z /\
  ((1 <= B <= 3)%nat -> stage_count B M = 0%Z) /\
  (B = 0%nat -> (M <= 1431655765)%Z -> stage_count B M = M).
Proof.
  intros HM. split; [|split].
  - unfold stage_count, u32. split.
    + apply Z.min_glb; [|exact HM].
      apply Z.div_pos; [|lia]. apply Z.mod_pos_bound. lia.
    + apply Z.le_min_r.
  - intros HB. rewrite stage_count_in_range by lia.
    replace ((Z.of_nat B - 1) / 3)%Z with 0%Z; [lia|].
    symmetry. apply Z.div_small. lia.
  - intros -> HM'. apply stage_count_no_band. lia.
Qed.


(** ** Bookkeeping of [get_fresp_] and [get_levels_] *)

(** What a successful loop body of [get_fresp_] does besides the fit. *)
Lemma fresp_speaker_frame (nports : nat) (calibpar : spk_eq_param_t)
    (st st' : fresp_t) (s s' : spk_descriptor_t) :
  fresp_speaker nports calibpar st s = Ok (st', s') ->
  fr_jackrec st' = mk_jackrec (srate (fr_jackrec st)) (S (ncaptures (fr_jackrec st))) /\
  fr_src st' = set_dlocation (unitvector s) (fr_src st) /\
  gain s' = gain s /\ unitvector s' = unitvector s /\
  fr_vGain st' = fr_vGain st ++ [eqgain s'].
Proof.
  unfold fresp_speaker, jackrec_rec.
  destruct (normalized_response _ _ _ _ _) as [[vF vLmean]| |];
    cbn [mbind outcome_bind]; try discriminate.
  intros [= <- <-]. repeat split.
Qed.

Lemma fit_curve_length (B : nat) (calibpar : spk_eq_param_t) (fs : R)
    (chans : list wave_t) (ref : wave_t) (curve : list R) :
  length (snd (bandlevels ref calibpar fs)) = B ->
  is_fit_curve calibpar fs chans ref curve -> length curve = B.
Proof.
  intros HB (m & _ & _ & ->).
  now rewrite length_fmap, reference_minus_measurement_length.
Qed.

Lemma fresp_loop_accounting (B nports : nat) (calibpar : spk_eq_param_t) :
  (forall w fs, length (snd (bandlevels w calibpar fs)) = B) ->
  (1 <= B)%nat -> (2 <= nports)%nat ->
  (forall i, length (capture i) = nports) ->
  forall spks st,
    exists st' spks',
      fresp_loop nports calibpar st spks = Ok (st', spks') /\
      length spks' = length spks /\
      ncaptures (fr_jackrec st') = (ncaptures (fr_jackrec st) + length spks)%nat /\
      srate (fr_jackrec st') = srate (fr_jackrec st) /\
      fr_vGain st' = fr_vGain st ++ (eqgain <$> spks') /\
      Forall (fun s => length (eqgain s) = B) spks' /\
      gains spks' = gains spks /\
      unitvector <$> spks' = unitvector <$> spks /\
      src_mute (fr_src st') = src_mute (fr_src st) /\
      dlocation (fr_src st')
        = default (dlocation (fr_src st)) (unitvector <$> last spks).
Proof.
  intros HB HB1 Hn Hcap. induction spks as [|s spks IH]; intros st.
  - exists st, []. cbn. rewrite app_nil_r, Nat.add_0_r. repeat split. constructor.
  - destruct (fresp_speaker_spec B nports calibpar st s) as
      (ref & curve & st1 & s1 & _ & Hsp & Hfit & _ & _ & Hg & _);
      [intros w; apply HB|exact HB1|apply Hcap|exact Hn|].
    pose proof (fresp_speaker_frame _ _ _ _ _ _ Hsp) as (Hjr & Hsrc & Hgain & Huv & HvG).
    pose proof (fit_curve_length B _ _ _ _ _ (HB _ _) Hfit) as Hlen.
    destruct (IH st1) as (st2 & spks2 & Hloop & Hl & Hcnt & Hsr & HvG2 & Hall & Hgs & Huvs
                          & Hmute & Hloc).
    exists st2, (s1 :: spks2). cbn [fresp_loop]. rewrite Hsp. cbn [mbind outcome_bind].
    rewrite Hloop. cbn [mbind outcome_bind].
    split; [reflexivity|]. split; [cbn; lia|].
    split; [rewrite Hcnt, Hjr; cbn; lia|]. split; [rewrite Hsr, Hjr; reflexivity|].
    split; [rewrite HvG2, HvG; cbn; now rewrite <- app_assoc|].
    split; [constructor; [congruence|exact Hall]|].
    split; [unfold gains in *; cbn; congruence|]. split; [cbn; congruence|].
    split; [rewrite Hmute, Hsrc; reflexivity|].
    rewrite Hloc. clear IH Hloop Hl Hcnt HvG2 Hall Hgs Huvs Hloc.
    destruct spks as [|s' spks]; [cbn; now rewrite Hsrc|].
    change (last (s :: s' :: spks)) with (last (s' :: spks)).
    destruct (last (s' :: spks)) eqn:E; [reflexivity|].
    apply last_None in E. discriminate.
Qed.

(** X16.  With a nonzero stage limit, captures that fill all [nports >= 2]
    buffers and [B >= 1] bands per buffer, [get_fresp_] succeeds on every
    speaker array; it makes one capture per speaker, returns in [vGain]
    exactly the curves it stored in [eqgain] of the speakers, in order,
    each with [B] entries, keeps the gains and directions of the speakers,
    and leaves the source at the direction of the last speaker with its
    mute state unchanged. *)
Theorem get_fresp_bookkeeping (B nports : nat) (spks : list spk_descriptor_t)
    (src : src_object_t) (jr : jackrec2wave_t) (calibpar : spk_eq_param_t)
    (vF : list R) (vGain : list (list R)) :
  (forall w fs, length (snd (bandlevels w calibpar fs)) = B) ->
  (1 <= B)%nat -> (2 <= nports)%nat ->
  (forall i, length (capture i) = nports) ->
  max_eqstages calibpar <> 0%Z ->
  exists n spks' st,
    get_fresp_ spks src jr nports calibpar vF vGain = Ok (n, spks', st) /\
    length spks' = length spks /\
    ncaptures (fr_jackrec st) = (ncaptures jr + length spks)%nat /\
    srate (fr_jackrec st) = srate jr /\
    fr_vGain st = eqgain <$> spks' /\
    Forall (fun s => length (eqgain s) = B) spks' /\
    gains spks' = gains spks /\
    unitvector <$> spks' = unitvector <$> spks /\
    src_mute (fr_src st) = src_mute src /\
    dlocation (fr_src st) = default (dlocation src) (unitvector <$> last spks).
Proof.
  intros HB HB1 Hn Hcap HM. unfold get_fresp_.
  destruct (Z.eqb_spec (max_eqstages calibpar) 0) as [E|_]; [contradiction|].
  destruct (fresp_loop_accounting B nports calibpar HB HB1 Hn Hcap spks
              (mk_fresp src jr [] [] 0)) as (st' & spks' & -> & H).
  cbn [mbind outcome_bind]. exists (fr_numflt st'), spks', st'.
  split; [reflexivity|exact H].
Qed.

Lemma normalized_response_no_channel (recbuf : list wave_t) (calibpar : spk_eq_param_t)
    (fs : R) (vF : list R) :
  normalized_response recbuf 1 calibpar fs vF = Undefined.
Proof.
  unfold normalized_response, relative_response.
  cbn [Nat.sub for_index seq fold_left mbind outcome_bind mean_to_dB fmap list_fmap].
  destruct (back recbuf) as [ref|msg|] eqn:E; cbn [mbind outcome_bind]; try reflexivity.
  - destruct (bandlevels ref calibpar fs) as [vFr vLref].
    unfold ref_minus. cbn [length Nat.min for_index seq fold_left mbind outcome_bind].
    reflexivity.
  - unfold back in E. destruct (last recbuf); discriminate.
Qed.

(** X17.  Without a measurement channel ([ports] holds only the reference
    port, as with an empty list of reference ports), [get_fresp_] with a
    nonzero stage limit and at least one speaker reads [vLmean.back()] of
    an empty vector: its behaviour is undefined, whatever is captured. *)
Theorem get_fresp_no_measurement_channel (s0 : spk_descriptor_t)
    (spks : list spk_descriptor_t) (src : src_object_t) (jr : jackrec2wave_t)
    (calibpar : spk_eq_param_t) (vF : list R) (vGain : list (list R)) :
  max_eqstages calibpar <> 0%Z ->
  get_fresp_ (s0 :: spks) src jr 1 calibpar vF vGain = Undefined.
Proof.
  intros HM. unfold get_fresp_.
  destruct (Z.eqb_spec (max_eqstages calibpar) 0) as [E|_]; [contradiction|].
  cbn [fresp_loop]. unfold fresp_speaker, jackrec_rec.
  rewrite normalized_response_no_channel. reflexivity.
Qed.


Lemma sum_ms_spec (recbuf : list wave_t) (nports : nat) (fs dur : R) (w : weight_t) :
  (nports - 1 <= length recbuf)%nat ->
  sum_ms recbuf nports fs dur w = Ok (ms_sum recbuf nports fs dur w).
Proof.
  unfold sum_ms, ms_sum. generalize (nports - 1)%nat as n.
  induction n as [|n IH]; intros Hn; [reflexivity|].
  rewrite for_index_S, IH by lia. cbn [mbind outcome_bind].
  destruct (lookup_lt_is_Some_2 recbuf n) as [x Hx]; [lia|].
  unfold vec_at. rewrite Hx. cbn [mbind outcome_bind].
  rewrite seq_S, fold_left_app. reflexivity.
Qed.

Lemma fold_min2_spec (l : list R) (a : R) :
  let r := fold_left fmin2 l a in
  r <= a /\ (forall x, x ∈ l -> r <= x) /\ (r = a \/ r ∈ l).
Proof.
  revert a. induction l as [|y l IH]; intros a; cbn.
  - split; [lra|]. split; [|now left]. intros x Hx. inversion Hx.
  - destruct (IH (fmin2 a y)) as (H1 & H2 & H3). unfold fmin2 in *.
    pose proof (Rmin_l a y). pose proof (Rmin_r a y).
    split; [lra|]. split.
    + intros x Hx. apply elem_of_cons in Hx as [->|Hx]; [lra|now apply H2].
    + destruct H3 as [H3|H3]; [|right; now right].
      rewrite H3. unfold Rmin. destruct (Rle_dec a y); [now left|right; now left].
Qed.

Lemma vec_min_spec (v : list R) :
  v <> [] -> exists m, vec_min v = Ok m /\ m ∈ v /\ forall x, x ∈ v -> m <= x.
Proof.
  intros Hne. destruct (back_spec v Hne) as (b & Hb & Hin).
  unfold vec_min. rewrite Hb. cbn.
  destruct (fold_min2_spec v b) as (H1 & H2 & H3).
  eexists. split; [reflexivity|]. split; [|exact H2].
  destruct H3 as [->|H3]; assumption.
Qed.

(** The loop body of [get_levels_] for one speaker. *)
Lemma levels_speaker_spec (B nports : nat) (w : weight_t) (calibpar : spk_eq_param_t)
    (st : levels_t) (s : spk_descriptor_t) :
  let recbuf := capture (ncaptures (lv_jackrec st)) in
  let fs := srate (lv_jackrec st) in
  (forall x, length (snd (bandlevels x calibpar fs)) = B) ->
  (1 <= B)%nat -> length recbuf = nports -> (2 <= nports)%nat ->
  exists r, 0 <= r /\
    levels_speaker nports w calibpar st s
    = Ok (mk_levels (set_dlocation (unitvector s) (lv_src st))
            (mk_jackrec fs (S (ncaptures (lv_jackrec st))))
            (lv_levels st
             ++ [10 * log10 (ms_sum recbuf nports fs (duration calibpar) w / INR nports)])
            (lv_levelrange st ++ [r])).
Proof.
  intros recbuf fs HB HB1 Hlen Hn.
  destruct (last recbuf) as [ref|] eqn:Href.
  2:{ apply last_None in Href. rewrite Href in Hlen. cbn in Hlen. lia. }
  unfold levels_speaker, jackrec_rec. cbn [srate]. fold recbuf. fold fs.
  rewrite sum_ms_spec by lia. cbn [mbind outcome_bind].
  rewrite (relative_response_spec B recbuf nports calibpar fs [] ref HB Hlen Hn Href).
  cbn [mbind outcome_bind].
  match goal with |- context [vec_min ?v] => set (D := v) end.
  assert (HD : D <> []).
  { intros E. apply (f_equal length) in E. unfold D in E.
    rewrite length_fmap, reference_minus_measurement_length, HB in E. cbn in E. lia. }
  destruct (vec_min_spec D HD) as (lo & -> & Hlo & Hlb).
  destruct (vec_max_spec D HD) as (hi & -> & Hhi & Hub).
  cbn [mbind outcome_bind]. exists (hi - lo). split.
  - specialize (Hlb hi Hhi). lra.
  - unfold float_of_size. rewrite Hlen. reflexivity.
Qed.

Lemma levels_loop_accounting (B nports : nat) (w : weight_t) (calibpar : spk_eq_param_t) :
  (forall x fs, length (snd (bandlevels x calibpar fs)) = B) ->
  (1 <= B)%nat -> (2 <= nports)%nat ->
  (forall i, length (capture i) = nports) ->
  forall spks st,
    exists st',
      levels_loop nports w calibpar st spks = Ok st' /\
      ncaptures (lv_jackrec st') = (ncaptures (lv_jackrec st) + length spks)%nat /\
      srate (lv_jackrec st') = srate (lv_jackrec st) /\
      (exists ranges, lv_levelrange st' = lv_levelrange st ++ ranges /\
         length ranges = length spks /\ Forall (fun r => 0 <= r) ranges) /\
      lv_levels st' = lv_levels st
        ++ ((fun k => 10 * log10 (ms_sum (capture (ncaptures (lv_jackrec st) + k)) nports
                                    (srate (lv_jackrec st)) (duration calibpar) w
                                  / INR nports)) <$> seq 0 (length spks)) /\
      src_mute (lv_src st') = src_mute (lv_src st) /\
      dlocation (lv_src st')
        = default (dlocation (lv_src st)) (unitvector <$> last spks).
Proof.
  intros HB HB1 Hn Hcap. induction spks as [|s spks IH]; intros st.
  - exists st. cbn. rewrite app_nil_r, Nat.add_0_r. repeat split.
    exists []. rewrite app_nil_r. repeat split. constructor.
  - destruct (levels_speaker_spec B nports w calibpar st s) as (r & Hr & Hsp);
      [intros x; apply HB|exact HB1|apply Hcap|exact Hn|].
    cbn [levels_loop]. rewrite Hsp. cbn [mbind outcome_bind].
    match goal with |- context [levels_loop _ _ _ ?t _] => set (st1 := t) end.
    destruct (IH st1) as (st2 & Hloop & Hcnt & Hsr & (ranges & Hrg & Hrl & Hrp) & Hlv
                          & Hmute & Hloc).
    exists st2. split; [exact Hloop|].
    split; [rewrite Hcnt; cbn; lia|]. split; [rewrite Hsr; reflexivity|].
    split.
    { exists (r :: ranges). split; [rewrite Hrg; cbn; now rewrite <- app_assoc|].
      split; [cbn; lia|]. now constructor. }
    split.
    { rewrite Hlv. cbn [st1 lv_levels lv_jackrec ncaptures srate length seq fmap list_fmap].
      rewrite <- app_assoc. cbn [app]. rewrite Nat.add_0_r. do 2 f_equal.
      rewrite <- fmap_S_seq, <- list_fmap_compose.
      apply list_fmap_ext. intros _ k _. cbn.
      replace (ncaptures (lv_jackrec st) + S k)%nat
        with (S (ncaptures (lv_jackrec st) + k))%nat by lia. reflexivity. }
    split; [rewrite Hmute; reflexivity|].
    rewrite Hloc. clear IH Hloop Hcnt Hsr Hrg Hlv Hmute Hloc.
    destruct spks as [|s' spks]; [reflexivity|].
    change (last (s :: s' :: spks)) with (last (s' :: spks)).
    destruct (last (s' :: spks)) eqn:E; [reflexivity|].
    apply last_None in E. discriminate.
Qed.

(** X18.  With captures that fill all [nports >= 2] buffers and [B >= 1]
    bands per buffer, [get_levels_] succeeds on every speaker array, makes
    one capture per speaker and returns one level and one level range per
    speaker: the level of speaker [k] is [10 log10] of the mean-square
    values of the level meter summed over the measurement channels of its
    capture and divided by the number of buffers (reference channel
    included), and every level range is nonnegative. *)
Theorem get_levels_bookkeeping (B nports : nat) (w : weight_t) (calibpar : spk_eq_param_t)
    (spks : list spk_descriptor_t) (src : src_object_t) (jr : jackrec2wave_t) :
  (forall x fs, length (snd (bandlevels x calibpar fs)) = B) ->
  (1 <= B)%nat -> (2 <= nports)%nat ->
  (forall i, length (capture i) = nports) ->
  exists lv,
    get_levels_ spks src jr nports w calibpar = Ok lv /\
    ncaptures (lv_jackrec lv) = (ncaptures jr + length spks)%nat /\
    srate (lv_jackrec lv) = srate jr /\
    length (lv_levelrange lv) = length spks /\
    Forall (fun r => 0 <= r) (lv_levelrange lv) /\
    lv_levels lv
      = (fun k => 10 * log10 (ms_sum (capture (ncaptures jr + k)) nports (srate jr)
                                (duration calibpar) w / INR nports))
        <$> seq 0 (length spks) /\
    src_mute (lv_src lv) = src_mute src.
Proof.
  intros HB HB1 Hn Hcap. unfold get_levels_.
  destruct (levels_loop_accounting B nports w calibpar HB HB1 Hn Hcap spks
              (mk_levels src jr [] []))
    as (lv & Hlv & Hcnt & Hsr & (ranges & Hrg & Hrl & Hrp) & Hl & Hmute & _).
  exists lv. cbn [lv_levels lv_levelrange lv_jackrec lv_src app] in *.
  split; [exact Hlv|]. split; [exact Hcnt|]. split; [exact Hsr|].
  rewrite Hrg. split; [exact Hrl|]. split; [exact Hrp|]. split; [exact Hl|exact Hmute].
Qed.


(** ** More on [saveas] *)

(** Every successful run of [saveas], taken apart. *)
Lemma saveas_inv_full (fname now : string) (s s' : calibsession_t) (fs fs' : files) :
  saveas fname now s fs = Ok (s', fs') ->
  exists doc es eb,
    is_Ok (saveas_gains (levels (meas s)) (spk_file s)) /\
    fs !! spkname s = Some doc /\ root_name doc = "layout" /\
    layout_error (with_levels s doc) = None /\
    save_speakers (fcomp_bb (meas s)) (vF (meas s)) (vGains (meas s))
      (spk (spkpos (rec_spec (scene s)))) 0 (speaker_elems doc) = Ok es /\
    save_speakers (fcomp_sub (meas s)) (vFsub (meas s)) (vGainsSub (meas s))
      (subs (spkpos (rec_spec (scene s)))) 0 (sub_elems doc) = Ok eb /\
    s' = clear_flags s /\
    fs' = <[fname := saved_doc s now doc es eb]> fs.
Proof.
  unfold saveas, load_file.
  destruct (saveas_gains _ _) as [g| |] eqn:Hg; cbn [mbind outcome_bind]; try discriminate.
  destruct (fs !! spkname s) as [doc|] eqn:Hfs; cbn [mbind outcome_bind]; try discriminate.
  destruct (String.eqb_spec (root_name doc) "layout") as [E|_]; cbn [negb]; try discriminate.
  fold (with_levels s doc).
  destruct (layout_error (with_levels s doc)) eqn:Hval; try discriminate.
  cbn [with_levels speaker_elems sub_elems root_name root_attrs speakercalibconfig
       subcalibconfig].
  destruct (save_speakers (fcomp_bb (meas s)) _ _ _ _ _) as [es| |] eqn:Hes;
    cbn [mbind outcome_bind]; try discriminate.
  destruct (save_speakers (fcomp_sub (meas s)) _ _ _ _ _) as [eb| |] eqn:Heb;
    cbn [mbind outcome_bind]; try discriminate.
  intros [= <- <-]. exists doc, es, eb.
  split; [now exists g|]. repeat split; assumption.
Qed.

(** X19.  After a successful [saveas(fname)] the file system differs from
    the one before at [fname] only, so saving to another path than the one
    the layout was read from leaves the original file as it is; the saved
    document has root [layout] and as many [speaker] and [sub] elements as
    the loaded one; and [get_calibfor] on the saved file returns the
    [calibfor] string of the session. *)
Theorem saveas_files (fname now : string) (s s' : calibsession_t) (fs fs' : files) :
  saveas fname now s fs = Ok (s', fs') ->
  (forall p, p <> fname -> fs' !! p = fs !! p) /\
  (fname <> spkname s -> fs' !! spkname s = fs !! spkname s) /\
  get_calibfor fs' fname = Ok (calibfor s) /\
  exists doc doc',
    fs !! spkname s = Some doc /\ fs' !! fname = Some doc' /\
    root_name doc' = "layout" /\
    length (speaker_elems doc') = length (speaker_elems doc) /\
    length (sub_elems doc') = length (sub_elems doc) /\
    root_attrs doc' !! "calibdate" = Some (AStr now) /\
    root_attrs doc' !! "caliblevel" = Some (ANum (get_caliblevel s)) /\
    root_attrs doc' !! "diffusegain" = Some (ANum (get_diffusegain s)) /\
    (forall key, key <> "calibfor" -> key <> "calibdate" -> key <> "checksum" ->
       key <> "caliblevel" -> key <> "diffusegain" ->
       root_attrs doc' !! key = root_attrs doc !! key).
Proof.
  intros H.
  apply saveas_inv_full in H as (doc & es & eb & _ & Hfs & Hroot & _ & Hes & Heb & -> & ->).
  assert (Hlen : forall fcomp vF vG arr k elems r,
             save_speakers fcomp vF vG arr k elems = Ok r -> length r = length elems).
  { clear. intros fcomp vF vG arr k elems. revert k.
    induction elems as [|e elems IH]; intros k r; cbn [save_speakers].
    - now intros [= <-].
    - destruct (save_speaker _ _ _ _ _ _); cbn [mbind outcome_bind]; try discriminate.
      destruct (save_speakers _ _ _ _ _ _) eqn:E; cbn [mbind outcome_bind]; try discriminate.
      intros [= <-]. cbn. f_equal. eapply IH. exact E. }
  split; [|split; [|split]].
  - intros p Hp. now rewrite lookup_insert_ne by congruence.
  - intros Hp. now rewrite lookup_insert_ne by exact Hp.
  - unfold get_calibfor, load_file. rewrite lookup_insert_eq. cbn [mbind outcome_bind].
    unfold saved_doc. cbn [root_attrs]. now rewrite lookup_insert_eq.
  - exists doc, (saved_doc s now doc es eb).
    split; [exact Hfs|]. split; [apply lookup_insert_eq|].
    unfold saved_doc, with_levels. cbn [root_name root_attrs speaker_elems sub_elems].
    split; [exact Hroot|]. split; [eapply Hlen; exact Hes|]. split; [eapply Hlen; exact Heb|].
    split; [rewrite lookup_insert_ne by discriminate; apply lookup_insert_eq|].
    split; [rewrite !lookup_insert_ne by discriminate; apply lookup_insert_eq|].
    split; [rewrite !lookup_insert_ne by discriminate; apply lookup_insert_eq|].
    intros key H1 H2 H3 H4 H5. now rewrite !lookup_insert_ne by congruence.
Qed.


Lemma save_speakers_inv (fcomp : Z) (vF : list R) (vGains : list (list R))
    (arr : list spk_descriptor_t) (elems es : list attrs) (k : nat) :
  save_speakers fcomp vF vGains arr k elems = Ok es ->
  length es = length elems /\
  forall i e e', elems !! i = Some e -> es !! i = Some e' ->
    save_speaker fcomp vF vGains arr (k + i) e = Ok e'.
Proof.
  revert k es. induction elems as [|e0 elems IH]; intros k es; cbn [save_speakers].
  - intros [= <-]. split; [reflexivity|]. intros i e e' H. inversion H.
  - destruct (save_speaker fcomp vF vGains arr k e0) as [e1| |] eqn:E1;
      cbn [mbind outcome_bind]; try discriminate.
    destruct (save_speakers fcomp vF vGains arr (S k) elems) as [r| |] eqn:E2;
      cbn [mbind outcome_bind]; try discriminate.
    intros [= <-]. destruct (IH _ _ E2) as [Hl Hall]. split; [cbn; lia|].
    intros [|i] e e' He He'.
    + injection He as <-. injection He' as <-. now rewrite Nat.add_0_r.
    + cbn in He, He'. replace (k + S i)%nat with (S k + i)%nat by lia. now apply Hall.
Qed.

(** What [save_speaker] writes, read off a successful call. *)
Lemma save_speaker_inv (fcomp : Z) (vF : list R) (vGains : list (list R))
    (arr : list spk_descriptor_t) (k : nat) (e e' : attrs) :
  save_speaker fcomp vF vGains arr k e = Ok e' ->
  (exists t, arr !! Nat.min k (length arr - 1) = Some t /\
     e' !! "gain" = Some (ANum (20 * log10 (gain t)))) /\
  e' !! "eqstages" = Some (AUInt fcomp) /\
  ((0 < fcomp)%Z -> forall g, vGains !! k = Some g ->
     e' !! "eqfreq" = Some (AVec vF) /\ e' !! "eqgain" = Some (AVec g)) /\
  ((fcomp <= 0)%Z \/ (length vGains <= k)%nat ->
     e' !! "eqfreq" = Some (AStr EmptyString) /\ e' !! "eqgain" = Some (AStr EmptyString)) /\
  (forall key, key <> "gain" -> key <> "eqstages" -> key <> "eqfreq" ->
     key <> "eqgain" -> e' !! key = e !! key).
Proof.
  unfold save_speaker, vec_at.
  destruct (arr !! min_index k (length arr)) as [t|] eqn:Ht;
    cbn [mbind outcome_bind]; [|discriminate].
  assert (Ht' : arr !! Nat.min k (length arr - 1) = Some t).
  { destruct arr as [|a0 arr]; [discriminate|].
    cbn [min_index length] in Ht.
    replace (length (a0 :: arr) - 1)%nat with (length arr) by (cbn; lia). exact Ht. }
  destruct ((0 <? fcomp)%Z && (k <? length vGains)%nat) eqn:E.
  - apply andb_true_iff in E as [Hf%Z.ltb_lt Hk%Nat.ltb_lt].
    destruct (lookup_lt_is_Some_2 vGains k Hk) as [g Hg]. rewrite Hg.
    cbn [mbind outcome_bind]. intros [= <-].
    split; [exists t; split; [exact Ht'|]|split; [|split; [|split]]].
    + rewrite !lookup_insert_ne by discriminate. apply lookup_insert_eq.
    + rewrite !lookup_insert_ne by discriminate. apply lookup_insert_eq.
    + intros _ g' [= <-]. split.
      * rewrite lookup_insert_ne by discriminate. apply lookup_insert_eq.
      * apply lookup_insert_eq.
    + intros [H|H]; lia.
    + intros key H1 H2 H3 H4. now rewrite !lookup_insert_ne by congruence.
  - intros [= <-].
    split; [exists t; split; [exact Ht'|]|split; [|split; [|split]]].
    + rewrite !lookup_insert_ne by discriminate. apply lookup_insert_eq.
    + rewrite !lookup_insert_ne by discriminate. apply lookup_insert_eq.
    + intros Hf g Hg. apply lookup_lt_Some in Hg.
      apply andb_false_iff in E as [E|E].
      * apply Z.ltb_ge in E. lia.
      * apply Nat.ltb_ge in E. lia.
    + intros _. split.
      * rewrite lookup_insert_ne by discriminate. apply lookup_insert_eq.
      * apply lookup_insert_eq.
    + intros key H1 H2 H3 H4. now rewrite !lookup_insert_ne by congruence.
Qed.

(** X20.  What a successful [saveas] writes on the [k]-th [speaker]
    element: the stage count in [eqstages]; with a positive stage count and
    a band-gain vector for [k], the frequencies [vF] and the vector
    [vGains[k]]; with a stage count of 0 or no band-gain vector for [k],
    empty strings in [eqfreq] and [eqgain]; for an element beyond the
    receiver's last speaker, the gain of that last speaker; and every
    other attribute of the element as it was in the loaded document. *)
Theorem saveas_speaker_attributes (fname now : string) (s s' : calibsession_t)
    (fs fs' : files) :
  saveas fname now s fs = Ok (s', fs') ->
  let m := meas s in
  let arr := spk (spkpos (rec_spec (scene s))) in
  exists doc doc',
    fs !! spkname s = Some doc /\ fs' !! fname = Some doc' /\
    forall k e e', speaker_elems doc !! k = Some e -> speaker_elems doc' !! k = Some e' ->
      e' !! "eqstages" = Some (AUInt (fcomp_bb m)) /\
      ((0 < fcomp_bb m)%Z -> forall g, vGains m !! k = Some g ->
         e' !! "eqfreq" = Some (AVec (vF m)) /\ e' !! "eqgain" = Some (AVec g)) /\
      ((fcomp_bb m <= 0)%Z \/ (length (vGains m) <= k)%nat ->
         e' !! "eqfreq" = Some (AStr EmptyString) /\
         e' !! "eqgain" = Some (AStr EmptyString)) /\
      ((length arr <= k)%nat -> exists t, last arr = Some t /\
         e' !! "gain" = Some (ANum (20 * log10 (gain t)))) /\
      (forall key, key <> "gain" -> key <> "eqstages" -> key <> "eqfreq" ->
         key <> "eqgain" -> e' !! key = e !! key).
Proof.
  intros H m arr.
  apply saveas_inv_full in H as (doc & es & eb & _ & Hfs & _ & _ & Hes & _ & -> & ->).
  exists doc, (saved_doc s now doc es eb).
  split; [exact Hfs|]. split; [apply lookup_insert_eq|].
  intros k e e' He He'. cbn [saved_doc speaker_elems] in He'.
  apply save_speakers_inv in Hes as [_ Hall].
  specialize (Hall k e e' He He'). cbn [Nat.add] in Hall.
  apply save_speaker_inv in Hall as ((t & Ht & Hg) & Hst & Heq & Hno & Hother).
  split; [exact Hst|]. split; [exact Heq|]. split; [exact Hno|]. split; [|exact Hother].
  intros Hk. exists t. split; [|exact Hg].
  fold arr in Ht. rewrite last_lookup.
  replace (Nat.pred (length arr)) with (Nat.min k (length arr - 1)) by lia. exact Ht.
Qed.


Lemma saveas_gains_loop_ok (lmin : R) (levels : list R) (spk_file : list spk_descriptor_t)
    (n : nat) :
  (n <= length levels)%nat -> (n <= length spk_file)%nat ->
  exists g,
    for_index n
      (fun k gains =>
         s ← vec_at spk_file k; l ← vec_at levels k;
         Ok (gains ++ [20 * log10 (gain s) + lmin - l])) [] = Ok g.
Proof.
  induction n as [|n IH]; intros H1 H2; [eexists; reflexivity|].
  destruct IH as [g Hg]; [lia|lia|].
  destruct (lookup_lt_is_Some_2 spk_file n) as [s Hs]; [lia|].
  destruct (lookup_lt_is_Some_2 levels n) as [L HL]; [lia|].
  rewrite for_index_S, Hg. cbn [mbind outcome_bind]. unfold vec_at.
  rewrite Hs, HL. cbn [mbind outcome_bind]. eexists. reflexivity.
Qed.

Lemma saveas_gains_short_file (levels : list R) (spk_file : list spk_descriptor_t) :
  (length spk_file < length levels)%nat ->
  saveas_gains levels spk_file = Undefined.
Proof.
  intros Hlt.
  destruct (level_min_total levels) as [lmin Hmin].
  { intros ->. cbn in Hlt. lia. }
  rewrite (saveas_gains_unfold _ _ _ Hmin).
  assert (H : forall n, (length spk_file < n)%nat -> (n <= length levels)%nat ->
            for_index n
              (fun k gains =>
                 s ← vec_at spk_file k; l ← vec_at levels k;
                 Ok (gains ++ [20 * log10 (gain s) + lmin - l])) [] = Undefined).
  { induction n as [|n IH]; intros H1 H2; [lia|].
    rewrite for_index_S.
    destruct (decide (length spk_file < n)%nat) as [Hn|Hn].
    - rewrite IH by lia. reflexivity.
    - destruct (saveas_gains_loop_ok lmin levels spk_file n) as [g ->]; [lia|lia|].
      cbn [mbind outcome_bind]. unfold vec_at.
      rewrite (lookup_ge_None_2 spk_file n) by lia. reflexivity. }
  apply H; lia.
Qed.

(** X21.  [saveas] reads [levels[0]] and the gains of the speakers of the
    layout file before it opens any file: without a recorded level, or
    with more levels than the layout file has speakers, its behaviour is
    undefined, whatever the files are.  The same holds, after the file has
    been loaded and validated, when the document has a [speaker] element
    and the spec receiver has no speaker. *)
Theorem saveas_undefined (fname now : string) (s : calibsession_t) (fs : files) :
  (levels (meas s) = [] -> saveas fname now s fs = Undefined) /\
  ((length (spk_file s) < length (levels (meas s)))%nat ->
     saveas fname now s fs = Undefined) /\
  (forall doc,
     is_Ok (saveas_gains (levels (meas s)) (spk_file s)) ->
     fs !! spkname s = Some doc -> root_name doc = "layout" ->
     layout_error (with_levels s doc) = None ->
     speaker_elems doc <> [] -> spk (spkpos (rec_spec (scene s))) = [] ->
     saveas fname now s fs = Undefined).
Proof.
  split; [|split].
  - intros E. unfold saveas, saveas_gains. rewrite E. reflexivity.
  - intros H. unfold saveas. rewrite (saveas_gains_short_file _ _ H). reflexivity.
  - intros doc [g Hg] Hfs Hroot Hval Hel Harr.
    unfold saveas, load_file. rewrite Hg, Hfs. cbn [mbind outcome_bind].
    destruct (String.eqb_spec (root_name doc) "layout") as [_|E]; [|contradiction].
    cbn [negb]. fold (with_levels s doc). rewrite Hval.
    cbn [with_levels speaker_elems]. rewrite Harr.
    destruct (speaker_elems doc) as [|e es]; [congruence|].
    reflexivity.
Qed.

(** X22.  With recorded levels covered by the layout file, [saveas] throws
    when the file does not load, and throws the message of the layout
    validation when the loaded [layout] document does not validate; in
    both cases nothing is returned, so neither flags nor files change. *)
Theorem saveas_throws (fname now : string) (s : calibsession_t) (fs : files) :
  levels (meas s) <> [] ->
  (length (levels (meas s)) <= length (spk_file s))%nat ->
  (fs !! spkname s = None -> exists msg, saveas fname now s fs = Throw msg) /\
  (forall doc msg, fs !! spkname s = Some doc -> root_name doc = "layout" ->
     layout_error (with_levels s doc) = Some msg ->
     saveas fname now s fs = Throw msg).
Proof.
  intros Hne Hlen.
  destruct (level_min_total _ Hne) as [lmin Hmin].
  destruct (saveas_gains_spec _ _ _ Hmin Hlen) as (g & Hg & _).
  split.
  - intros Hfs. eexists. apply saveas_load_failure; [now exists g|exact Hfs].
  - intros doc msg Hfs Hroot Hval.
    unfold saveas, load_file. rewrite Hg, Hfs. cbn [mbind outcome_bind].
    destruct (String.eqb_spec (root_name doc) "layout") as [_|E]; [|contradiction].
    cbn [negb]. fold (with_levels s doc). rewrite Hval. reflexivity.
Qed.

(** [save_xml] finds or adds the child, writes the seven parameters
    [fmin], [fmax], [duration], [prewait], [reflevel], [bandsperoctave]
    and [bandoverlap] on it and keeps every other attribute of an existing
    child; [max_eqstages] is not among the attributes it writes. *)
Lemma save_xml_attributes (par : spk_eq_param_t) (child : option attrs) :
  exists e,
    save_xml par child = Some e /\
    e !! "fmin" = Some (ANum (fmin par)) /\
    e !! "fmax" = Some (ANum (fmax par)) /\
    e !! "duration" = Some (ANum (duration par)) /\
    e !! "prewait" = Some (ANum (prewait par)) /\
    e !! "reflevel" = Some (ANum (reflevel par)) /\
    e !! "bandsperoctave" = Some (ANum (bandsperoctave par)) /\
    e !! "bandoverlap" = Some (ANum (bandoverlap par)) /\
    e !! "max_eqstages" = (default ∅ child) !! "max_eqstages" /\
    (forall key, key <> "fmin" -> key <> "fmax" -> key <> "duration" ->
       key <> "prewait" -> key <> "reflevel" -> key <> "bandsperoctave" ->
       key <> "bandoverlap" -> e !! key = (default ∅ child) !! key).
Proof.
  eexists. split; [reflexivity|].
  repeat (split; [rewrite ?lookup_insert_ne by discriminate;
                  first [apply lookup_insert_eq | reflexivity]|]).
  intros key H1 H2 H3 H4 H5 H6 H7. now rewrite !lookup_insert_ne by congruence.
Qed.


(** ** The scene built by the constructor *)

Lemma set_calibfor_attributes_pairs (cf : string) (toks : list string)
    (pairs : list (string * string)) (e : attrs) :
  Forall2 (fun t p => Token.string_token t ":" = Some [p.1; p.2]) toks pairs ->
  set_calibfor_attributes cf toks e = Ok (apply_pairs pairs e).
Proof.
  intros H. revert e. induction H as [|t p toks pairs Ht _ IH]; intros e; [reflexivity|].
  cbn [set_calibfor_attributes]. unfold tokens_of. rewrite Ht.
  cbn [mbind outcome_bind]. apply IH.
Qed.

Lemma apply_pairs_snoc (pairs : list (string * string)) (p : string * string) (e : attrs) :
  apply_pairs (pairs ++ [p]) e = <[p.1 := AStr p.2]> (apply_pairs pairs e).
Proof. unfold apply_pairs. now rewrite foldl_app. Qed.

Lemma apply_pairs_lookup_other (pairs : list (string * string)) (e : attrs) (key : string) :
  key ∉ pairs.*1 -> apply_pairs pairs e !! key = e !! key.
Proof.
  revert e. induction pairs as [|p pairs IH]; intros e Hk; [reflexivity|].
  cbn [apply_pairs foldl]. fold (apply_pairs pairs (<[p.1 := AStr p.2]> e)).
  rewrite IH.
  - apply lookup_insert_ne. intros E. apply Hk. cbn. rewrite E. left.
  - intros Hin. apply Hk. cbn. now right.
Qed.

Lemma apply_pairs_lookup_last (before after : list (string * string))
    (key value : string) (e : attrs) :
  key ∉ after.*1 ->
  apply_pairs (before ++ (key, value) :: after) e !! key = Some (AStr value).
Proof.
  intros Hk. unfold apply_pairs. rewrite foldl_app. cbn [foldl].
  fold (apply_pairs before e).
  fold (apply_pairs after (<[(key, value).1 := AStr (key, value).2]> (apply_pairs before e))).
  rewrite apply_pairs_lookup_other by exact Hk. apply lookup_insert_eq.
Qed.

(** X23.  When every comma token of [calibfor] is a pair [name:value], the
    constructor sets the pairs on the spec receiver element one after the
    other: an attribute named by no pair keeps the value the constructor
    gave it ([name = out2], [mute = true], [layout] the file name), and an
    attribute named by a pair gets the value of the last pair with that
    name, also when this replaces [name], [mute] or [layout]. *)
Theorem calibfor_pairs_override (fs : files) (fname : string) (doc : xml_doc_t)
    (cf : string) (toks : list string) (pairs : list (string * string)) :
  fs !! fname = Some doc ->
  root_attrs doc !! "calibfor" = Some (AStr cf) ->
  cf <> EmptyString ->
  Token.string_token cf "," = Some toks ->
  Forall2 (fun t p => Token.string_token t ":" = Some [p.1; p.2]) toks pairs ->
  exists sx,
    build_scene fs fname = Ok (cf, sx) /\
    e_rcvr2 sx = apply_pairs pairs (spec_receiver_base fname) /\
    (forall key, key ∉ pairs.*1 ->
       e_rcvr2 sx !! key = spec_receiver_base fname !! key) /\
    (forall before after key value,
       pairs = before ++ (key, value) :: after -> key ∉ after.*1 ->
       e_rcvr2 sx !! key = Some (AStr value)).
Proof.
  intros Hfs Hattr Hne Htoks Hpairs.
  eexists. split.
  - unfold build_scene, get_calibfor, load_file. rewrite Hfs. cbn [mbind outcome_bind].
    rewrite Hattr. cbn [mbind outcome_bind].
    destruct (String.eqb_spec cf EmptyString) as [E|_]; [contradiction|].
    unfold tokens_of. rewrite Htoks. cbn [mbind outcome_bind].
    rewrite (set_calibfor_attributes_pairs _ _ _ _ Hpairs). cbn [mbind outcome_bind].
    reflexivity.
  - cbn [e_rcvr2]. split; [reflexivity|]. split.
    + intros key Hk. now apply apply_pairs_lookup_other.
    + intros before after key value -> Hk. now apply apply_pairs_lookup_last.
Qed.




(** ** The whole of [get_levels] *)

Lemma update_gains_ok (lmin : R) (levels sublevels : list R) (a : spk_array_t) :
  length (spk a) = length levels -> length (subs a) = length sublevels ->
  exists a', update_gains lmin levels sublevels a = Ok a' /\
    length (spk a') = length (spk a) /\ length (subs a') = length (subs a).
Proof.
  intros Hlv Hlw.
  destruct (scale_gains_spec lmin levels (spk a) Hlv) as (v1 & Hs1 & Hl1 & _).
  destruct (scale_gains_spec lmin sublevels (subs a) Hlw) as (w1 & Hs2 & Hl2 & _).
  destruct (max_gain_spec (length levels) v1) as (m & Hm & _); [lia|].
  destruct (divide_gains_spec m v1) as (v2 & Hd1 & Hl3 & _).
  destruct (divide_gains_spec m w1) as (w2 & Hd2 & Hl4 & _).
  rewrite Hl1, Hlv in Hd1. rewrite Hl2, Hlw in Hd2.
  exists (mk_array v2 w2). split.
  { unfold update_gains. rewrite Hs1. cbn. rewrite Hs2. cbn. rewrite Hm. cbn.
    rewrite Hd1. cbn. rewrite Hd2. reflexivity. }
  cbn [spk subs]. split; congruence.
Qed.

(** Whatever an equalizer loop of [get_levels] returns has the stage count
    on every speaker, and the gains it started from. *)
Lemma update_eqs_stages (fcomp : Z) (vF : list R) (vGains : list (list R)) (fs : R)
    (next : nat -> nat) (k : nat) (v v' : list spk_descriptor_t) :
  update_eqs fcomp vF vGains fs next k v = Ok v' ->
  length v' = length v /\ gains v' = gains v /\
  Forall (fun s => eqstages s = fcomp) v'.
Proof.
  revert k v'. induction v as [|s v IH]; intros k v'.
  - intros [= <-]. repeat split. constructor.
  - cbn [update_eqs].
    destruct (update_eq fcomp vF vGains fs k s) as [s'| |] eqn:Hs;
      cbn [mbind outcome_bind]; try discriminate.
    destruct (update_eqs fcomp vF vGains fs next (next k) v) as [r| |] eqn:Hr;
      cbn [mbind outcome_bind]; try discriminate.
    intros [= <-]. destruct (IH _ _ Hr) as (Hl & Hg & Hall).
    assert (Hs' : gain s' = gain s /\ eqstages s' = fcomp).
    { unfold update_eq in Hs. destruct (fcomp =? 0)%Z.
      - injection Hs as <-. split; reflexivity.
      - destruct (vec_at vGains k); cbn [mbind outcome_bind] in Hs; try discriminate.
        injection Hs as <-. split; reflexivity. }
    destruct Hs' as [Hg' Hst]. split; [cbn; lia|]. split.
    + unfold gains in *. cbn. congruence.
    + constructor; assumption.
Qed.

Lemma update_array_ok (m : meas_t) (fs : R) (a : spk_array_t) :
  length (spk a) = length (levels m) -> length (subs a) = length (sublevels m) ->
  (fcomp_bb m <> 0%Z -> (length (spk a) <= length (vGains m))%nat) ->
  (fcomp_sub m <> 0%Z -> subs a <> [] -> vGainsSub m <> []) ->
  exists a', update_array m fs a = Ok a' /\
    length (spk a') = length (spk a) /\ length (subs a') = length (subs a) /\
    Forall (fun s => eqstages s = fcomp_bb m) (spk a') /\
    Forall (fun s => eqstages s = fcomp_sub m) (subs a').
Proof.
  intros Hlv Hlw Hbb Hsub.
  destruct (update_gains_ok (lmin m) (levels m) (sublevels m) a Hlv Hlw)
    as (a1 & Ha1 & Hl1 & Hl2).
  assert (Hv : exists v, update_eqs (fcomp_bb m) (vF m) (vGains m) fs S 0 (spk a1) = Ok v).
  { destruct (Z.eq_dec (fcomp_bb m) 0%Z) as [E|E].
    - rewrite E, update_eqs_zero. eauto.
    - destruct (update_eqs_bb_spec (fcomp_bb m) (vF m) (vGains m) fs 0 (spk a1) E)
        as (v & Hv & _); [cbn; rewrite Hl1; now apply Hbb|]. eauto. }
  assert (Hw : exists w, update_eqs (fcomp_sub m) (vFsub m) (vGainsSub m) fs
                           (fun k => k) 0 (subs a1) = Ok w).
  { destruct (Z.eq_dec (fcomp_sub m) 0%Z) as [E|E].
    - rewrite E, update_eqs_zero. eauto.
    - destruct (subs a1) as [|s1 w1] eqn:Es; [cbn; eauto|].
      destruct (vGainsSub m) as [|g0 rest] eqn:Eg.
      + exfalso. apply (Hsub E); [|reflexivity].
        intros E0. rewrite E0 in Hl2. discriminate.
      + rewrite update_eqs_sub_spec by exact E. eauto. }
  destruct Hv as [v Hv]. destruct Hw as [w Hw].
  destruct (update_eqs_stages _ _ _ _ _ _ _ _ Hv) as (Hlv' & _ & Hsv).
  destruct (update_eqs_stages _ _ _ _ _ _ _ _ Hw) as (Hlw' & _ & Hsw).
  exists (mk_array v w). split.
  { unfold update_array. rewrite Ha1. cbn [mbind outcome_bind].
    rewrite Hv. cbn [mbind outcome_bind]. rewrite Hw. reflexivity. }
  cbn [spk subs]. repeat split; try assumption; congruence.
Qed.

(** [get_fresp_] followed by [get_levels_] on the same speakers. *)
Lemma measure_ok (B nports : nat) (w : weight_t) (calibpar : spk_eq_param_t)
    (spks : list spk_descriptor_t) (src : src_object_t) (jr : jackrec2wave_t)
    (vF0 : list R) (vG0 : list (list R)) :
  (forall x fs, length (snd (bandlevels x calibpar fs)) = B) ->
  (1 <= B)%nat -> (2 <= nports)%nat ->
  (forall i, length (capture i) = nports) ->
  exists n spks' fr lv,
    get_fresp_ spks src jr nports calibpar vF0 vG0 = Ok (n, spks', fr) /\
    get_levels_ spks' (fr_src fr) (fr_jackrec fr) nports w calibpar = Ok lv /\
    length spks' = length spks /\
    length (lv_levels lv) = length spks /\
    length (lv_levelrange lv) = length spks /\
    srate (lv_jackrec lv) = srate jr /\
    ncaptures (lv_jackrec lv)
      = (ncaptures jr + captures_per_speaker calibpar * length spks)%nat /\
    src_mute (lv_src lv) = src_mute src /\
    (n <> 0%Z -> length (fr_vGain fr) = length spks).
Proof.
  intros HB HB1 Hn Hcap. unfold get_fresp_, get_levels_, captures_per_speaker.
  destruct (Z.eqb_spec (max_eqstages calibpar) 0) as [E|E].
  - destruct (levels_loop_accounting B nports w calibpar HB HB1 Hn Hcap spks
                (mk_levels src jr [] []))
      as (lv & Hlv & Hcnt & Hsr & (ranges & Hrg & Hrl & _) & Hl & Hmute & _).
    exists 0%Z, spks, (mk_fresp src jr vF0 vG0 0%Z), lv.
    cbn [fr_src fr_jackrec fr_vGain lv_levels lv_levelrange lv_jackrec lv_src app] in *.
    split; [reflexivity|]. split; [exact Hlv|]. split; [reflexivity|].
    split; [rewrite Hl, length_fmap, length_seq; reflexivity|].
    split; [rewrite Hrg; exact Hrl|]. split; [exact Hsr|].
    split; [rewrite Hcnt; lia|]. split; [exact Hmute|]. intros H. now contradiction H.
  - destruct (fresp_loop_accounting B nports calibpar HB HB1 Hn Hcap spks
                (mk_fresp src jr [] [] 0%Z))
      as (st & spks' & Hfr & Hlen & Hcnt & Hsr & HvG & _ & _ & _ & Hmute & _).
    destruct (levels_loop_accounting B nports w calibpar HB HB1 Hn Hcap spks'
                (mk_levels (fr_src st) (fr_jackrec st) [] []))
      as (lv & Hlv & Hcnt2 & Hsr2 & (ranges & Hrg & Hrl & _) & Hl & Hmute2 & _).
    exists (fr_numflt st), spks', st, lv. rewrite Hfr. cbn [mbind outcome_bind].
    cbn [fr_src fr_jackrec fr_vGain lv_levels lv_levelrange lv_jackrec lv_src app] in *.
    split; [reflexivity|]. split; [exact Hlv|]. split; [exact Hlen|].
    split; [rewrite Hl, length_fmap, length_seq; exact Hlen|].
    split; [rewrite Hrg, Hrl; exact Hlen|]. split; [congruence|].
    split; [rewrite Hcnt2, Hcnt, Hlen; lia|]. split; [congruence|].
    intros _. rewrite HvG, length_fmap. exact Hlen.
Qed.

Lemma fold_level_max_spec (l : list R) (a : R) :
  let r := fold_left (fun lmax x => fmax2 x lmax) l a in
  a <= r /\ (forall x, x ∈ l -> x <= r).
Proof.
  revert a. induction l as [|y l IH]; intros a; cbn.
  - split; [lra|]. intros x Hx. inversion Hx.
  - destruct (IH (fmax2 y a)) as (H1 & H2). unfold fmax2 in *.
    pose proof (Rmax_l y a). pose proof (Rmax_r y a).
    split; [lra|].
    intros x Hx. apply elem_of_cons in Hx as [->|Hx]; [lra|now apply H2].
Qed.

Lemma level_stats_spec (s : calibsession_t) :
  levels (meas s) <> [] ->
  exists lo hi,
    level_stats s
    = Ok (set_meas (mk_meas (levels (meas s)) (sublevels (meas s)) (levelsfrg (meas s))
                      (sublevelsfrg (meas s)) lo hi (level_mean (levels (meas s)))
                      (fcomp_bb (meas s)) (fcomp_sub (meas s)) (vF (meas s))
                      (vFsub (meas s)) (vGains (meas s)) (vGainsSub (meas s))) s) /\
    lo ∈ levels (meas s) /\
    forall L, L ∈ levels (meas s) -> lo <= L <= hi.
Proof.
  intros Hne. unfold level_stats.
  destruct (level_min_total _ Hne) as [lo Hlo]. rewrite Hlo. cbn [mbind outcome_bind].
  destruct (level_min_spec _ _ Hlo) as [Hin Hlb].
  destruct (levels (meas s)) as [|l0 ls] eqn:E; [congruence|].
  unfold level_max, vec_at.
  change ((l0 :: ls) !! 0%nat) with (Some l0). cbn [mbind outcome_bind].
  destruct (fold_level_max_spec (l0 :: ls) l0) as [_ Hub].
  eexists lo, _. split; [reflexivity|]. split; [exact Hin|].
  intros L HL. split; [now apply Hlb|now apply Hub].
Qed.


Ltac crunch :=
  cbv [run exec fold_left get_levels_phase_bb get_levels_phase_sub
       get_levels_phase_end set_mute reset_location set_jackrec set_meas set_scene
       set_spkpos set_rec_mute set_src_mute set_dlocation set_levelsrecorded set_flags
       flags startlevel startdiffgain delta delta_diff spkname spk_file par_speaker
       par_sub refport_ calibfor jackrec meas scene
       src_bb src_sub diff_mute rec_nsp rec_spec rec_mute caliblevel diffusegain spkpos
       spk subs src_mute dlocation
       levels sublevels levelsfrg sublevelsfrg lmin lmax lmean fcomp_bb fcomp_sub vF vFsub
       vGains vGainsSub gainmodified levelsrecorded calibrated calibrated_diff].
Tactic Notation "crunch" "in" hyp(H) :=
  cbv [levels sublevels levelsfrg sublevelsfrg lmin lmax lmean fcomp_bb fcomp_sub vF vFsub
       vGains vGainsSub meas set_meas spk subs] in H.

(** X25.  [get_levels] as a whole.  With at least one reference port,
    captures that fill all buffers, at least one band per buffer, at least
    one broadband speaker, two speaker arrays of the same sizes and no
    subwoofer levels left over for a layout without subwoofers,
    [get_levels] returns.  Afterwards [levelsrecorded] is set and no other
    flag has changed; there is one level per broadband speaker and one per
    subwoofer; [lmin] is one of the levels and every level lies between
    [lmin] and [lmax]; the recorder has made one capture per speaker for
    the levels and one more per speaker for each group whose stage limit
    is not 0; both sources are muted at the front position, the nsp
    receiver is unmuted and the spec receiver muted; both arrays keep
    their sizes, and every broadband speaker of both arrays carries the
    stage count [fcomp_bb]. *)
Theorem get_levels_completes (B Bsub : nat) (s : calibsession_t) :
  refport_ s <> [] ->
  (forall i, length (capture i) = S (length (refport_ s))) ->
  (forall x fs, length (snd (bandlevels x (par_speaker s) fs)) = B) -> (1 <= B)%nat ->
  (forall x fs, length (snd (bandlevels x (par_sub s) fs)) = Bsub) -> (1 <= Bsub)%nat ->
  spk (spkpos (rec_nsp (scene s))) <> [] ->
  length (spk (spkpos (rec_spec (scene s)))) = length (spk (spkpos (rec_nsp (scene s)))) ->
  length (subs (spkpos (rec_spec (scene s)))) = length (subs (spkpos (rec_nsp (scene s)))) ->
  (subs (spkpos (rec_nsp (scene s))) = [] -> sublevels (meas s) = []) ->
  exists s',
    get_levels s = Ok s' /\
    flags s' = mk_flags (gainmodified (flags s)) true (calibrated (flags s))
                 (calibrated_diff (flags s)) /\
    length (levels (meas s')) = length (spk (spkpos (rec_nsp (scene s)))) /\
    length (sublevels (meas s')) = length (subs (spkpos (rec_nsp (scene s)))) /\
    lmin (meas s') ∈ levels (meas s') /\
    (forall L, L ∈ levels (meas s') -> lmin (meas s') <= L <= lmax (meas s')) /\
    ncaptures (jackrec s')
      = (ncaptures (jackrec s)
         + captures_per_speaker (par_speaker s) * length (spk (spkpos (rec_nsp (scene s))))
         + captures_per_speaker (par_sub s) * length (subs (spkpos (rec_nsp (scene s)))))%nat /\
    src_bb (scene s') = mk_src true front /\
    src_sub (scene s') = mk_src true front /\
    rec_mute (rec_nsp (scene s')) = false /\
    rec_mute (rec_spec (scene s')) = true /\
    length (spk (spkpos (rec_nsp (scene s')))) = length (spk (spkpos (rec_nsp (scene s)))) /\
    length (spk (spkpos (rec_spec (scene s')))) = length (spk (spkpos (rec_nsp (scene s)))) /\
    Forall (fun x => eqstages x = fcomp_bb (meas s')) (spk (spkpos (rec_nsp (scene s')))) /\
    Forall (fun x => eqstages x = fcomp_bb (meas s')) (spk (spkpos (rec_spec (scene s')))).
Proof.
  intros Href Hcap HB HB1 HBs HBs1 Hspk Hlen Hlens Hstale.
  assert (Hn : (2 <= length (refport_ s) + 1)%nat).
  { destruct (refport_ s); [congruence|cbn; lia]. }
  assert (Hcap' : forall i, length (capture i) = (length (refport_ s) + 1)%nat).
  { intros i. rewrite Hcap. lia. }
  unfold get_levels, measure_bb.
  destruct s as [fl sl sd dl dd nm sf ps pb rp cf jr m sc].
  destruct sc as [sb ss dm rn rs]. destruct rn as [mn cn dn an]. destruct rs as [mr cr dr ar].
  destruct an as [nv nw]. destruct ar as [rv rw]. destruct sb as [mb db].
  destruct ss as [ms ds]. destruct fl as [g1 g2 g3 g4].
  destruct m as [lv0 sl0 lf0 sf0 lo0 hi0 me0 fb0 fs0 vF0 vFs0 vG0 vGs0].
  cbn [refport_ par_speaker par_sub scene meas flags jackrec rec_nsp rec_spec spkpos spk subs
       sublevels gainmodified calibrated calibrated_diff] in *.
  crunch.
  (* broadband measurement *)
  destruct (measure_ok B (length rp + 1) weight_C ps nv (mk_src false db) jr
              vF0 vG0 HB HB1 Hn Hcap')
    as (n1 & nv1 & fr1 & lv1 & Hf1 & Hg1 & Hl1 & Hll1 & Hlr1 & Hsr1 & Hc1 & Hm1 & HvG1).
  rewrite Hf1. cbn [mbind outcome_bind]. rewrite Hg1. cbn [mbind outcome_bind].
  unfold has_subs. crunch.
  assert (Hne : lv_levels lv1 <> []).
  { intros E. rewrite E in Hll1. destruct nv; [congruence|discriminate]. }
  destruct nw as [|w0 nw'].
  - (* no subwoofer *)
    cbn [mbind outcome_bind]. crunch.
    match goal with |- context [level_stats ?t] => set (s3 := t) end.
    destruct (level_stats_spec s3 Hne) as (lo & hi & Hst & Hlo & Hbnd).
    rewrite Hst. cbn [mbind outcome_bind]. unfold get_levels_update, for_both.
    subst s3. crunch. crunch in Hlo. crunch in Hbnd.
    assert (Hsl : sl0 = []) by (apply Hstale; reflexivity). subst sl0.
    match goal with |- context [update_array ?mm ?ff _] => set (m4 := mm); set (f4 := ff) end.
    destruct (update_array_ok m4 f4 (mk_array nv1 [])) as (a1 & Ha1 & Hla1 & _ & Hsa1 & _).
    { unfold m4. crunch. congruence. }
    { reflexivity. }
    { unfold m4. crunch. intros H. rewrite (HvG1 H). lia. }
    { crunch. intros _ H. now contradiction H. }
    destruct (update_array_ok m4 f4 (mk_array rv rw)) as (a2 & Ha2 & Hla2 & _ & Hsa2 & _).
    { unfold m4. crunch. congruence. }
    { unfold m4. crunch. exact Hlens. }
    { unfold m4. crunch. intros H. rewrite (HvG1 H). lia. }
    { crunch. intros _ H. destruct rw; [now contradiction H|discriminate]. }
    rewrite Ha1. cbn [mbind outcome_bind]. rewrite Ha2. cbn [mbind outcome_bind].
    destruct a1 as [v1 w1]. destruct a2 as [v2 w2].
    unfold m4 in Hsa1, Hsa2. crunch in Hsa1. crunch in Hsa2. crunch in Hla1. crunch in Hla2.
    eexists. split; [reflexivity|]. crunch.
    split; [reflexivity|]. split; [exact Hll1|]. split; [reflexivity|].
    split; [exact Hlo|]. split; [exact Hbnd|]. split; [rewrite Hc1; cbn [length]; lia|].
    split; [reflexivity|]. split; [reflexivity|]. split; [reflexivity|].
    split; [reflexivity|]. split; [congruence|]. split; [congruence|].
    split; [exact Hsa1|exact Hsa2].
  - (* with subwoofers *)
    unfold measure_sub. crunch.
    destruct (measure_ok Bsub (length rp + 1) weight_Z pb (w0 :: nw')
                (mk_src false ds) (lv_jackrec lv1) vFs0 vGs0 HBs HBs1 Hn Hcap')
      as (n2 & nw2 & fr2 & lv2 & Hf2 & Hg2 & Hl2 & Hll2 & Hlr2 & Hsr2 & Hc2 & Hm2 & HvG2).
    rewrite Hf2. cbn [mbind outcome_bind]. rewrite Hg2. cbn [mbind outcome_bind]. crunch.
    match goal with |- context [level_stats ?t] => set (s3 := t) end.
    destruct (level_stats_spec s3 Hne) as (lo & hi & Hst & Hlo & Hbnd).
    rewrite Hst. cbn [mbind outcome_bind]. unfold get_levels_update, for_both.
    subst s3. crunch. crunch in Hlo. crunch in Hbnd.
    match goal with |- context [update_array ?mm ?ff _] => set (m4 := mm); set (f4 := ff) end.
    destruct (update_array_ok m4 f4 (mk_array nv1 nw2)) as (a1 & Ha1 & Hla1 & _ & Hsa1 & _).
    { unfold m4. crunch. congruence. }
    { unfold m4. crunch. congruence. }
    { unfold m4. crunch. intros H. rewrite (HvG1 H). lia. }
    { unfold m4. crunch. intros H _ E. specialize (HvG2 H). rewrite E in HvG2.
      discriminate. }
    destruct (update_array_ok m4 f4 (mk_array rv rw)) as (a2 & Ha2 & Hla2 & _ & Hsa2 & _).
    { unfold m4. crunch. congruence. }
    { unfold m4. crunch. congruence. }
    { unfold m4. crunch. intros H. rewrite (HvG1 H). lia. }
    { unfold m4. crunch. intros H _ E. specialize (HvG2 H). rewrite E in HvG2.
      discriminate. }
    rewrite Ha1. cbn [mbind outcome_bind]. rewrite Ha2. cbn [mbind outcome_bind].
    destruct a1 as [v1 w1]. destruct a2 as [v2 w2].
    unfold m4 in Hsa1, Hsa2. crunch in Hsa1. crunch in Hsa2. crunch in Hla1. crunch in Hla2.
    eexists. split; [reflexivity|]. crunch.
    split; [reflexivity|]. split; [exact Hll1|]. split; [exact Hll2|].
    split; [exact Hlo|]. split; [exact Hbnd|]. split; [rewrite Hc2, Hc1; lia|].
    split; [reflexivity|]. split; [reflexivity|]. split; [reflexivity|].
    split; [reflexivity|]. split; [congruence|]. split; [congruence|].
    split; [exact Hsa1|exact Hsa2].
Qed.


Lemma levels_speaker_no_channel (w : weight_t) (calibpar : spk_eq_param_t)
    (st : levels_t) (s : spk_descriptor_t) :
  levels_speaker 1 w calibpar st s = Undefined.
Proof.
  unfold levels_speaker, jackrec_rec, sum_ms, relative_response.
  cbn [Nat.sub for_index seq fold_left mbind outcome_bind mean_to_dB fmap list_fmap].
  destruct (back (capture (ncaptures (lv_jackrec st)))) as [ref|msg|] eqn:E;
    cbn [mbind outcome_bind]; try reflexivity.
  - destruct (bandlevels ref calibpar _) as [vFr vLref].
    unfold ref_minus. cbn [length Nat.min for_index seq fold_left mbind outcome_bind].
    reflexivity.
  - unfold back in E. destruct (last _); discriminate.
Qed.

(** X26.  Without a measurement port ([refport_] empty, so that [ports]
    holds only the reference port) and with at least one broadband
    speaker, [get_levels] takes [back()] of an empty vector, in
    [get_fresp_] or, with a stage limit of 0, in [get_levels_]: its
    behaviour is undefined, whatever is captured. *)
Theorem get_levels_without_measurement_port (s : calibsession_t) :
  refport_ s = [] ->
  spk (spkpos (rec_nsp (scene s))) <> [] ->
  get_levels s = Undefined.
Proof.
  intros Href Hspk. unfold get_levels, measure_bb.
  destruct s as [fl sl sd dl dd nm sf ps pb rp cf jr m sc].
  destruct sc as [sb ss dm rn rs]. destruct rn as [mn cn dn an]. destruct rs as [mr cr dr ar].
  destruct an as [nv nw]. destruct ar as [rv rw]. destruct sb as [mb db].
  destruct ss as [ms ds]. destruct fl as [g1 g2 g3 g4].
  destruct m as [lv0 sl0 lf0 sf0 lo0 hi0 me0 fb0 fs0 vF0 vFs0 vG0 vGs0].
  cbn [refport_ scene rec_nsp spkpos spk] in *. subst rp.
  destruct nv as [|s0 nv]; [congruence|].
  crunch. cbn [length Nat.add].
  unfold get_fresp_.
  destruct (Z.eqb_spec (max_eqstages ps) 0) as [E|E].
  - cbn [mbind outcome_bind fr_src fr_jackrec]. unfold get_levels_. cbn [levels_loop].
    rewrite levels_speaker_no_channel. reflexivity.
  - cbn [fresp_loop]. unfold fresp_speaker, jackrec_rec.
    rewrite normalized_response_no_channel. reflexivity.
Qed.

(** X27.  On a layout without broadband speakers [get_levels] measures
    the subwoofers, if there are any, and then reads [levels[0]] of the
    empty vector of broadband levels: its behaviour is undefined. *)
Theorem get_levels_without_broadband_speakers (Bsub : nat) (s : calibsession_t) :
  refport_ s <> [] ->
  (forall i, length (capture i) = S (length (refport_ s))) ->
  (forall x fs, length (snd (bandlevels x (par_sub s) fs)) = Bsub) -> (1 <= Bsub)%nat ->
  spk (spkpos (rec_nsp (scene s))) = [] ->
  get_levels s = Undefined.
Proof.
  intros Href Hcap HBs HBs1 Hspk.
  assert (Hn : (2 <= length (refport_ s) + 1)%nat).
  { destruct (refport_ s); [congruence|cbn; lia]. }
  assert (Hcap' : forall i, length (capture i) = (length (refport_ s) + 1)%nat).
  { intros i. rewrite Hcap. lia. }
  unfold get_levels, measure_bb.
  destruct s as [fl sl sd dl dd nm sf ps pb rp cf jr m sc].
  destruct sc as [sb ss dm rn rs]. destruct rn as [mn cn dn an]. destruct rs as [mr cr dr ar].
  destruct an as [nv nw]. destruct ar as [rv rw]. destruct sb as [mb db].
  destruct ss as [ms ds]. destruct fl as [g1 g2 g3 g4].
  destruct m as [lv0 sl0 lf0 sf0 lo0 hi0 me0 fb0 fs0 vF0 vFs0 vG0 vGs0].
  cbn [refport_ par_sub scene rec_nsp spkpos spk] in *. subst nv.
  crunch.
  assert (Hbb : exists n fr,
             get_fresp_ [] (mk_src false db) jr (length rp + 1) ps vF0 vG0 = Ok (n, [], fr) /\
             fr_src fr = mk_src false db /\ fr_jackrec fr = jr).
  { unfold get_fresp_. destruct (max_eqstages ps =? 0)%Z; cbn; eauto. }
  destruct Hbb as (n1 & fr1 & Hf1 & Hs1 & Hj1). rewrite Hf1. cbn [mbind outcome_bind].
  unfold get_levels_ at 1. cbn [levels_loop mbind outcome_bind lv_levels lv_levelrange
                                 lv_jackrec lv_src].
  unfold has_subs. crunch.
  destruct nw as [|w0 nw'].
  - cbn [mbind outcome_bind]. crunch. reflexivity.
  - unfold measure_sub. crunch.
    destruct (measure_ok Bsub (length rp + 1) weight_Z pb (w0 :: nw')
                (mk_src false ds) (fr_jackrec fr1) vFs0 vGs0 HBs HBs1 Hn Hcap')
      as (n2 & nw2 & fr2 & lv2 & Hf2 & Hg2 & _).
    rewrite Hf2. cbn [mbind outcome_bind]. rewrite Hg2. cbn [mbind outcome_bind]. crunch.
    reflexivity.
Qed.


(** ** Reading back what [saveas] wrote *)

Lemma read_saved_child (saved par : spk_eq_param_t) (child : option attrs) (e : attrs) :
  save_xml saved child = Some e ->
  get_attribute e "fmin" (fmin par) = Some (fmin saved) /\
  get_attribute e "fmax" (fmax par) = Some (fmax saved) /\
  get_attribute e "duration" (duration par) = Some (duration saved) /\
  get_attribute e "prewait" (prewait par) = Some (prewait saved) /\
  get_attribute e "reflevel" (reflevel par) = Some (reflevel saved) /\
  get_attribute e "bandsperoctave" (bandsperoctave par) = Some (bandsperoctave saved) /\
  get_attribute e "bandoverlap" (bandoverlap par) = Some (bandoverlap saved).
Proof.
  unfold save_xml. intros [= <-]. unfold get_attribute.
  repeat split;
    repeat (rewrite lookup_insert_ne by discriminate); rewrite lookup_insert_eq; reflexivity.
Qed.

(** X28.  Reading back what [saveas] wrote.  For a session whose speaker
    parameters are marked as broadband and whose subwoofer parameters are
    marked as subwoofer, [read_xml] on the document stored by a successful
    [saveas] returns, for any parameter object, the seven values of the
    session's parameters of the same kind: the two kinds are kept in
    different children and do not overwrite each other.  The stage limit
    is not stored: it stays as it was in the reading object.  Reading does
    not change the stored document. *)
Theorem saveas_parameters_read_back (fname now : string) (s s' : calibsession_t)
    (fs fs' : files) :
  saveas fname now s fs = Ok (s', fs') ->
  issub (par_speaker s) = false -> issub (par_sub s) = true ->
  exists doc',
    fs' !! fname = Some doc' /\
    forall par,
      read_xml par doc'
      = Some (with_saved_values (if issub par then par_sub s else par_speaker s) par, doc').
Proof.
  intros H Hspk Hsub.
  apply saveas_inv_full in H as (doc & es & eb & _ & _ & _ & _ & _ & _ & -> & ->).
  exists (saved_doc s now doc es eb). split; [apply lookup_insert_eq|].
  intros par. unfold read_xml, calib_child, set_calib_child, saved_doc, with_saved_values.
  cbn [speakercalibconfig subcalibconfig root_name root_attrs speaker_elems sub_elems].
  destruct (issub par).
  - destruct (save_xml (par_sub s) (subcalibconfig doc)) as [e|] eqn:E; [|discriminate].
    cbn [from_option]. unfold Datatypes.id. destruct (read_saved_child _ par _ _ E) as (-> & -> & -> & -> & -> & -> & ->).
    reflexivity.
  - destruct (save_xml (par_speaker s) (speakercalibconfig doc)) as [e|] eqn:E;
      [|discriminate].
    cbn [from_option]. unfold Datatypes.id. destruct (read_saved_child _ par _ _ E) as (-> & -> & -> & -> & -> & -> & ->).
    reflexivity.
Qed.

End Session.

(** * Instances *)

Lemma example_level_min : level_min [70; 72]%R = Ok 70%R.
Proof.
  unfold level_min, vec_at. cbn. f_equal.
  unfold fmin2, Rmin. repeat destruct (Rle_dec _ _); lra.
Qed.

Lemma example_unit_gains (g : R) : g ∈ gains (spk example_array) -> g = 1%R.
Proof.
  cbn. intros H.
  repeat (apply elem_of_cons in H as [->|H]; [reflexivity|]). inversion H.
Qed.

Lemma gain_update_normalizes_witness :
  level_min [70; 72]%R = Ok 70%R /\
  exists a', update_gains 70 [70; 72]%R [] example_array = Ok a' /\
    1%R ∈ gains (spk a') /\
    (forall g, g ∈ gains (spk a') -> (g <= 1)%R).
Proof.
  split; [exact example_level_min|].
  destruct (gain_update_normalizes [70; 72]%R [] 70%R example_array)
    as (v1 & w1 & m & a' & _ & _ & _ & _ & _ & _ & _ & Hu & _ & _ & H1 & Hle & _).
  - exact example_level_min.
  - reflexivity.
  - reflexivity.
  - exact example_unit_gains.
  - intros g H. inversion H.
  - exists a'. auto.
Defined.

Lemma get_levels_leaves_diffuse_unmuted_witness :
  stimuli_unmuted (run get_levels_phase_bb (set_active_diff true example_session)) = 2%nat.
Proof.
  apply (get_levels_leaves_diffuse_unmuted example_session); reflexivity.
Defined.

Lemma inc_caliblevel_roundtrip_witness :
  get_caliblevel (inc_caliblevel (fun x => x) 2 (inc_caliblevel (fun x => x) 1 example_session))
  = (startlevel example_session + 1 + 2)%R.
Proof.
  apply (inc_caliblevel_roundtrip (fun x => x) 0 example_session 1 2).
  - lra.
  - intros x. rewrite Rminus_diag, Rabs_R0. lra.
  - reflexivity.
  - reflexivity.
Defined.

Lemma lockstep_preserved_witness :
  lockstep example_session /\ sized example_session /\
  exists s',
    apply_ops (fun x => x)
      [op_reset_levels; op_update; op_inc_caliblevel 3; op_inc_diffusegain 1]
      example_session = Ok s' /\
    lockstep s'.
Proof.
  assert (Hl : lockstep example_session) by (repeat split).
  assert (Hs : sized example_session).
  { unfold sized. cbn. repeat split; try reflexivity; intros H; congruence. }
  split; [exact Hl|]. split; [exact Hs|].
  destruct (lockstep_preserved (fun x => x)
              [op_reset_levels; op_update; op_inc_caliblevel 3; op_inc_diffusegain 1]
              example_session Hl) as [_ H].
  destruct (H Hs) as (s' & Hs' & Hl' & _). exists s'. auto.
Defined.

Lemma example_files_lookup (root : string) (ra : gmap string attr_value) :
  example_files root ra !! "layout.spk" = Some (example_layout root ra).
Proof. apply lookup_singleton_eq. Qed.

Lemma calibfor_grammar_witness :
  exists sx,
    build_scene (example_files "layout" {[ "calibfor" := AStr "type:nsp,order:3" ]})
      "layout.spk" = Ok ("type:nsp,order:3", sx) /\
    e_rcvr2 sx !! "type" = Some (AStr "nsp") /\
    e_rcvr2 sx !! "order" = Some (AStr "3").
Proof.
  destruct (calibfor_grammar
              (example_files "layout" {[ "calibfor" := AStr "type:nsp,order:3" ]})
              "layout.spk"
              (example_layout "layout" {[ "calibfor" := AStr "type:nsp,order:3" ]})
              "type:nsp,order:3") as (toks & _ & _ & _ & H & _).
  - apply example_files_lookup.
  - apply lookup_singleton_eq.
  - discriminate.
  - exact (H eq_refl).
Defined.

Lemma calibfor_default_witness :
  exists sx,
    build_scene (example_files "layout" ∅) "layout.spk" = Ok ("type:nsp", sx) /\
    e_rcvr2 sx !! "type" = Some (AStr "nsp").
Proof.
  apply (calibfor_default (example_files "layout" ∅) "layout.spk" (example_layout "layout" ∅)).
  - apply example_files_lookup.
  - apply lookup_empty.
Defined.

Lemma saveas_writes_receiver_gain_witness :
  exists doc',
    saveas (fun _ => None) (fun _ => 0%Z) "out.spk" "2026-11-02 12:00:00"
      example_session (example_files "layout" ∅)
    = Ok (clear_flags example_session, <["out.spk" := doc']> (example_files "layout" ∅)) /\
    length (speaker_elems doc') = 2%nat.
Proof.
  destruct (saveas_writes_receiver_gain (fun _ => None) (fun _ => 0%Z)
              "out.spk" "2026-11-02 12:00:00" example_session
              (example_files "layout" ∅) (example_layout "layout" ∅))
    as (doc' & Hs & Hl & _).
  - discriminate.
  - cbn. lia.
  - apply example_files_lookup.
  - reflexivity.
  - reflexivity.
  - discriminate.
  - intros H. now contradiction H.
  - exists doc'. split; [exact Hs|exact Hl].
Defined.

Lemma saveas_errors_and_flags_witness :
  saveas (fun _ => None) (fun _ => 0%Z) "out.spk" "2026-11-02 12:00:00"
    example_session (example_files "session" ∅)
  = Throw (wrong_root_error "session").
Proof.
  destruct (saveas_errors_and_flags (fun _ => None) (fun _ => 0%Z)
              "out.spk" "2026-11-02 12:00:00" example_session
              (example_files "session" ∅) (example_layout "session" ∅))
    as (H & _ & _).
  - discriminate.
  - cbn. lia.
  - apply example_files_lookup.
  - apply H. discriminate.
Defined.

Lemma example_bandlevels_length (w : example_wave) (calibpar : spk_eq_param_t) (fs : R) :
  length (bandlevels example_wave example_bandlevels w calibpar fs).1 = 4%nat /\
  length (bandlevels example_wave example_bandlevels w calibpar fs).2 = 4%nat.
Proof. destruct w as [[[a b] c] d]. split; reflexivity. Qed.

Lemma get_fresp_stage_count_witness :
  exists spks' st,
    get_fresp_ example_wave example_capture example_bandlevels
      [example_speaker; example_speaker] (mk_src false front) (mk_jackrec 44100 0) 2
      example_par [] []
    = Ok (1%Z, spks', st) /\
    Forall (fun s => eqstages s = 1%Z) spks'.
Proof.
  destruct (get_fresp_stage_count example_wave example_capture example_bandlevels 4 2
              [example_speaker; example_speaker] (mk_src false front)
              (mk_jackrec 44100 0) example_par [] []) as [_ H].
  - intros w fs. apply example_bandlevels_length.
  - lia.
  - reflexivity.
  - lia.
  - reflexivity.
  - discriminate.
  - destruct H as (spks' & st & Hg & _ & Hall & _); [discriminate|].
    exists spks', st. split; [exact Hg|exact Hall].
Defined.

Lemma fresp_speaker_curve_witness :
  exists curve st' s',
    fresp_speaker example_wave example_capture example_bandlevels 2 example_par
      (mk_fresp (mk_src false front) (mk_jackrec 44100 0) [] [] 0) example_speaker
    = Ok (st', s') /\
    eqgain s' = curve /\ (forall x, x ∈ curve -> (x <= 0)%R) /\ 0%R ∈ curve.
Proof.
  destruct (fresp_speaker_curve example_wave example_capture example_bandlevels 4 2
              example_par (mk_fresp (mk_src false front) (mk_jackrec 44100 0) [] [] 0)
              example_speaker)
    as (ref & curve & st' & s' & _ & Hs & _ & Hle & H0 & Hg & _).
  - intros w. apply example_bandlevels_length.
  - lia.
  - reflexivity.
  - lia.
  - exists curve, st', s'. auto.
Defined.


(** ** Instances of the further properties *)

Lemma string_token_split_join_witness :
  exists toks,
    Token.string_token "type:nsp,order:3" "," = Some toks /\
    String.concat "," toks = "type:nsp,order:3".
Proof.
  destruct (string_token_split_join "type:nsp,order:3" ",") as (toks & H1 & _ & _ & H2).
  - discriminate.
  - exists toks. split; [exact H1|exact H2].
Defined.

Lemma playback_ops_exclusive_witness :
  Forall at_most_one_stimulus
    (mute_trace [op_set_active true; op_set_active_diff true; op_set_active false]
       example_session).
Proof.
  apply (playback_ops_exclusive
           [op_set_active true; op_set_active_diff true; op_set_active false]
           example_session).
  - unfold at_most_one_stimulus. vm_compute. lia.
  - repeat constructor; discriminate.
Defined.

Lemma inc_diffusegain_roundtrip_witness :
  (20 * log10 (1 - 0)
   <= get_diffusegain
        (inc_diffusegain (fun x => x) 2 (inc_diffusegain (fun x => x) 1 example_session))
      - (startdiffgain example_session + 1 + 2)
   <= 20 * log10 (1 + 0))%R.
Proof.
  apply (inc_diffusegain_roundtrip (fun x => x) 0 example_session 1 2).
  - lra.
  - intros x. rewrite Rminus_diag, Rabs_R0. lra.
  - reflexivity.
Defined.

Lemma reset_levels_effect_witness :
  exists s',
    reset_levels example_session = Ok s' /\
    levelsrecorded (flags s') = false /\
    reset_levels s' = Ok s'.
Proof.
  destruct (reset_levels_effect example_session)
    as (s' & H & Hf & _ & _ & _ & _ & _ & _ & Hidem).
  - cbn. lia.
  - cbn. lia.
  - cbn. lia.
  - cbn. lia.
  - exists s'. split; [exact H|]. split; [now rewrite Hf|exact Hidem].
Defined.

Lemma reset_levels_out_of_range_witness :
  reset_levels example_session_three_levels = Undefined.
Proof.
  apply (reset_levels_out_of_range example_session_three_levels). cbn. lia.
Defined.

Lemma gain_update_keeps_headroom_witness :
  exists a',
    update_gains 70 [70; 72]%R [] example_array = Ok a' /\
    (1%R ∈ gains (spk a')) /\
    (forall g, g ∈ gains (spk a') -> (0 < g <= 1)%R).
Proof.
  destruct (gain_update_keeps_headroom [70; 72]%R [] 70%R example_array)
    as (a' & H & _ & _ & H1 & Hle & _).
  - discriminate.
  - reflexivity.
  - reflexivity.
  - intros g Hg. rewrite (example_unit_gains g Hg). lra.
  - exists a'. split; [exact H|]. split; [exact H1|exact Hle].
Defined.

Lemma gain_update_out_of_range_witness :
  update_gains 70 [70; 72; 74]%R [] example_array = Undefined.
Proof.
  apply (gain_update_out_of_range [70; 72; 74]%R [] 70%R example_array). cbn. lia.
Defined.

Lemma subwoofer_equalizer_update_witness :
  exists v',
    update_eqs 1 [125; 250]%R [[0; 3]; [6; 9]]%R 44100 (fun k => k) 0
      [example_speaker; example_speaker] = Ok v' /\
    forall i s', v' !! i = Some s' -> eqgain s' = [0; 3]%R.
Proof.
  destruct (subwoofer_equalizer_update 1 [125; 250]%R [[0; 3]; [6; 9]]%R 44100%R
              [example_speaker; example_speaker]) as [H _].
  - discriminate.
  - destruct (H [0; 3]%R [[6; 9]%R] eq_refl) as (v' & Hv & _ & Hall).
    exists v'. split; [exact Hv|]. intros i s' Hi. exact (proj1 (Hall i s' Hi)).
Defined.

Lemma stage_count_bounds_witness :
  (0 <= stage_count 4 2 <= 2)%Z /\ stage_count 3 2 = 0%Z.
Proof.
  split.
  - apply (stage_count_bounds 4 2). lia.
  - destruct (stage_count_bounds 3 2) as (_ & H & _); [lia|]. apply H. lia.
Defined.

Lemma get_fresp_bookkeeping_witness :
  exists n spks' st,
    get_fresp_ example_wave example_capture example_bandlevels
      [example_speaker; example_speaker] (mk_src false front) (mk_jackrec 44100 0) 2
      example_par [] []
    = Ok (n, spks', st) /\
    ncaptures (fr_jackrec st) = 2%nat /\
    fr_vGain st = eqgain <$> spks'.
Proof.
  destruct (get_fresp_bookkeeping example_wave example_capture example_bandlevels 4 2
              [example_speaker; example_speaker] (mk_src false front)
              (mk_jackrec 44100 0) example_par [] [])
    as (n & spks' & st & H & _ & Hc & _ & Hg & _).
  - intros w fs. apply example_bandlevels_length.
  - lia.
  - lia.
  - reflexivity.
  - discriminate.
  - exists n, spks', st. split; [exact H|]. split; [exact Hc|exact Hg].
Defined.

Lemma get_fresp_no_measurement_channel_witness :
  get_fresp_ example_wave example_capture example_bandlevels
    [example_speaker] (mk_src false front) (mk_jackrec 44100 0) 1 example_par [] []
  = Undefined.
Proof.
  apply (get_fresp_no_measurement_channel example_wave example_capture example_bandlevels
           example_speaker [] (mk_src false front) (mk_jackrec 44100 0) example_par [] []).
  discriminate.
Defined.

Lemma get_levels_bookkeeping_witness :
  exists lv,
    get_levels_ example_wave example_capture example_bandlevels example_levelmeter
      [example_speaker; example_speaker] (mk_src false front) (mk_jackrec 44100 0) 2
      weight_C example_par
    = Ok lv /\
    length (lv_levelrange lv) = 2%nat /\
    Forall (fun r => (0 <= r)%R) (lv_levelrange lv).
Proof.
  destruct (get_levels_bookkeeping example_wave example_capture example_bandlevels
              example_levelmeter 4 2 weight_C example_par
              [example_speaker; example_speaker] (mk_src false front) (mk_jackrec 44100 0))
    as (lv & H & _ & _ & Hl & Hr & _).
  - intros w fs. apply example_bandlevels_length.
  - lia.
  - lia.
  - reflexivity.
  - exists lv. split; [exact H|]. split; [exact Hl|exact Hr].
Defined.


Lemma example_saveas_ok :
  exists doc',
    saveas (fun _ => None) (fun _ => 0%Z) "out.spk" "2026-11-02 12:00:00"
      example_session (example_files "layout" ∅)
    = Ok (clear_flags example_session, <["out.spk" := doc']> (example_files "layout" ∅)).
Proof.
  destruct (saveas_ok (fun _ => None) (fun _ => 0%Z) "out.spk" "2026-11-02 12:00:00"
              example_session (example_files "layout" ∅) (example_layout "layout" ∅))
    as (doc' & H & _).
  - eexists. reflexivity.
  - apply example_files_lookup.
  - reflexivity.
  - reflexivity.
  - discriminate.
  - intros H. now contradiction H.
  - exists doc'. exact H.
Qed.

Lemma saveas_files_witness :
  exists fs',
    saveas (fun _ => None) (fun _ => 0%Z) "out.spk" "2026-11-02 12:00:00"
      example_session (example_files "layout" ∅)
    = Ok (clear_flags example_session, fs') /\
    fs' !! "layout.spk" = example_files "layout" ∅ !! "layout.spk" /\
    get_calibfor fs' "out.spk" = Ok "type:nsp".
Proof.
  destruct example_saveas_ok as [doc' H].
  destruct (saveas_files _ _ _ _ _ _ _ _ H) as (Hother & _ & Hcf & _).
  eexists. split; [exact H|]. split; [apply Hother; discriminate|exact Hcf].
Defined.

Lemma saveas_speaker_attributes_witness :
  exists fs' doc',
    saveas (fun _ => None) (fun _ => 0%Z) "out.spk" "2026-11-02 12:00:00"
      example_session (example_files "layout" ∅)
    = Ok (clear_flags example_session, fs') /\
    fs' !! "out.spk" = Some doc' /\
    forall k e e',
      speaker_elems (example_layout "layout" ∅) !! k = Some e ->
      speaker_elems doc' !! k = Some e' ->
      e' !! "eqstages" = Some (AUInt 0) /\
      e' !! "eqfreq" = Some (AStr EmptyString) /\
      (forall key, key <> "gain" -> key <> "eqstages" -> key <> "eqfreq" ->
         key <> "eqgain" -> e' !! key = e !! key).
Proof.
  destruct example_saveas_ok as [doc0 H].
  destruct (saveas_speaker_attributes _ _ _ _ _ _ _ _ H) as (doc & doc' & Hd & Hd' & Hall).
  eexists _, doc'. split; [exact H|]. split; [exact Hd'|].
  intros k e e' He He'.
  rewrite example_files_lookup in Hd. injection Hd as <-.
  destruct (Hall k e e' He He') as (H1 & _ & H3 & _ & H5).
  split; [exact H1|]. split; [|exact H5].
  apply H3. left. cbn. lia.
Defined.

Lemma saveas_throws_witness :
  exists msg,
    saveas (fun _ => None) (fun _ => 0%Z) "out.spk" "2026-11-02 12:00:00"
      example_session ∅
    = Throw msg.
Proof.
  destruct (saveas_throws (fun _ => None) (fun _ => 0%Z) "out.spk" "2026-11-02 12:00:00"
              example_session ∅) as [H _].
  - discriminate.
  - cbn. lia.
  - apply H. apply lookup_empty.
Defined.

Lemma saveas_parameters_read_back_witness :
  exists fs' doc',
    saveas (fun _ => None) (fun _ => 0%Z) "out.spk" "2026-11-02 12:00:00"
      example_session (example_files "layout" ∅)
    = Ok (clear_flags example_session, fs') /\
    fs' !! "out.spk" = Some doc' /\
    read_xml (mk_par true 0 0 0 0 0 0 0 5) doc'
    = Some (mk_par true 31.25 62.5 4 0.125 70 3 2 5, doc').
Proof.
  destruct example_saveas_ok as [doc0 H].
  destruct (saveas_parameters_read_back _ _ _ _ _ _ _ _ H) as (doc' & Hd & Hr).
  - reflexivity.
  - reflexivity.
  - eexists _, doc'. split; [exact H|]. split; [exact Hd|].
    exact (Hr (mk_par true 0 0 0 0 0 0 0 5)).
Defined.

Lemma calibfor_pairs_override_witness :
  exists sx,
    build_scene (example_files "layout" {[ "calibfor" := AStr "type:nsp,mute:false" ]})
      "layout.spk" = Ok ("type:nsp,mute:false", sx) /\
    e_rcvr2 sx !! "mute" = Some (AStr "false") /\
    e_rcvr2 sx !! "name" = Some (AStr "out2").
Proof.
  destruct (calibfor_pairs_override
              (example_files "layout" {[ "calibfor" := AStr "type:nsp,mute:false" ]})
              "layout.spk"
              (example_layout "layout" {[ "calibfor" := AStr "type:nsp,mute:false" ]})
              "type:nsp,mute:false" ["type:nsp"; "mute:false"]
              [("type", "nsp"); ("mute", "false")])
    as (sx & Hb & _ & Hkeep & Hlast).
  - apply example_files_lookup.
  - apply lookup_singleton_eq.
  - discriminate.
  - reflexivity.
  - repeat constructor.
  - exists sx. split; [exact Hb|]. split.
    + apply (Hlast [("type", "nsp")] [] "mute" "false"); [reflexivity|].
      intros Hin. inversion Hin.
    + rewrite Hkeep.
      * reflexivity.
      * intros Hin. cbn in Hin. inversion Hin as [|? ? ? Hin']; subst.
        inversion Hin' as [|? ? ? Hin'']; subst. inversion Hin''.
Defined.


Lemma get_levels_completes_witness :
  exists s',
    get_levels example_wave example_capture example_bandlevels example_levelmeter
      example_session = Ok s' /\
    levelsrecorded (flags s') = true /\
    length (levels (meas s')) = 2%nat /\
    ncaptures (jackrec s') = 4%nat.
Proof.
  destruct (get_levels_completes example_wave example_capture example_bandlevels
              example_levelmeter 4 4 example_session)
    as (s' & H & Hf & Hl & _ & _ & _ & Hc & _).
  - discriminate.
  - reflexivity.
  - intros w fs. apply example_bandlevels_length.
  - lia.
  - intros w fs. apply example_bandlevels_length.
  - lia.
  - discriminate.
  - reflexivity.
  - reflexivity.
  - reflexivity.
  - exists s'. split; [exact H|]. split; [now rewrite Hf|]. split; [exact Hl|exact Hc].
Defined.

Lemma get_levels_without_measurement_port_witness :
  get_levels example_wave example_capture example_bandlevels example_levelmeter
    example_session_no_port = Undefined.
Proof.
  apply (get_levels_without_measurement_port example_wave example_capture
           example_bandlevels example_levelmeter example_session_no_port).
  - reflexivity.
  - discriminate.
Defined.

Lemma get_levels_without_broadband_speakers_witness :
  get_levels example_wave example_capture example_bandlevels example_levelmeter
    example_session_subs_only = Undefined.
Proof.
  apply (get_levels_without_broadband_speakers example_wave example_capture
           example_bandlevels example_levelmeter 4 example_session_subs_only).
  - discriminate.
  - reflexivity.
  - intros w fs. apply example_bandlevels_length.
  - lia.
  - reflexivity.
Defined.

(** * Counterexamples *)

Lemma saveas_gain_counterexample :
  exists doc' e',
    saveas (fun _ => None) (fun _ => 0%Z) "out.spk" "2026-11-02 12:00:00"
      example_session (example_files "layout" ∅)
    = Ok (clear_flags example_session, <["out.spk" := doc']> (example_files "layout" ∅)) /\
    level_min (levels (meas example_session)) = Ok 70%R /\
    levels (meas example_session) !! 1%nat = Some 72%R /\
    speaker_elems doc' !! 1%nat = Some e' /\
    e' !! "gain" <> Some (ANum (20 * log10 (gain example_speaker) + 70 - 72)).
Proof.
  destruct (saveas_gains_spec [70; 72]%R [example_speaker; example_speaker] 70%R
              example_level_min) as (g & Hg & _); [cbn; lia|].
  destruct (saveas_ok (fun _ => None) (fun _ => 0%Z) "out.spk" "2026-11-02 12:00:00"
              example_session (example_files "layout" ∅) (example_layout "layout" ∅))
    as (doc' & Hs & _ & Hl & _ & Hgain & _).
  - exists g. exact Hg.
  - apply example_files_lookup.
  - reflexivity.
  - reflexivity.
  - discriminate.
  - intros H. now contradiction H.
  - destruct (lookup_lt_is_Some_2 (speaker_elems doc') 1) as [e' He'].
    { rewrite Hl. cbn. lia. }
    exists doc', e'. split; [exact Hs|]. split; [exact example_level_min|].
    split; [reflexivity|]. split; [exact He'|].
    destruct (Hgain 1%nat e' He') as (t & Ht & Hgt & _).
    cbn in Ht. injection Ht as <-. rewrite Hgt.
    intros [= H]. lra.
Qed.

Lemma fresp_curve_counterexample :
  exists st' s',
    fresp_speaker example_wave example_capture example_bandlevels 2 example_par
      (mk_fresp (mk_src false front) (mk_jackrec 44100 0) [] [] 0) example_speaker
    = Ok (st', s') /\
    spk_eq s' = optim_response pareq_default (fr_numflt st') (fr_vF st') (eqgain s') 44100 /\
    ~ is_claimed_target example_wave example_bandlevels example_par 44100
        [(0, 10, 0, 0)%R] (0, 0, 0, 0)%R (eqgain s').
Proof.
  destruct (fresp_speaker_spec example_wave example_capture example_bandlevels 4 2
              example_par (mk_fresp (mk_src false front) (mk_jackrec 44100 0) [] [] 0)
              example_speaker)
    as (ref & curve & st' & s' & Href & Hs & Hfit & _ & _ & Hg & _ & Heq & _ & HvF & _).
  - intros w. apply example_bandlevels_length.
  - lia.
  - reflexivity.
  - lia.
  - cbn in Href. injection Href as <-.
    exists st', s'. split; [exact Hs|]. split; [rewrite Heq, HvF, Hg; reflexivity|].
    intros Hclaim. rewrite Hg in Hclaim.
    pose proof (claimed_target_nonnegative _ _ _ _ _ _ _ Hclaim) as Hnn.
    destruct Hfit as (m & Hin & Hub & ->).
    cbn in Hub, Hnn.
    set (d0 := (0 - 10 * log10 (energy_sum [[0; 10; 0; 0]] 0 / INR 1))%R) in *.
    set (d1 := (0 - 10 * log10 (energy_sum [[0; 10; 0; 0]] 1 / INR 1))%R) in *.
    assert (Hlt : (d1 < d0)%R).
    { unfold d0, d1, energy_sum. cbn.
      assert ((log10 ((pow10 (0.1 * 0) + 0) / 1) < log10 ((pow10 (0.1 * 10) + 0) / 1))%R);
        [|lra].
      pose proof (pow10_pos (0.1 * 0)). pose proof (pow10_lt (0.1 * 0) (0.1 * 10)).
      apply log10_lt; lra. }
    assert (H0 : (d0 <= m)%R) by (apply Hub; left).
    assert (H1 : (0 <= d1 - m)%R) by (apply Hnn; right; left).
    lra.
Qed.
